(** * deep-research: the recursive research orchestrator and its callers

    A shallow embedding of [deep-research.ts] (retry-wrapped retrieval,
    query expansion, distillation, the recursive orchestrator, the
    refinement step, the final report) and of the end of [run.ts] (the
    use of the report and the collision-avoiding save).

    The search service, the inference service and the file system are
    outside the program.  They are kept abstract: a type [W] of states of
    the outside world and one transition function per call shape
    ([Services]).  A computation of the program is a function from the
    world it starts in to an outcome: a result (a value, a thrown
    exception, a process exit, or fuel exhausted), the world it ends in,
    and the sequence of observable events it produced (sleeps, service
    calls, console lines, file operations).

    Numbers are integers: [breadth], [depth] and the number of refinement
    iterations come from [parseInt] or from literals.  Promises are run to
    completion in program order, which is what [ConcurrencyLimit = 1]
    leaves of the concurrency. *)

From Stdlib Require Import String Ascii List ZArith Lia Bool Arith.
From Stdlib Require Import DecimalString Decimal.
Import ListNotations.
Local Open Scope string_scope.
Local Open Scope Z_scope.

Set Implicit Arguments.

(** ** Data model *)

(** [{ query: string; researchGoal: string }], the element type of
    [ResearchResult.queries] and of the query-expansion schema. *)
Record SerpQuery := mkSerpQuery {
  query : string;
  researchGoal : string
}.

(** One item of a [SearchResponse]; both fields may be absent. *)
Record SearchItem := mkSearchItem {
  url : option string;
  markdown : option string
}.

Record SearchResponse := mkSearchResponse {
  data : list SearchItem
}.

(** The object of the distillation schema. *)
Record Distilled := mkDistilled {
  d_learnings : list string;
  followUpQuestions : list string
}.

Record ResearchResult := mkResearchResult {
  learnings : list string;
  visitedUrls : list string;
  queries : list SerpQuery
}.

(** A thrown JavaScript value; the program only ever reads [e.message]. *)
Record exn := mkExn {
  message : option string
}.

(** ** Strings and arrays as the program uses them *)

(** [s.includes(sub)] *)
Fixpoint includes (sub s : string) : bool :=
  String.prefix sub s ||
  match s with
  | EmptyString => false
  | String _ s' => includes sub s'
  end.

(** [xs.join(sep)] *)
Fixpoint join (sep : string) (xs : list string) : string :=
  match xs with
  | [] => ""
  | [x] => x
  | x :: xs' => x ++ sep ++ join sep xs'
  end.

(** lodash [compact] on an array whose entries are strings or undefined:
    the falsy entries (undefined and the empty string) are dropped. *)
Fixpoint compact (xs : list (option string)) : list string :=
  match xs with
  | [] => []
  | None :: xs' => compact xs'
  | Some "" :: xs' => compact xs'
  | Some s :: xs' => s :: compact xs'
  end.

(** [xs.slice(0, n)] for an integer [n]: a negative end counts from the
    end of the array. *)
Definition slice0 {A} (n : Z) (xs : list A) : list A :=
  if n <? 0 then firstn (Z.to_nat (Z.of_nat (length xs) + n)) xs
  else firstn (Z.to_nat n) xs.

(** [[...new Set(xs)]]: a [Set] iterates in insertion order, so the first
    occurrence of every string is kept, in order. *)
Fixpoint set_insert (acc : list string) (xs : list string) : list string :=
  match xs with
  | [] => acc
  | x :: xs' =>
      if existsb (String.eqb x) acc then set_insert acc xs'
      else set_insert (acc ++ [x])%list xs'
  end.

Definition spread_set (xs : list string) : list string := set_insert [] xs.

(** Decimal rendering of an integer, as [`${n}`] does for integers. *)
Definition show_Z (n : Z) : string := NilZero.string_of_int (Z.to_int n).
Definition show_nat (n : nat) : string := NilZero.string_of_uint (Nat.to_uint n).

(** ** Observable events *)

(** The prompts sent to [generateObject], one constructor per call site,
    each carrying the values interpolated into its template. *)
Inductive prompt :=
| SerpQueriesPrompt (query : string) (numQueries : Z) (learnings : option string)
| LearningsPrompt (query : string) (numLearnings : Z) (contents : string)
                  (numFollowUpQuestions : Z)
| ReportPrompt (prompt : string) (learningsString : string)
| CriticismPrompt (report : string)
| QuestionsPrompt (breadth : Z) (criticism : string)
| RevisionPrompt (report : string) (learnings : string)
| FileNamePrompt (query : string).

(** Console lines, one constructor per call site, with the interpolated
    values; [LogText] is a line printed verbatim. *)
Inductive logline :=
| LogCreatedQueries (n : nat) (qs : list SerpQuery)
| LogRan (query : string) (n : nat)
| LogCreatedLearnings (n : nat) (ls : list string)
| LogTimeoutError (query : string) (e : exn)
| LogError (query : string) (e : exn)
| LogRetrying (query : string) (backoff : Z)
| LogResearchingDeeper (breadth depth : Z)
| LogRefining
| LogCriticism (criticism : string)
| LogFollowUps (questions : string)
| LogNewLearnings (ls : string)
| LogNewVisitedUrls (n : nat) (urls : string)
| LogRevised (report : string)
| LogText (s : string).

Inductive event :=
| Sleep (ms : Z)
| SearchCall (query : string)
| Generate (p : prompt)
| ConsoleLog (l : logline)
| ConsoleError (l : logline)
| ExistsSync (path : string)
| Mkdir (path : string)
| FileWrite (path content : string)
| Exit (code : Z)
| CloseInput.

(** ** Computations *)

Inductive result (A : Type) :=
| Ok (a : A)
| Throw (e : exn)
| Exited (code : Z)
| OutOfFuel.

Arguments Ok {A} a.
Arguments Throw {A} e.
Arguments Exited {A} code.
Arguments OutOfFuel {A}.

Section Program.

Variable W : Type.

Record outcome (A : Type) := Out {
  res : result A;
  after : W;
  out : list event
}.

Definition M (A : Type) := W -> outcome A.

Definition ret {A} (a : A) : M A := fun w => Out (Ok a) w [].

Definition throw {A} (e : exn) : M A := fun w => Out (Throw e) w [].

Definition out_of_fuel {A} : M A := fun w => Out OutOfFuel w [].

Definition bind {A B} (m : M A) (f : A -> M B) : M B := fun w =>
  let o := m w in
  match res o with
  | Ok a => let o' := f a (after o) in
            Out (res o') (after o') (out o ++ out o')
  | Throw e => Out (Throw e) (after o) (out o)
  | Exited c => Out (Exited c) (after o) (out o)
  | OutOfFuel => Out OutOfFuel (after o) (out o)
  end.

(** [try { m } catch (e) { h e }] where [m] is awaited inside the block. *)
Definition try_catch {A} (m : M A) (h : exn -> M A) : M A := fun w =>
  let o := m w in
  match res o with
  | Throw e => let o' := h e (after o) in
               Out (res o') (after o') (out o ++ out o')
  | _ => o
  end.

Definition emit (ev : event) : M unit := fun w => Out (Ok tt) w [ev].

(** [process.exit(code)]: nothing of the program runs afterwards. *)
Definition exit {A} (code : Z) : M A := fun w => Out (Exited code) w [Exit code].

(** A call to an outside service: the event is observed, the world moves,
    and the call either returns or throws. *)
Definition perform {A} (ev : event) (f : W -> (exn + A) * W) : M A := fun w =>
  let '(r, w') := f w in
  Out (match r with inl e => Throw e | inr a => Ok a end) w' [ev].

End Program.

Arguments Out {W A} res after out.
Arguments res {W A} o.
Arguments after {W A} o.
Arguments out {W A} o.
Arguments ret {W A} a w.
Arguments throw {W A} e w.
Arguments out_of_fuel {W A} w.
Arguments emit {W} ev w.
Arguments exit {W A} code w.

Declare Scope prog_scope.
Delimit Scope prog_scope with prog.
Notation "x <- m ;; k" := (bind m (fun x => k))
  (at level 61, m at next level, right associativity) : prog_scope.
Notation "m ;; k" := (bind m (fun _ => k))
  (at level 61, right associativity) : prog_scope.
Local Open Scope prog_scope.

(** [Promise.all(xs.map(x => limit(() => f x)))] with [ConcurrencyLimit = 1]:
    the limiter starts a unit only when the previous one has settled, so the
    units run one after the other in array order.  The first rejection
    rejects the whole [Promise.all]; what the units still queued do after
    that is not observable through the returned promise and is not
    modelled. *)
Fixpoint all_limit1 {W A B} (f : A -> M W B) (xs : list A) : M W (list B) :=
  match xs with
  | [] => ret []
  | x :: xs' =>
      y <- f x ;;
      ys <- all_limit1 f xs' ;;
      ret (y :: ys)
  end.

(** ** The outside world *)

(** One transition per call shape; each either throws or returns.
    [trimPrompt] comes from [./ai/providers], which is outside the modelled
    files; it is a pure function of the text and the budget.  [trim] is the
    built-in [String.prototype.trim], and [slugify] the helper of that name
    called with [lower] and [strict] set (its Unicode normalisation has no
    counterpart on byte strings; nothing below depends on what it returns). *)
Class Services (W : Type) := {
  firecrawl_search : string -> W -> (exn + SearchResponse) * W;
  generateObject_queries : prompt -> W -> (exn + list SerpQuery) * W;
  generateObject_learnings : prompt -> W -> (exn + Distilled) * W;
  generateObject_text : prompt -> W -> (exn + string) * W;
  generateObject_questions : prompt -> W -> (exn + list string) * W;
  trimPrompt : string -> Z -> string;
  trim : string -> string;
  slugify : string -> string;
  existsSync : string -> W -> bool;
  fs_mkdir : string -> W -> (exn + unit) * W;
  fs_writeFile : string -> string -> W -> (exn + unit) * W
}.

Section DeepResearch.

Context {W : Type} {svc : Services W}.

(** ** Retry-wrapped retrieval *)

Definition MAX_RETRIES : nat := 5.
Definition INITIAL_BACKOFF : Z := 5000.

(** [setTimeout]-based wait. *)
Definition sleep (ms : Z) : M W unit := emit (Sleep ms).

Definition console_log (l : logline) : M W unit := emit (ConsoleLog l).
Definition console_error (l : logline) : M W unit := emit (ConsoleError l).

(** The two-way [console.error] of both [catch] blocks: the test is
    [e.message && e.message.includes('Timeout')]. *)
Definition query_error_line (q : string) (e : exn) : logline :=
  match message e with
  | Some m =>
      if (negb (String.eqb m "") && includes "Timeout" m)%bool
      then LogTimeoutError q e
      else LogError q e
  | None => LogError q e
  end.

Definition log_query_error (q : string) (e : exn) : M W unit :=
  console_error (query_error_line q e).

(** The [while (attempt < retries)] loop, by recursion on the number
    [remaining = retries - attempt] of attempts still allowed: the loop
    test [attempt < retries] is [remaining > 0], and after [attempt++] the
    inner test [attempt < retries] is [remaining - 1 > 0].  The wait before
    each attempt is [INITIAL_BACKOFF]; the wait after a failed attempt is
    [backoff], which is then doubled. *)
Fixpoint retry_loop (remaining : nat) (q : string) (backoff : Z)
  : M W SearchResponse :=
  match remaining with
  | O => throw (mkExn (Some ("Failed to run query: " ++ q)))
  | S remaining' =>
      try_catch
        (sleep INITIAL_BACKOFF ;;
         perform (SearchCall q) (firecrawl_search q))
        (fun e =>
           log_query_error q e ;;
           match remaining' with
           | O => throw e
           | S _ =>
               console_log (LogRetrying q backoff) ;;
               sleep backoff ;;
               retry_loop remaining' q (backoff * 2)
           end)
  end.

Definition firecrawlSearchWithRetry (q : string) (retries : nat)
  : M W SearchResponse :=
  retry_loop retries q INITIAL_BACKOFF.

(** ** Query expansion and distillation *)

Definition generateSerpQueries (q : string) (numQueries : Z)
    (ls : option (list string)) : M W (list SerpQuery) :=
  let p := SerpQueriesPrompt q numQueries (option_map (join "
") ls) in
  qs <- perform (Generate p) (generateObject_queries p) ;;
  console_log (LogCreatedQueries (length qs) qs) ;;
  ret (slice0 numQueries qs).

Definition processSerpResult (q : string) (result : SearchResponse)
    (numLearnings numFollowUpQuestions : Z) : M W Distilled :=
  let contents :=
    map (fun content => trimPrompt content 25000)
        (compact (map markdown (data result))) in
  console_log (LogRan q (length contents)) ;;
  let p := LearningsPrompt q numLearnings
             (join "
" (map (fun content => "<content>
" ++ content ++ "
</content>") contents))
             numFollowUpQuestions in
  o <- perform (Generate p) (generateObject_learnings p) ;;
  console_log (LogCreatedLearnings (length (d_learnings o)) (d_learnings o)) ;;
  ret o.

(** ** The recursive orchestrator *)

(** [Math.ceil(breadth / 2)] on an integer. *)
Definition newBreadth (breadth : Z) : Z := - ((- breadth) / 2).
Definition newDepth (depth : Z) : Z := depth - 1.

(** The arguments of the recursive [deepResearch] call. *)
Record Call := mkCall {
  c_query : string;
  c_breadth : Z;
  c_depth : Z;
  c_learnings : list string;
  c_visitedUrls : list string
}.

Definition emptyResult : ResearchResult := mkResearchResult [] [] [].

(** The template for [nextQuery] before [.trim()]. *)
Definition nextQuery_raw (goal : string) (followUps : list string) : string :=
  "
            Previous research goal: " ++ goal ++ "
            Follow-up research directions: "
  ++ join "" (map (fun q => "
" ++ q) followUps) ++ "
          ".

(** What a branch decides once retrieval and distillation have returned:
    either its own result, or the recursive call to make. *)
Definition branch_decision (serpQueries : list SerpQuery) (breadth depth : Z)
    (ls urls : list string) (serpQuery : SerpQuery)
    (newUrls : list string) (newLearnings : Distilled)
  : M W (ResearchResult + Call) :=
  let allLearnings := (ls ++ d_learnings newLearnings)%list in
  let allUrls := (urls ++ newUrls)%list in
  if newDepth depth >? 0 then
    console_log (LogResearchingDeeper (newBreadth breadth) (newDepth depth)) ;;
    ret (inr (mkCall
           (trim (nextQuery_raw (researchGoal serpQuery)
                                (followUpQuestions newLearnings)))
           (newBreadth breadth) (newDepth depth) allLearnings allUrls))
  else
    ret (inl (mkResearchResult allLearnings allUrls serpQueries)).

(** The body of the [try] block of one branch. *)
Definition branch_try (serpQueries : list SerpQuery) (breadth depth : Z)
    (ls urls : list string) (serpQuery : SerpQuery)
  : M W (ResearchResult + Call) :=
  result <- firecrawlSearchWithRetry (query serpQuery) MAX_RETRIES ;;
  let newUrls := compact (map url (data result)) in
  newLearnings <- processSerpResult (query serpQuery) result 3
                    (newBreadth breadth) ;;
  branch_decision serpQueries breadth depth ls urls serpQuery
                  newUrls newLearnings.

(** One unit of work.  The recursive call is written [return deepResearch(...)]
    without [await]: the [try] block is left as soon as the promise is
    created, so a rejection of the recursive call is not seen by this
    [catch]; it rejects the promise of the unit itself. *)
Definition researchBranch (self : Call -> M W ResearchResult)
    (serpQueries : list SerpQuery) (breadth depth : Z)
    (ls urls : list string) (serpQuery : SerpQuery) : M W ResearchResult :=
  r <- try_catch
         (branch_try serpQueries breadth depth ls urls serpQuery)
         (fun e =>
            log_query_error (query serpQuery) e ;;
            ret (inl emptyResult)) ;;
  match r with
  | inl v => ret v
  | inr c => self c
  end.

Definition deepResearch_level (self : Call -> M W ResearchResult)
    (q : string) (breadth depth : Z) (ls urls : list string)
  : M W ResearchResult :=
  serpQueries <- generateSerpQueries q breadth (Some ls) ;;
  results <- all_limit1
               (researchBranch self serpQueries breadth depth ls urls)
               serpQueries ;;
  ret (mkResearchResult
         (spread_set (flat_map learnings results))
         (spread_set (flat_map visitedUrls results))
         serpQueries).

(** The recursion is on the depth budget: a level recurses only with
    [depth - 1 > 0], so [fuel] levels below the current one are enough when
    [depth <= fuel + 1]. *)
Fixpoint deepResearch_fuel (fuel : nat) (c : Call) : M W ResearchResult :=
  deepResearch_level
    (match fuel with
     | O => fun _ => out_of_fuel
     | S fuel' => deepResearch_fuel fuel'
     end)
    (c_query c) (c_breadth c) (c_depth c) (c_learnings c) (c_visitedUrls c).

Definition deepResearch (q : string) (breadth depth : Z)
    (ls urls : list string) : M W ResearchResult :=
  deepResearch_fuel (Z.to_nat depth) (mkCall q breadth depth ls urls).

(** ** The refinement step *)

Definition refine_query (initialQuery criticism : string)
    (followUps : list string) : string :=
  "
Initial Query: " ++ initialQuery ++ "
Criticism: " ++ criticism ++ "
Follow-up Questions:
" ++ join "
" (map (fun q => "Q: " ++ q) followUps) ++ "
".

(** Steps 1 and 2 of [refineReport]: the criticism and the follow-up
    questions, ending in the combined query of step 3. *)
Definition refine_prepare (report initialQuery : string) (breadth : Z)
  : M W string :=
  console_log LogRefining ;;
  criticism <- perform (Generate (CriticismPrompt report))
                 (generateObject_text (CriticismPrompt report)) ;;
  console_log (LogCriticism criticism) ;;
  questions <- perform (Generate (QuestionsPrompt breadth criticism))
                 (generateObject_questions (QuestionsPrompt breadth criticism)) ;;
  let followUps := slice0 breadth questions in
  console_log (LogFollowUps (join "
" followUps)) ;;
  ret (refine_query initialQuery criticism followUps).

(** What [refineReport] does with the destructured
    [{ learnings, visitedUrls }] of the research: two console lines and
    step 4. *)
Definition refine_revise (report : string) (ls urls : list string)
  : M W string :=
  console_log (LogNewLearnings (join "
" ls)) ;;
  console_log (LogNewVisitedUrls (length urls) (join "
" urls)) ;;
  let p := RevisionPrompt report (join "
" ls) in
  revisedReport <- perform (Generate p) (generateObject_text p) ;;
  console_log (LogRevised revisedReport) ;;
  ret revisedReport.

Definition refineReport (report initialQuery : string) (breadth depth : Z)
  : M W string :=
  combinedQuery <- refine_prepare report initialQuery breadth ;;
  r <- deepResearch combinedQuery breadth depth [] [] ;;
  refine_revise report (learnings r) (visitedUrls r).

(** ** The final report *)

(** The [for (let i = 0; i < refinementIterates; i++)] loop, by recursion on
    the number of iterations left. *)
Fixpoint refine_loop (n : nat) (prompt report : string) : M W string :=
  match n with
  | O => ret report
  | S n' =>
      refinedReport <- refineReport report prompt 3 2 ;;
      refine_loop n' prompt refinedReport
  end.

Definition urlsSection (urls : list string) : string :=
  "

## Sources

" ++ join "
" (map (fun u => "- " ++ u) urls).

Definition writeFinalReport (prompt : string) (ls urls : list string)
    (refinementIterates : Z) : M W string :=
  let learningsString :=
    trimPrompt
      (join "
" (map (fun l => "<learning>
" ++ l ++ "
</learning>") ls))
      150000 in
  let p := ReportPrompt prompt learningsString in
  reportMarkdown <- perform (Generate p) (generateObject_text p) ;;
  refined <- refine_loop (Z.to_nat refinementIterates) prompt reportMarkdown ;;
  ret (refined ++ urlsSection urls).

Definition generateFileName (q : string) : M W string :=
  fileName <- perform (Generate (FileNamePrompt q))
                (generateObject_text (FileNamePrompt q)) ;;
  ret (slugify fileName).

End DeepResearch.

(** ** The end of [run]: using the report and saving it *)

(** The JavaScript values [run] can meet when it destructures what
    [writeFinalReport] returned. *)
#[local] Unset Elimination Schemes.
Inductive jsval :=
| JsUndefined
| JsNumber (n : Z)
| JsString (s : string)
| JsStrings (xs : list string)
| JsObject (fields : list (string * jsval)).
#[local] Set Elimination Schemes.

Fixpoint field_lookup (name : string) (fields : list (string * jsval)) : jsval :=
  match fields with
  | [] => JsUndefined
  | (k, v) :: fields' =>
      if String.eqb k name then v else field_lookup name fields'
  end.

(** [v[name]] for a property name; of the properties of strings and arrays
    only [length] is modelled (the program reads [steps] and [report]). *)
Definition get_property (v : jsval) (name : string) : jsval :=
  match v with
  | JsObject fields => field_lookup name fields
  | JsString s =>
      if String.eqb name "length" then JsNumber (Z.of_nat (String.length s))
      else JsUndefined
  | JsStrings xs =>
      if String.eqb name "length" then JsNumber (Z.of_nat (List.length xs))
      else JsUndefined
  | _ => JsUndefined
  end.

(** [`${v}`] *)
Definition js_to_string (v : jsval) : string :=
  match v with
  | JsUndefined => "undefined"
  | JsNumber n => show_Z n
  | JsString s => s
  | JsStrings xs => join "," xs
  | JsObject _ => "[object Object]"
  end.

(** [xs.map((x, i) => f x i)] *)
Fixpoint mapi_from {A B} (i : nat) (f : A -> nat -> B) (xs : list A) : list B :=
  match xs with
  | [] => []
  | x :: xs' => f x i :: mapi_from (S i) f xs'
  end.

Definition mapi {A B} (f : A -> nat -> B) (xs : list A) : list B :=
  mapi_from 0 f xs.

Definition numbered (xs : list string) : list string :=
  mapi (fun x i => "  " ++ show_nat (i + 1) ++ ". " ++ x) xs.

(** What [run] has gathered when it starts writing the report. *)
Record Plan := mkPlan {
  initialQuery : string;
  plan_breadth : Z;
  plan_depth : Z;
  refinement : Z;
  questions : list string;
  answers : list string;
  combinedQuery : string
}.

Definition metadata_text (p : Plan) (r : ResearchResult) (steps : list string)
  : string :=
  "

# Research Metadata

  - Initial Query: " ++ initialQuery p ++ "
  - Breadth: " ++ show_Z (plan_breadth p) ++ "
  - Depth: " ++ show_Z (plan_depth p) ++ "
  - Follow-up Questions and Answers:
  " ++ join "
" (mapi (fun q i => "  - Q: " ++ q ++ "
    A: " ++ nth i (answers p) "undefined") (questions p)) ++ "
  - Research Plan (" ++ show_nat (length (queries r)) ++ "):
  " ++ join "
" (map (fun q => "  - " ++ researchGoal q ++ " (" ++ query q ++ ")") (queries r)) ++ "
  - Learnings (" ++ show_nat (length (learnings r)) ++ "):
  " ++ join "
" (numbered (learnings r)) ++ "
  - Visited URLs (" ++ show_nat (length (visitedUrls r)) ++ "):
  " ++ join "
" (numbered (visitedUrls r)) ++ "

  # Refinement Steps
  " ++ join "

" (numbered steps) ++ "
  ".

Section Run.

Context {W : Type} {svc : Services W}.

Definition fs_exists (path : string) : M W bool := fun w =>
  Out (Ok (existsSync path w)) w [ExistsSync path].

Definition output_path (fileName : string) : string :=
  "output/" ++ fileName ++ ".md".

(** The [while (fsSync.existsSync(...))] loop.  [text] is [report + metadata];
    [fuel] bounds the iterations (the loop leaves by [i > 100] first). *)
Fixpoint save_loop (fuel : nat) (originalFileName fileName : string) (i : nat)
    (text : string) : M W string :=
  taken <- fs_exists (output_path fileName) ;;
  if (taken : bool) then
    let fileName' := originalFileName ++ "-" ++ show_nat i in
    let i' := S i in
    if (100 <? i')%nat then
      console_log (LogText text) ;;
      console_error (LogText "Error: Could not save report. Please try again.") ;;
      exit 1
    else
      match fuel with
      | O => out_of_fuel
      | S fuel' => save_loop fuel' originalFileName fileName' i' text
      end
  else ret fileName.

(** From [let originalFileName = fileName] to the end of [run]. *)
Definition saveReport (fileName report metadata : string) : M W unit :=
  name <- save_loop 100 fileName fileName 1 (report ++ metadata) ;;
  perform (FileWrite (output_path name) (report ++ metadata))
          (fs_writeFile (output_path name) (report ++ metadata)) ;;
  console_log (LogText ("

Final Report:

" ++ report)) ;;
  console_log (LogText ("
Report has been saved to " ++ name ++ ".md")) ;;
  emit CloseInput.

(** [steps.map(...)] inside the metadata template. *)
Definition steps_map (steps : jsval) : M W (list string) :=
  match steps with
  | JsStrings xs => ret xs
  | JsUndefined =>
      throw (mkExn (Some "Cannot read properties of undefined (reading 'map')"))
  | _ => throw (mkExn (Some "steps.map is not a function"))
  end.

(** [run] from [console.log('Writing final report...')] on. *)
Definition run_finish (p : Plan) (r : ResearchResult) : M W unit :=
  console_log (LogText "Writing final report...") ;;
  returned <- writeFinalReport (combinedQuery p) (learnings r) (visitedUrls r)
                (refinement p) ;;
  let steps := get_property (JsString returned) "steps" in
  let report := get_property (JsString returned) "report" in
  stepList <- steps_map steps ;;
  let metadata := metadata_text p r stepList in
  fileName <- generateFileName (combinedQuery p) ;;
  outputDir <- fs_exists "output" ;;
  (if (outputDir : bool) then ret tt
   else perform (Mkdir "output") (fs_mkdir "output")) ;;
  saveReport fileName (js_to_string report) metadata.

End Run.

(** ** Reading a trace *)

(** The waits of a trace, in order. *)
Fixpoint sleeps (tr : list event) : list Z :=
  match tr with
  | [] => []
  | Sleep ms :: tr' => ms :: sleeps tr'
  | _ :: tr' => sleeps tr'
  end.

(** The delays announced by [Retrying query: ... in ...ms...], in order. *)
Fixpoint retry_delays (tr : list event) : list Z :=
  match tr with
  | [] => []
  | ConsoleLog (LogRetrying _ ms) :: tr' => ms :: retry_delays tr'
  | _ :: tr' => retry_delays tr'
  end.

Definition is_search (ev : event) : bool :=
  match ev with SearchCall _ => true | _ => false end.

Definition is_expansion (ev : event) : bool :=
  match ev with Generate (SerpQueriesPrompt _ _ _) => true | _ => false end.

Definition is_distillation (ev : event) : bool :=
  match ev with Generate (LearningsPrompt _ _ _ _) => true | _ => false end.

Definition is_file_write (ev : event) : bool :=
  match ev with FileWrite _ _ => true | _ => false end.

Definition count (p : event -> bool) (tr : list event) : nat :=
  length (filter p tr).

(** The numbers of sub-queries requested by the expansions of a trace. *)
Fixpoint expansion_breadths (tr : list event) : list Z :=
  match tr with
  | [] => []
  | Generate (SerpQueriesPrompt _ n _) :: tr' => n :: expansion_breadths tr'
  | _ :: tr' => expansion_breadths tr'
  end.

(** ** A scripted world for concrete runs *)

(** The state counts the calls made to the search service and lists the
    paths that exist; every answer is a function of the request (and, for a
    search, of the number of earlier searches). *)
Record TestWorld := mkTestWorld {
  searches_made : nat;
  files : list string
}.

Record Script := mkScript {
  on_search : string -> nat -> exn + SearchResponse;
  on_queries : prompt -> exn + list SerpQuery;
  on_learnings : prompt -> exn + Distilled;
  on_text : prompt -> exn + string;
  on_questions : prompt -> exn + list string
}.

Definition scripted (sc : Script) : Services TestWorld := {|
  firecrawl_search q w :=
    (on_search sc q (searches_made w),
     mkTestWorld (S (searches_made w)) (files w));
  generateObject_queries p w := (on_queries sc p, w);
  generateObject_learnings p w := (on_learnings sc p, w);
  generateObject_text p w := (on_text sc p, w);
  generateObject_questions p w := (on_questions sc p, w);
  trimPrompt s _ := s;
  trim s := s;
  slugify s := s;
  existsSync path w := existsb (String.eqb path) (files w);
  fs_mkdir path w := (inr tt, mkTestWorld (searches_made w) (path :: files w));
  fs_writeFile path _ w :=
    (inr tt, mkTestWorld (searches_made w) (path :: files w))
|}.

Definition world0 : TestWorld := mkTestWorld 0 [].

(** ** Vocabulary of the statements *)

(** The geometric sequence [b, 2b, 4b, ...] of [m] delays. *)
Definition doubling (b : Z) (m : nat) : list Z :=
  map (fun k => b * 2 ^ Z.of_nat k) (seq 0 m).

(** The waits of a run with [m] retries: before every attempt the fixed
    [INITIAL_BACKOFF], after each of the first [m] attempts the current
    backoff. *)
Definition waits (b : Z) (m : nat) : list Z :=
  (flat_map (fun k => [INITIAL_BACKOFF; b * 2 ^ Z.of_nat k]) (seq 0 m)
   ++ [INITIAL_BACKOFF])%list.

Definition result_map {A B} (f : A -> B) (r : result A) : result B :=
  match r with
  | Ok a => Ok (f a)
  | Throw e => Throw e
  | Exited c => Exited c
  | OutOfFuel => OutOfFuel
  end.

(** A computation that settles: it returns or throws; it neither leaves
    the process nor runs out of fuel. *)
Definition settles {W A} (o : outcome W A) : Prop :=
  (exists a, res o = Ok a) \/ (exists e, res o = Throw e).

Section Assumptions.

Context {W : Type} {svc : Services W}.

(** Every world makes the search of [q] fail. *)
Definition search_always_fails (q : string) : Prop :=
  forall w : W, exists e w', firecrawl_search q w = (inl e, w').

(** Every world makes the search of [q] return. *)
Definition search_always_returns (q : string) : Prop :=
  forall w : W, exists r w', firecrawl_search q w = (inr r, w').

(** Retrieval of [q], retries included, fails in every world. *)
Definition retrieval_always_fails (q : string) : Prop :=
  forall w : W, exists e,
    res (firecrawlSearchWithRetry q MAX_RETRIES w) = Throw e.

(** The error line a branch prints when it catches [e]. *)
Definition caught (sq : SerpQuery) (e : exn) : event :=
  ConsoleError (query_error_line (query sq) e).

End Assumptions.

(** A script whose searches all fail with a timeout, and whose other
    services return fixed answers. *)
Definition timeout_error : exn := mkExn (Some "Timeout of 15000ms exceeded").

Definition failing_search : Script := {|
  on_search _ _ := inl timeout_error;
  on_queries _ := inr [mkSerpQuery "q1" "g1"; mkSerpQuery "q2" "g2"];
  on_learnings _ := inr (mkDistilled ["L"] ["f"]);
  on_text _ := inr "text";
  on_questions _ := inr ["x"]
|}.

(** A script whose expansion returns no sub-query. *)
Definition no_subqueries : Script := {|
  on_search _ _ := inr (mkSearchResponse []);
  on_queries _ := inr [];
  on_learnings _ := inr (mkDistilled [] []);
  on_text _ := inr "text";
  on_questions _ := inr []
|}.

(** A script in which two sibling branches retrieve the same URL and
    distil the same learning. *)
Definition same_page : Script := {|
  on_search _ _ :=
    inr (mkSearchResponse
           [mkSearchItem (Some "http://a") (Some "page");
            mkSearchItem None (Some "no address");
            mkSearchItem (Some "http://a") None]);
  on_queries _ := inr [mkSerpQuery "q1" "g1"; mkSerpQuery "q2" "g2"];
  on_learnings _ := inr (mkDistilled ["L"] ["f"]);
  on_text _ := inr "text";
  on_questions _ := inr ["x"]
|}.

(** The budgets announced by [Researching deeper, breadth: ..., depth: ...]. *)
Fixpoint deeper_budgets (tr : list event) : list (Z * Z) :=
  match tr with
  | [] => []
  | ConsoleLog (LogResearchingDeeper b d) :: tr' => (b, d) :: deeper_budgets tr'
  | _ :: tr' => deeper_budgets tr'
  end.

(** A script whose expansion returns one sub-query and whose searches and
    distillations return. *)
Definition one_path : Script := {|
  on_search _ _ := inr (mkSearchResponse [mkSearchItem (Some "http://a") (Some "page")]);
  on_queries _ := inr [mkSerpQuery "q1" "g1"];
  on_learnings _ := inr (mkDistilled ["L"] ["f"]);
  on_text _ := inr "text";
  on_questions _ := inr ["x"]
|}.

Section MoreAssumptions.

Context {W : Type} {svc : Services W}.

(** Every world makes every distillation request return. *)
Definition distillation_always_returns : Prop :=
  forall (p : prompt) (w : W),
    exists d w', generateObject_learnings p w = (inr d, w').

End MoreAssumptions.

(** A script whose distillation throws while its searches return. *)
Definition generation_error : exn := mkExn (Some "No object generated").

Definition page_a : SearchResponse :=
  mkSearchResponse [mkSearchItem (Some "http://a") (Some "page")].

Definition failing_distillation : Script := {|
  on_search _ _ := inr page_a;
  on_queries _ := inr [mkSerpQuery "q1" "g1"];
  on_learnings _ := inl generation_error;
  on_text _ := inr "text";
  on_questions _ := inr ["x"]
|}.

(** A script whose expansion throws. *)
Definition failing_expansion : Script := {|
  on_search _ _ := inr page_a;
  on_queries _ := inl generation_error;
  on_learnings _ := inr (mkDistilled ["L"] ["f"]);
  on_text _ := inr "text";
  on_questions _ := inr ["x"]
|}.

(** A script for whole reports: every search returns one page at [u]; the
    draft is ["draft"] and each revision appends [" (revised)"]. *)
Definition reporting (u : string) : Script := {|
  on_search _ _ := inr (mkSearchResponse [mkSearchItem (Some u) (Some "page")]);
  on_queries _ := inr [mkSerpQuery "q1" "g1"];
  on_learnings _ := inr (mkDistilled ["L"] ["f"]);
  on_text p :=
    match p with
    | ReportPrompt _ _ => inr "draft"
    | CriticismPrompt _ => inr "criticism"
    | RevisionPrompt r _ => inr (r ++ " (revised)")
    | FileNamePrompt _ => inr "report"
    | _ => inl generation_error
    end;
  on_questions _ := inr ["x"]
|}.

Definition is_generate (ev : event) : bool :=
  match ev with Generate _ => true | _ => false end.

Definition is_visited_line (ev : event) : bool :=
  match ev with ConsoleLog (LogNewVisitedUrls _ _) => true | _ => false end.

Definition plan0 : Plan :=
  mkPlan "topic" 4 2 2 ["why?"] ["because"] "
Initial Query: topic
Follow-up Questions and Answers:
Q: why?
A: because
".

(** The [k]-th file name the save loop tries: the generated name, then the
    name with the suffixes [-1], [-2], ... *)
Definition candidate (originalFileName : string) (k : nat) : string :=
  match k with
  | O => originalFileName
  | S _ => originalFileName ++ "-" ++ show_nat k
  end.

(** The existence checks of the candidates [from], ..., [from + n - 1]. *)
Definition checks (originalFileName : string) (from n : nat) : list event :=
  map (fun k => ExistsSync (output_path (candidate originalFileName k)))
      (seq from n).

(** A world in which [output/report.md] and its first [n - 1] suffixed
    variants exist. *)
Definition crowded (n : nat) : TestWorld :=
  mkTestWorld 0 (map (fun k => output_path (candidate "report" k)) (seq 0 n)).

(** ** Vocabulary of the further properties *)

(** The events a research run may produce: waits, searches, the two
    requests of the orchestrator and console lines. *)
Definition research_event (ev : event) : Prop :=
  match ev with
  | Sleep _ | SearchCall _ | ConsoleLog _ | ConsoleError _ => True
  | Generate (SerpQueriesPrompt _ _ _) => True
  | Generate (LearningsPrompt _ _ _ _) => True
  | _ => False
  end.

(** [breadth] halved (rounding up) [k] times. *)
Definition halved (k : nat) (breadth : Z) : Z := Nat.iter k newBreadth breadth.

(** What a run started with the budget [(breadth, depth)] may ask for and
    announce: an expansion at nesting [k] asks for [breadth] halved [k]
    times, with [k] below the depth (or [k = 0]); an announced budget is the
    one of a nesting [k >= 1], with a positive depth left. *)
Definition within_budget (breadth depth : Z) (ev : event) : Prop :=
  match ev with
  | Generate (SerpQueriesPrompt _ n _) =>
      exists k : nat, Z.of_nat k < Z.max 1 depth /\ n = halved k breadth
  | ConsoleLog (LogResearchingDeeper b d) =>
      exists k : nat,
        (1 <= k)%nat /\ b = halved k breadth /\ d = depth - Z.of_nat k /\ 0 < d
  | _ => True
  end.

Definition is_criticism (ev : event) : bool :=
  match ev with Generate (CriticismPrompt _) => true | _ => false end.

Definition is_questions (ev : event) : bool :=
  match ev with Generate (QuestionsPrompt _ _) => true | _ => false end.

Definition is_revision (ev : event) : bool :=
  match ev with Generate (RevisionPrompt _ _) => true | _ => false end.

Definition is_report (ev : event) : bool :=
  match ev with Generate (ReportPrompt _ _) => true | _ => false end.

Section Provenance.

Context {W : Type} {svc : Services W}.




End Provenance.

(** A result that has learnings has all of [ls] among them, and one that
    has URLs has all of [urls] among them. *)
Definition kept (ls urls : list string) (r : ResearchResult) : Prop :=
  (learnings r <> [] -> incl ls (learnings r)) /\
  (visitedUrls r <> [] -> incl urls (visitedUrls r)).


Section RetryVocabulary.

Context {W : Type} {svc : Services W}.

(** From the world [w], the next [k] searches of [q] fail and the one after
    returns [r], leaving the world [w_end]. *)
Fixpoint fails_then_returns (k : nat) (q : string) (w : W)
    (r : SearchResponse) (w_end : W) : Prop :=
  match k with
  | O => firecrawl_search q w = (inr r, w_end)
  | S k' =>
      exists e w1,
        firecrawl_search q w = (inl e, w1) /\
        fails_then_returns k' q w1 r w_end
  end.

(** From the world [w], the next [n >= 1] searches of [q] all fail, the
    last one with [e], leaving the world [w_end]. *)
Fixpoint all_fail (n : nat) (q : string) (w : W) (e : exn) (w_end : W)
  : Prop :=
  match n with
  | O => False
  | S O => firecrawl_search q w = (inl e, w_end)
  | S n' =>
      exists e1 w1,
        firecrawl_search q w = (inl e1, w1) /\ all_fail n' q w1 e w_end
  end.

End RetryVocabulary.

(** The time a trace spends waiting, in milliseconds. *)
Definition total_wait (tr : list event) : Z := fold_right Z.add 0 (sleeps tr).

(** A script whose first two searches fail and whose later ones return. *)
Definition flaky_search : Script := {|
  on_search _ n := if (n <? 2)%nat then inl timeout_error else inr page_a;
  on_queries _ := inr [mkSerpQuery "q1" "g1"];
  on_learnings _ := inr (mkDistilled ["L"] ["f"]);
  on_text _ := inr "text";
  on_questions _ := inr ["x"]
|}.

(** The numbers of criticism, question, revision and report requests of a
    trace. *)
Definition request_counts (tr : list event) : nat * nat * nat * nat :=
  (count is_criticism tr, count is_questions tr, count is_revision tr,
   count is_report tr).

Definition is_exists_check (ev : event) : bool :=
  match ev with ExistsSync _ => true | _ => false end.

(** An upper bound on how often a run does something of which an
    expansion does at most [ke], a retrieval at most [kr] and a distillation
    at most [kd]: a level expands once and has at most [breadth] branches,
    each retrieving and distilling once and, while levels are left,
    running the next level with the halved breadth. *)
Fixpoint cost (ke kr kd : nat) (levels : nat) (breadth : Z) : nat :=
  ke + Z.to_nat breadth *
       (kr + kd + match levels with
                  | O => 0
                  | S n => cost ke kr kd n (newBreadth breadth)
                  end).

(** ** [slugify], on UTF-16 code units

    The regular expressions of [slugify] work on the code units of a
    JavaScript string, so here a string is the list of its code units.
    [normalize('NFD')] needs the Unicode decomposition tables and is a
    parameter. *)

Definition ustring := list N.

(** The code units of a string of ASCII characters. *)
Definition units_of_string (s : string) : ustring :=
  map N_of_ascii (list_ascii_of_string s).

(** White space and line terminators, as [trim] and [parseInt] see them:
    TAB, LF, VT, FF, CR, SP, NBSP, U+1680, U+2000 to U+200A, U+2028, U+2029,
    U+202F, U+205F, U+3000 and U+FEFF. *)
Definition is_white_space (c : N) : bool :=
  ((9 <=? c) && (c <=? 13) || (c =? 32) || (c =? 160) || (c =? 5760)
   || (8192 <=? c) && (c <=? 8202) || (c =? 8232) || (c =? 8233)
   || (c =? 8239) || (c =? 8287) || (c =? 12288) || (c =? 65279))%N.

Fixpoint drop_leading (p : N -> bool) (s : ustring) : ustring :=
  match s with
  | [] => []
  | c :: s' => if p c then drop_leading p s' else s
  end.

Fixpoint drop_trailing (p : N -> bool) (s : ustring) : ustring :=
  match s with
  | [] => []
  | c :: s' =>
      match drop_trailing p s' with
      | [] => if p c then [] else [c]
      | t => c :: t
      end
  end.

(** [s.trim()] *)
Definition trim_units (s : ustring) : ustring :=
  drop_trailing is_white_space (drop_leading is_white_space s).

Definition hyphen : N := 45.
Definition is_hyphen (c : N) : bool := (c =? hyphen)%N.
Definition is_digit (c : N) : bool := ((48 <=? c) && (c <=? 57))%N.
Definition is_upper (c : N) : bool := ((65 <=? c) && (c <=? 90))%N.
Definition is_lower (c : N) : bool := ((97 <=? c) && (c <=? 122))%N.

(** The class [[a-z0-9]] under the [i] flag of a non-Unicode regular
    expression: only the ASCII letters fold to ASCII letters. *)
Definition is_alnum (c : N) : bool := is_digit c || is_upper c || is_lower c.

(** The class [[a-z0-9-]]. *)
Definition is_slug_unit (c : N) : bool := is_lower c || is_digit c || is_hyphen c.

(** The class of the combining marks U+0300 to U+036F. *)
Definition is_mark (c : N) : bool := ((768 <=? c) && (c <=? 879))%N.

(** [.replace(/[^a-z0-9]+/gi, '-')]: every maximal run of other units
    becomes one hyphen; [in_run] tells that the run has begun. *)
Fixpoint collapse (in_run : bool) (s : ustring) : ustring :=
  match s with
  | [] => []
  | c :: s' =>
      if is_alnum c then c :: collapse false s'
      else if in_run then collapse true s'
      else hyphen :: collapse true s'
  end.

(** [toLowerCase] on the strings it is applied to here, which hold ASCII
    letters, digits and hyphens only. *)
Definition to_lower (c : N) : N := if is_upper c then (c + 32)%N else c.

Definition slugify_text (normalizeNFD : ustring -> ustring)
    (lower strict : bool) (text : ustring) : ustring :=
  let slug :=
    drop_trailing is_hyphen
      (drop_leading is_hyphen
         (collapse false
            (filter (fun c => negb (is_mark c))
                    (normalizeNFD (trim_units text))))) in
  let slug := if lower then map to_lower slug else slug in
  if strict then filter is_slug_unit slug else slug.

(** No two hyphens next to each other. *)
Fixpoint no_double_hyphen (s : ustring) : Prop :=
  match s with
  | c :: (c' :: _) as t => ~ (c = hyphen /\ c' = hyphen) /\ no_double_hyphen t
  | _ => True
  end.

(** A slug: lower-case ASCII letters, digits and single hyphens, with no
    hyphen at either end. *)
Definition is_slug (s : ustring) : Prop :=
  Forall (fun c => is_slug_unit c = true) s /\
  hd 0%N s <> hyphen /\ last s 0%N <> hyphen /\ no_double_hyphen s.

(** A string of ASCII letters, digits and single hyphens. *)
Definition hyphenated (s : ustring) : Prop :=
  Forall (fun c => is_alnum c = true \/ c = hyphen) s /\ no_double_hyphen s.

(** ** [askQuestion], on the lines the terminal delivers *)

Inductive ExitCondition := newline | blank | control.

Definition exit_word : ustring := units_of_string "exit".

Definition ustring_eqb (s t : ustring) : bool :=
  if list_eq_dec N.eq_dec s t then true else false.

(** One call of [handleLine]: either the promise is resolved with an
    answer (and the listener removed), or the line is added to [input]. *)
Definition handleLine (exitCondition : ExitCondition) (input line : ustring)
  : ustring + ustring :=
  match exitCondition with
  | newline => inl (trim_units line)
  | blank =>
      if ustring_eqb (trim_units line) [] then inl (trim_units input)
      else inr (input ++ line ++ [10%N])%list
  | control =>
      if ustring_eqb (trim_units line) exit_word then inl (trim_units input)
      else inr (input ++ line ++ [10%N])%list
  end.

(** The listener over the lines that arrive: the answer and the lines that
    arrived after it, or nothing while the promise is pending. *)
Fixpoint listen (exitCondition : ExitCondition) (input : ustring)
    (lines : list ustring) : option (ustring * list ustring) :=
  match lines with
  | [] => None
  | line :: rest =>
      match handleLine exitCondition input line with
      | inl answer => Some (answer, rest)
      | inr input' => listen exitCondition input' rest
      end
  end.

Definition askQuestion (exitCondition : ExitCondition) (lines : list ustring)
  : option (ustring * list ustring) :=
  listen exitCondition [] lines.

(** The line that ends the input in each mode. *)
Definition ends_input (exitCondition : ExitCondition) (line : ustring) : bool :=
  match exitCondition with
  | newline => true
  | blank => ustring_eqb (trim_units line) []
  | control => ustring_eqb (trim_units line) exit_word
  end.
(** * Properties *)

(** ** Traces of sequenced computations *)

Lemma sleeps_app (t1 t2 : list event) :
  sleeps (t1 ++ t2) = (sleeps t1 ++ sleeps t2)%list.
Proof.
  induction t1 as [|ev t1 IH]; simpl; [reflexivity|].
  destruct ev; simpl; rewrite IH; reflexivity.
Qed.

Lemma retry_delays_app (t1 t2 : list event) :
  retry_delays (t1 ++ t2) = (retry_delays t1 ++ retry_delays t2)%list.
Proof.
  induction t1 as [|ev t1 IH]; simpl; [reflexivity|].
  destruct ev as [| | |l| | | | | |]; simpl; rewrite ?IH; try reflexivity.
  destruct l; simpl; rewrite ?IH; reflexivity.
Qed.

Lemma expansion_breadths_app (t1 t2 : list event) :
  expansion_breadths (t1 ++ t2)
  = (expansion_breadths t1 ++ expansion_breadths t2)%list.
Proof.
  induction t1 as [|ev t1 IH]; simpl; [reflexivity|].
  destruct ev as [| |p| | | | | | |]; simpl; rewrite ?IH; try reflexivity.
  destruct p; simpl; rewrite ?IH; reflexivity.
Qed.

Lemma count_app (p : event -> bool) (t1 t2 : list event) :
  count p (t1 ++ t2) = (count p t1 + count p t2)%nat.
Proof. unfold count. rewrite filter_app, length_app. reflexivity. Qed.

Lemma doubling_succ (b : Z) (m : nat) :
  doubling b (S m) = b :: doubling (b * 2) m.
Proof.
  unfold doubling. simpl. rewrite Z.mul_1_r. f_equal.
  rewrite <- seq_shift, map_map. apply map_ext. intros k.
  rewrite Nat2Z.inj_succ, Z.pow_succ_r by lia. ring.
Qed.

Lemma waits_succ (b : Z) (m : nat) :
  waits b (S m) = INITIAL_BACKOFF :: b :: waits (b * 2) m.
Proof.
  unfold waits. simpl. rewrite Z.mul_1_r. do 2 f_equal.
  rewrite <- seq_shift. f_equal.
  rewrite flat_map_concat_map, map_map, <- flat_map_concat_map.
  apply flat_map_ext. intros k.
  rewrite Nat2Z.inj_succ, Z.pow_succ_r by lia.
  do 2 f_equal. ring.
Qed.

Section RetryProperties.

Context {W : Type} {svc : Services W}.

Lemma retry_loop_returns (q : string) (n : nat) (b : Z) (w w' : W)
    (r : SearchResponse) :
  firecrawl_search q w = (inr r, w') ->
  retry_loop (S n) q b w
  = Out (Ok r) w' [Sleep INITIAL_BACKOFF; SearchCall q].
Proof.
  intros H. cbn -[INITIAL_BACKOFF].
  unfold try_catch, bind, sleep, emit, perform. cbn -[INITIAL_BACKOFF].
  rewrite H. reflexivity.
Qed.

Lemma retry_loop_gives_up (q : string) (b : Z) (w w' : W) (e : exn) :
  firecrawl_search q w = (inl e, w') ->
  retry_loop 1 q b w
  = Out (Throw e) w'
      [Sleep INITIAL_BACKOFF; SearchCall q;
       ConsoleError (query_error_line q e)].
Proof.
  intros H. cbn -[INITIAL_BACKOFF].
  unfold try_catch, bind, sleep, emit, perform. cbn -[INITIAL_BACKOFF].
  rewrite H. reflexivity.
Qed.

Lemma retry_loop_retries (q : string) (n : nat) (b : Z) (w w' : W) (e : exn) :
  firecrawl_search q w = (inl e, w') ->
  retry_loop (S (S n)) q b w
  = let o := retry_loop (S n) q (b * 2) w' in
    Out (res o) (after o)
      ([Sleep INITIAL_BACKOFF; SearchCall q;
        ConsoleError (query_error_line q e);
        ConsoleLog (LogRetrying q b); Sleep b] ++ out o).
Proof.
  intros H.
  change (retry_loop (S (S n)) q b w) with
    (try_catch
       (sleep INITIAL_BACKOFF ;; perform (SearchCall q) (firecrawl_search q))
       (fun e => log_query_error q e ;;
                 console_log (LogRetrying q b) ;; sleep b ;;
                 retry_loop (S n) q (b * 2)) w).
  unfold try_catch, bind, sleep, emit, perform, log_query_error,
    console_log, console_error, emit. cbn -[INITIAL_BACKOFF retry_loop].
  rewrite H. cbn -[INITIAL_BACKOFF retry_loop].
  destruct (res (retry_loop (S n) q (b * 2) w')); reflexivity.
Qed.

Lemma retry_loop_trace (q : string) (n : nat) :
  forall (b : Z) (w : W),
    let o := retry_loop (S n) q b w in
    exists m rest,
      (m <= n)%nat /\
      out o = Sleep INITIAL_BACKOFF :: SearchCall q :: rest /\
      retry_delays (out o) = doubling b m /\
      sleeps (out o) = waits b m /\
      count is_search (out o) = S m /\
      (forall e, res o = Throw e -> m = n) /\
      (search_always_fails q -> exists e, res o = Throw e).
Proof.
  induction n as [|n IH]; intros b w o; subst o.
  - exists 0%nat.
    destruct (firecrawl_search q w) as [[e|r] w1] eqn:Hs.
    + erewrite retry_loop_gives_up by exact Hs. eexists.
      repeat split; try reflexivity.
      intros _. exists e. reflexivity.
    + erewrite retry_loop_returns by exact Hs. eexists.
      repeat split; try reflexivity; try discriminate.
      intros H. destruct (H w) as (e' & w' & Hs'). congruence.
  - destruct (firecrawl_search q w) as [[e|r] w1] eqn:Hs.
    + erewrite retry_loop_retries by exact Hs.
      destruct (IH (b * 2) w1) as (m & rest & Hm & Ho & Hd & Hw & Hc & Ht & Hf).
      exists (S m). eexists. cbn -[INITIAL_BACKOFF retry_loop doubling waits].
      repeat split.
      * lia.
      * rewrite Hd, doubling_succ. reflexivity.
      * rewrite Hw, waits_succ. reflexivity.
      * unfold count in *. cbn -[retry_loop]. rewrite Hc. reflexivity.
      * intros e' He'. f_equal. eapply Ht; eassumption.
      * exact Hf.
    + erewrite retry_loop_returns by exact Hs. exists 0%nat. eexists.
      repeat split; try reflexivity; try discriminate; try lia.
      intros H. destruct (H w) as (e' & w' & Hs'). congruence.
Qed.

(** C6.  Retry-wrapped retrieval, for any number [retries >= 1] of allowed
    attempts (the program uses [MAX_RETRIES = 5]) and in any world.  The call
    first waits [INITIAL_BACKOFF] and then searches.  If [m] is the number of
    retries it makes, then [m <= retries - 1]; the delays it announces and
    waits between attempts are [INITIAL_BACKOFF * 2^k] for [k = 0 .. m-1],
    each the double of the one before, starting at the initial value; all its
    waits are these delays interleaved with the fixed [INITIAL_BACKOFF] wait
    that precedes every attempt; it makes [m + 1] searches.  It raises only
    after all [retries - 1] backoff delays, and it does raise when every
    search fails. *)
Theorem firecrawlSearchWithRetry_backoff (q : string) (retries : nat) (w : W) :
  (1 <= retries)%nat ->
  let o := firecrawlSearchWithRetry q retries w in
  exists m rest,
    (m <= retries - 1)%nat /\
    out o = Sleep INITIAL_BACKOFF :: SearchCall q :: rest /\
    retry_delays (out o) = doubling INITIAL_BACKOFF m /\
    sleeps (out o) = waits INITIAL_BACKOFF m /\
    count is_search (out o) = S m /\
    (forall e, res o = Throw e -> m = (retries - 1)%nat) /\
    (search_always_fails q -> exists e, res o = Throw e).
Proof.
  intros Hr. destruct retries as [|n]; [lia|].
  unfold firecrawlSearchWithRetry.
  replace (S n - 1)%nat with n by lia.
  apply retry_loop_trace.
Qed.

End RetryProperties.

Lemma failing_search_always_fails (q : string) :
  @search_always_fails _ (scripted failing_search) q.
Proof. intros w. eexists. eexists. reflexivity. Defined.

Lemma firecrawlSearchWithRetry_backoff_witness :
  (1 <= MAX_RETRIES)%nat /\
  @search_always_fails _ (scripted failing_search) "q" /\
  let o := @firecrawlSearchWithRetry _ (scripted failing_search)
             "q" MAX_RETRIES world0 in
  res o = Throw timeout_error /\
  retry_delays (out o) = [5000; 10000; 20000; 40000] /\
  sleeps (out o)
  = [5000; 5000; 5000; 10000; 5000; 20000; 5000; 40000; 5000] /\
  count is_search (out o) = 5%nat.
Proof.
  split; [unfold MAX_RETRIES; lia|].
  split; [apply failing_search_always_fails|].
  assert (H1 : (1 <= MAX_RETRIES)%nat) by (unfold MAX_RETRIES; lia).
  destruct (@firecrawlSearchWithRetry_backoff _ (scripted failing_search)
              "q" MAX_RETRIES world0 H1)
    as (m & rest & Hm & Ho & Hd & Hs & Hc & Ht & Hf).
  destruct (Hf (failing_search_always_fails "q")) as (e & He).
  pose proof (Ht e He) as Hm4. subst m.
  split; [reflexivity|].
  split; [exact Hd|].
  split; [exact Hs | exact Hc].
Defined.

(** ** Running sequenced computations *)

Section Running.

Context {W : Type}.

Lemma bind_ok {A B} (m : M W A) (f : A -> M W B) (w : W) (a : A) :
  res (m w) = Ok a ->
  bind m f w
  = Out (res (f a (after (m w)))) (after (f a (after (m w))))
        (out (m w) ++ out (f a (after (m w)))).
Proof. intros H. unfold bind. rewrite H. reflexivity. Qed.

Lemma bind_throw {A B} (m : M W A) (f : A -> M W B) (w : W) (e : exn) :
  res (m w) = Throw e ->
  bind m f w = Out (Throw e) (after (m w)) (out (m w)).
Proof. intros H. unfold bind. rewrite H. reflexivity. Qed.

Lemma try_catch_ok {A} (m : M W A) (h : exn -> M W A) (w : W) (a : A) :
  res (m w) = Ok a -> try_catch m h w = m w.
Proof. intros H. unfold try_catch. rewrite H. reflexivity. Qed.

Lemma try_catch_throw {A} (m : M W A) (h : exn -> M W A) (w : W) (e : exn) :
  res (m w) = Throw e ->
  try_catch m h w
  = Out (res (h e (after (m w)))) (after (h e (after (m w))))
        (out (m w) ++ out (h e (after (m w)))).
Proof. intros H. unfold try_catch. rewrite H. reflexivity. Qed.

Lemma bind_settles {A B} (m : M W A) (f : A -> M W B) (w : W) :
  settles (m w) -> (forall a w', settles (f a w')) -> settles (bind m f w).
Proof.
  intros [[a Ha]|[e He]] Hf.
  - rewrite (bind_ok _ _ _ Ha). destruct (Hf a (after (m w))) as [[b Hb]|[e He]].
    + left. exists b. exact Hb.
    + right. exists e. exact He.
  - rewrite (bind_throw _ _ _ He). right. exists e. reflexivity.
Qed.

Lemma try_catch_settles {A} (m : M W A) (h : exn -> M W A) (w : W) :
  settles (m w) -> (forall e w', settles (h e w')) -> settles (try_catch m h w).
Proof.
  intros [[a Ha]|[e He]] Hh.
  - rewrite (try_catch_ok _ _ _ Ha). left. exists a. exact Ha.
  - rewrite (try_catch_throw _ _ _ He).
    destruct (Hh e (after (m w))) as [[b Hb]|[e' He']].
    + left. exists b. exact Hb.
    + right. exists e'. exact He'.
Qed.

Lemma ret_settles {A} (a : A) (w : W) : settles (ret a w).
Proof. left. exists a. reflexivity. Qed.

Lemma throw_settles {A} (e : exn) (w : W) : settles (@throw W A e w).
Proof. right. exists e. reflexivity. Qed.

Lemma emit_settles (ev : event) (w : W) : settles (emit ev w).
Proof. left. exists tt. reflexivity. Qed.

Lemma perform_settles {A} (ev : event) (f : W -> (exn + A) * W) (w : W) :
  settles (perform ev f w).
Proof.
  unfold perform. destruct (f w) as [[e|a] w'].
  - right. exists e. reflexivity.
  - left. exists a. reflexivity.
Qed.

Lemma all_limit1_settles {A B} (f : A -> M W B) (xs : list A) :
  (forall x w, settles (f x w)) -> forall w, settles (all_limit1 f xs w).
Proof.
  intros Hf. induction xs as [|x xs IH]; intros w; simpl.
  - apply ret_settles.
  - apply bind_settles; [apply Hf|]. intros y w'.
    apply bind_settles; [apply IH|]. intros ys w''. apply ret_settles.
Qed.

End Running.

(** ** One branch of the orchestrator *)

Section BranchProperties.

Context {W : Type} {svc : Services W}.

Variable self : Call -> M W ResearchResult.
Variables (serpQueries : list SerpQuery) (breadth depth : Z).
Variables (ls urls : list string) (serpQuery : SerpQuery).

Let retrieval := firecrawlSearchWithRetry (query serpQuery) MAX_RETRIES.
Let distillation (result : SearchResponse) :=
  processSerpResult (query serpQuery) result 3 (newBreadth breadth).
Let branch := researchBranch self serpQueries breadth depth ls urls serpQuery.

Lemma branch_of_try_throw (w w1 : W) (t1 : list event) (e : exn) :
  branch_try serpQueries breadth depth ls urls serpQuery w
  = Out (Throw e) w1 t1 ->
  branch w = Out (Ok emptyResult) w1 (t1 ++ [caught serpQuery e]).
Proof.
  intros H. unfold branch, researchBranch, bind, try_catch.
  rewrite H. cbn. rewrite app_nil_r. reflexivity.
Qed.

Lemma branch_of_try_value (w w1 : W) (t1 : list event) (v : ResearchResult) :
  branch_try serpQueries breadth depth ls urls serpQuery w
  = Out (Ok (inl v)) w1 t1 ->
  branch w = Out (Ok v) w1 t1.
Proof.
  intros H. unfold branch, researchBranch, bind, try_catch.
  rewrite H. cbn. rewrite app_nil_r. reflexivity.
Qed.

Lemma branch_of_try_call (w w1 : W) (t1 : list event) (c : Call) :
  branch_try serpQueries breadth depth ls urls serpQuery w
  = Out (Ok (inr c)) w1 t1 ->
  branch w = Out (res (self c w1)) (after (self c w1)) (t1 ++ out (self c w1)).
Proof.
  intros H. unfold branch, researchBranch, bind, try_catch.
  rewrite H. reflexivity.
Qed.

Lemma branch_retrieval_throws (w : W) (e : exn) :
  res (retrieval w) = Throw e ->
  branch w
  = Out (Ok emptyResult) (after (retrieval w))
        (out (retrieval w) ++ [caught serpQuery e]).
Proof.
  intros H. apply branch_of_try_throw.
  unfold branch_try. apply bind_throw. exact H.
Qed.

Lemma branch_distillation_throws (w : W) (result : SearchResponse) (e : exn) :
  res (retrieval w) = Ok result ->
  res (distillation result (after (retrieval w))) = Throw e ->
  let o := distillation result (after (retrieval w)) in
  branch w
  = Out (Ok emptyResult) (after o)
        ((out (retrieval w) ++ out o) ++ [caught serpQuery e]).
Proof.
  intros H1 H2 o. apply branch_of_try_throw.
  unfold branch_try. erewrite bind_ok by exact H1.
  erewrite bind_throw by exact H2. reflexivity.
Qed.

Lemma branch_decision_run (newUrls : list string) (d : Distilled) (w : W) :
  branch_decision serpQueries breadth depth ls urls serpQuery newUrls d w
  = if newDepth depth >? 0 then
      Out (Ok (inr (mkCall
                 (trim (nextQuery_raw (researchGoal serpQuery)
                                      (followUpQuestions d)))
                 (newBreadth breadth) (newDepth depth)
                 (ls ++ d_learnings d) (urls ++ newUrls))))
          w [ConsoleLog (LogResearchingDeeper (newBreadth breadth)
                                              (newDepth depth))]
    else
      Out (Ok (inl (mkResearchResult (ls ++ d_learnings d) (urls ++ newUrls)
                                     serpQueries)))
          w [].
Proof.
  unfold branch_decision. destruct (newDepth depth >? 0); reflexivity.
Qed.

Lemma branch_stops (w : W) (result : SearchResponse) (d : Distilled) :
  res (retrieval w) = Ok result ->
  res (distillation result (after (retrieval w))) = Ok d ->
  newDepth depth <= 0 ->
  let o := distillation result (after (retrieval w)) in
  branch w
  = Out (Ok (mkResearchResult (ls ++ d_learnings d)
               (urls ++ compact (map url (data result))) serpQueries))
        (after o) (out (retrieval w) ++ out o).
Proof.
  intros H1 H2 Hd o. apply branch_of_try_value.
  unfold branch_try. erewrite bind_ok by exact H1.
  erewrite bind_ok by exact H2. rewrite branch_decision_run.
  replace (newDepth depth >? 0) with false
    by (symmetry; rewrite Z.gtb_ltb; apply Z.ltb_ge; lia).
  cbn. rewrite !app_nil_r. reflexivity.
Qed.

Lemma branch_recurses (w : W) (result : SearchResponse) (d : Distilled) :
  res (retrieval w) = Ok result ->
  res (distillation result (after (retrieval w))) = Ok d ->
  0 < newDepth depth ->
  let o := distillation result (after (retrieval w)) in
  let c := mkCall (trim (nextQuery_raw (researchGoal serpQuery)
                                       (followUpQuestions d)))
             (newBreadth breadth) (newDepth depth)
             (ls ++ d_learnings d)
             (urls ++ compact (map url (data result))) in
  branch w
  = Out (res (self c (after o))) (after (self c (after o)))
        ((out (retrieval w) ++ out o
          ++ [ConsoleLog (LogResearchingDeeper (newBreadth breadth)
                                               (newDepth depth))])
         ++ out (self c (after o))).
Proof.
  intros H1 H2 Hd o c. apply branch_of_try_call.
  unfold branch_try. erewrite bind_ok by exact H1.
  erewrite bind_ok by exact H2. rewrite branch_decision_run.
  replace (newDepth depth >? 0) with true
    by (symmetry; rewrite Z.gtb_ltb; apply Z.ltb_lt; lia).
  reflexivity.
Qed.

End BranchProperties.

(** ** The services of one level *)

Section LevelProperties.

Context {W : Type} {svc : Services W}.

Lemma retry_loop_settles (q : string) (n : nat) :
  forall (b : Z) (w : W), settles (retry_loop n q b w).
Proof.
  induction n as [|n IH]; intros b w.
  - apply throw_settles.
  - cbn [retry_loop]. apply try_catch_settles.
    + apply bind_settles; [apply emit_settles|].
      intros _ w'. apply perform_settles.
    + intros e w'. apply bind_settles; [apply emit_settles|].
      intros _ w''. destruct n as [|n'].
      * apply throw_settles.
      * apply bind_settles; [apply emit_settles|]. intros _ w3.
        apply bind_settles; [apply emit_settles|]. intros _ w4.
        apply IH.
Qed.

Lemma firecrawlSearchWithRetry_settles (q : string) (n : nat) (w : W) :
  settles (firecrawlSearchWithRetry q n w).
Proof. apply retry_loop_settles. Qed.

Lemma search_fails_retrieval_fails (q : string) :
  search_always_fails q -> retrieval_always_fails q.
Proof.
  intros H w. unfold firecrawlSearchWithRetry, MAX_RETRIES.
  destruct (retry_loop_trace q 4 INITIAL_BACKOFF w)
    as (m & rest & _ & _ & _ & _ & _ & _ & Hf).
  exact (Hf H).
Qed.

Lemma generateSerpQueries_run (q : string) (n : Z) (ls : option (list string))
    (w : W) :
  let p := SerpQueriesPrompt q n (option_map (join "
") ls) in
  generateSerpQueries q n ls w
  = match generateObject_queries p w with
    | (inl e, w') => Out (Throw e) w' [Generate p]
    | (inr qs, w') =>
        Out (Ok (slice0 n qs)) w'
            [Generate p; ConsoleLog (LogCreatedQueries (length qs) qs)]
    end.
Proof.
  intros p. unfold generateSerpQueries, bind, perform, console_log, emit, ret.
  fold p. destruct (generateObject_queries p w) as [[e|qs] w']; reflexivity.
Qed.

Lemma generateSerpQueries_settles (q : string) (n : Z)
    (ls : option (list string)) (w : W) :
  settles (generateSerpQueries q n ls w).
Proof.
  rewrite generateSerpQueries_run.
  destruct (generateObject_queries _ w) as [[e|qs] w'].
  - right. exists e. reflexivity.
  - left. eexists. reflexivity.
Qed.

Lemma processSerpResult_settles (q : string) (r : SearchResponse)
    (n1 n2 : Z) (w : W) :
  settles (processSerpResult q r n1 n2 w).
Proof.
  unfold processSerpResult. apply bind_settles; [apply emit_settles|].
  intros _ w1. apply bind_settles; [apply perform_settles|].
  intros d w2. apply bind_settles; [apply emit_settles|].
  intros _ w3. apply ret_settles.
Qed.

(** A distillation makes one call to the inference service, no search and
    no expansion, whether the call returns or throws. *)
Lemma processSerpResult_calls (q : string) (r : SearchResponse)
    (n1 n2 : Z) (w : W) :
  count is_distillation (out (processSerpResult q r n1 n2 w)) = 1%nat /\
  count is_search (out (processSerpResult q r n1 n2 w)) = 0%nat /\
  count is_expansion (out (processSerpResult q r n1 n2 w)) = 0%nat.
Proof.
  unfold processSerpResult, bind, perform, console_log, emit, ret. cbn.
  destruct (generateObject_learnings _ w) as [[e|d] w']; cbn; auto.
Qed.

Lemma all_limit1_cons_ok {A B} (f : A -> M W B) (x : A) (xs : list A)
    (w : W) (y : B) :
  res (f x w) = Ok y ->
  all_limit1 f (x :: xs) w
  = let o := all_limit1 f xs (after (f x w)) in
    Out (result_map (cons y) (res o)) (after o) (out (f x w) ++ out o).
Proof.
  intros H. cbn [all_limit1]. erewrite bind_ok by exact H.
  unfold bind, ret. cbn.
  destruct (res (all_limit1 f xs (after (f x w)))); cbn;
    rewrite ?app_nil_r; reflexivity.
Qed.

Lemma all_limit1_cons_throw {A B} (f : A -> M W B) (x : A) (xs : list A)
    (w : W) (e : exn) :
  res (f x w) = Throw e ->
  all_limit1 f (x :: xs) w = Out (Throw e) (after (f x w)) (out (f x w)).
Proof. intros H. cbn [all_limit1]. apply bind_throw. exact H. Qed.

Section Level.

Variable self : Call -> M W ResearchResult.
Variables (q : string) (breadth depth : Z) (ls urls : list string).

Let expansion := generateSerpQueries q breadth (Some ls).
Let level := deepResearch_level self q breadth depth ls urls.

Lemma level_expansion_throws (w : W) (e : exn) :
  res (expansion w) = Throw e ->
  level w = Out (Throw e) (after (expansion w)) (out (expansion w)).
Proof. intros H. unfold level, deepResearch_level. apply bind_throw. exact H. Qed.

Lemma level_run (w : W) (Q : list SerpQuery) :
  res (expansion w) = Ok Q ->
  let o := all_limit1 (researchBranch self Q breadth depth ls urls) Q
             (after (expansion w)) in
  level w
  = Out (result_map
           (fun results =>
              mkResearchResult (spread_set (flat_map learnings results))
                               (spread_set (flat_map visitedUrls results)) Q)
           (res o))
        (after o) (out (expansion w) ++ out o).
Proof.
  intros H o. unfold level, deepResearch_level.
  erewrite bind_ok by exact H. subst o. unfold bind, ret, expansion.
  destruct (res (all_limit1 _ Q _)); cbn; rewrite ?app_nil_r; reflexivity.
Qed.

(** A level returns only what its last statement builds. *)
Lemma level_returns (w : W) (r : ResearchResult) :
  res (level w) = Ok r ->
  exists Q results,
    res (expansion w) = Ok Q /\
    res (all_limit1 (researchBranch self Q breadth depth ls urls) Q
           (after (expansion w))) = Ok results /\
    r = mkResearchResult (spread_set (flat_map learnings results))
                         (spread_set (flat_map visitedUrls results)) Q.
Proof.
  intros H. destruct (generateSerpQueries_settles q breadth (Some ls) w)
    as [[Q HQ]|[e He]].
  - fold expansion in HQ. rewrite (level_run _ HQ) in H. cbn in H.
    destruct (res (all_limit1 _ Q (after (expansion w)))) as [results| | |] eqn:Hr;
      cbn in H; try discriminate.
    exists Q, results. repeat split; try assumption. congruence.
  - fold expansion in He. rewrite (level_expansion_throws _ He) in H.
    discriminate.
Qed.

End Level.

Lemma deepResearch_fuel_unfold (fuel : nat) (c : Call) :
  deepResearch_fuel fuel c
  = deepResearch_level
      (match fuel with
       | O => fun _ => out_of_fuel
       | S fuel' => deepResearch_fuel fuel'
       end)
      (c_query c) (c_breadth c) (c_depth c) (c_learnings c) (c_visitedUrls c).
Proof. destruct fuel; reflexivity. Qed.

End LevelProperties.

(** ** Failure containment *)

Lemma flat_map_empty_results {A} (f : ResearchResult -> list A)
    (Q : list SerpQuery) :
  f emptyResult = [] -> flat_map f (map (fun _ => emptyResult) Q) = [].
Proof. intros H. induction Q as [|sq Q IH]; simpl; [|rewrite H, IH]; reflexivity. Qed.

Section Containment.

Context {W : Type} {svc : Services W}.

Lemma all_branches_fail (self : Call -> M W ResearchResult)
    (Q0 : list SerpQuery) (breadth depth : Z) (ls urls : list string)
    (Q : list SerpQuery) :
  (forall sq, In sq Q -> retrieval_always_fails (query sq)) ->
  forall w,
    res (all_limit1 (researchBranch self Q0 breadth depth ls urls) Q w)
    = Ok (map (fun _ => emptyResult) Q).
Proof.
  induction Q as [|sq Q IH]; intros H w; [reflexivity|].
  destruct (H sq (or_introl eq_refl) w) as [e He].
  pose proof (branch_retrieval_throws self Q0 breadth depth ls urls sq w He)
    as Hb.
  erewrite all_limit1_cons_ok by (rewrite Hb; reflexivity).
  cbn [res]. rewrite IH by (intros sq' Hin; apply H; right; exact Hin).
  reflexivity.
Qed.

Lemma level_all_branches_fail (self : Call -> M W ResearchResult)
    (q : string) (breadth depth : Z) (ls urls : list string) (w : W)
    (Q : list SerpQuery) :
  res (generateSerpQueries q breadth (Some ls) w) = Ok Q ->
  (forall sq, In sq Q -> retrieval_always_fails (query sq)) ->
  res (deepResearch_level self q breadth depth ls urls w)
  = Ok (mkResearchResult [] [] Q).
Proof.
  intros HQ Hfail. rewrite (level_run self q breadth depth ls urls w HQ).
  cbn [res]. rewrite all_branches_fail by exact Hfail. cbn [result_map].
  rewrite !flat_map_empty_results by reflexivity. reflexivity.
Qed.

(** C1.  At every level of the recursion (whatever the recursive call
    [self] does, whatever the budget and the accumulators): a branch whose
    retrieval throws returns the empty partial result, having printed the
    error; the branches queued after it are still run, from the world the
    failed branch left, and the level gets the empty result in front of
    theirs; and when retrieval fails for every sub-query of the level, the
    level returns normally with empty [learnings] and [visitedUrls] and its
    own sub-queries.  The last holds for [deepResearch] itself. *)
Theorem retrieval_failure_is_contained
    (self : Call -> M W ResearchResult) (serpQueries : list SerpQuery)
    (breadth depth : Z) (ls urls : list string) :
  let retrieval sq := firecrawlSearchWithRetry (query sq) MAX_RETRIES in
  let branch := researchBranch self serpQueries breadth depth ls urls in
  (forall sq w e,
      res (retrieval sq w) = Throw e ->
      branch sq w
      = Out (Ok emptyResult) (after (retrieval sq w))
            (out (retrieval sq w) ++ [caught sq e])) /\
  (forall sq rest w e,
      res (retrieval sq w) = Throw e ->
      all_limit1 branch (sq :: rest) w
      = let o := all_limit1 branch rest (after (branch sq w)) in
        Out (result_map (cons emptyResult) (res o)) (after o)
            (out (branch sq w) ++ out o)) /\
  (forall q w,
      res (generateSerpQueries q breadth (Some ls) w) = Ok serpQueries ->
      (forall sq, In sq serpQueries -> retrieval_always_fails (query sq)) ->
      res (deepResearch_level self q breadth depth ls urls w)
      = Ok (mkResearchResult [] [] serpQueries) /\
      res (deepResearch q breadth depth ls urls w)
      = Ok (mkResearchResult [] [] serpQueries)).
Proof.
  intros retrieval branch. split; [|split].
  - intros sq w e He. apply branch_retrieval_throws. exact He.
  - intros sq rest w e He. apply all_limit1_cons_ok.
    unfold branch. erewrite branch_retrieval_throws by exact He. reflexivity.
  - intros q w HQ Hfail. split.
    + apply level_all_branches_fail; assumption.
    + unfold deepResearch. rewrite deepResearch_fuel_unfold.
      apply level_all_branches_fail; assumption.
Qed.

(** C10.  If query expansion returns no sub-query, [deepResearch] returns
    [{learnings: [], visitedUrls: [], queries: []}] whatever learnings and
    URLs were carried in, after the expansion call alone; and a level whose
    branches all fail at retrieval returns empty [learnings] and
    [visitedUrls] as well: the accumulators passed in are not echoed back. *)
Theorem deepResearch_drops_accumulators
    (q : string) (breadth depth : Z) (ls urls : list string) (w : W) :
  let expansion := generateSerpQueries q breadth (Some ls) w in
  (res expansion = Ok [] ->
   deepResearch q breadth depth ls urls w
   = Out (Ok (mkResearchResult [] [] [])) (after expansion) (out expansion)) /\
  (forall Q,
      res expansion = Ok Q ->
      (forall sq, In sq Q -> retrieval_always_fails (query sq)) ->
      exists r,
        res (deepResearch q breadth depth ls urls w) = Ok r /\
        learnings r = [] /\ visitedUrls r = [] /\ queries r = Q).
Proof.
  intros expansion. split.
  - intros H. unfold deepResearch. rewrite deepResearch_fuel_unfold.
    cbn [c_query c_breadth c_depth c_learnings c_visitedUrls].
    erewrite level_run by exact H. cbn. rewrite app_nil_r. reflexivity.
  - intros Q HQ Hfail. eexists. split.
    + unfold deepResearch. rewrite deepResearch_fuel_unfold.
      apply level_all_branches_fail; eassumption.
    + repeat split.
Qed.

End Containment.

Lemma retrieval_failure_is_contained_witness :
  let svc := scripted failing_search in
  let Q := [mkSerpQuery "q1" "g1"; mkSerpQuery "q2" "g2"] in
  res (@generateSerpQueries _ svc "topic" 4 (Some ["old"]) world0) = Ok Q /\
  (forall sq, In sq Q -> @retrieval_always_fails _ svc (query sq)) /\
  res (@deepResearch _ svc "topic" 4 2 ["old"] ["http://old"] world0)
  = Ok (mkResearchResult [] [] Q).
Proof.
  intros svc Q.
  assert (HQ : res (@generateSerpQueries _ svc "topic" 4 (Some ["old"]) world0)
               = Ok Q) by reflexivity.
  assert (Hfail : forall sq, In sq Q -> @retrieval_always_fails _ svc (query sq)).
  { intros sq _. apply search_fails_retrieval_fails.
    apply failing_search_always_fails. }
  split; [exact HQ|]. split; [exact Hfail|].
  destruct (@retrieval_failure_is_contained _ svc
              (fun _ => out_of_fuel) Q 4 2 ["old"] ["http://old"])
    as (_ & _ & H).
  exact (proj2 (H "topic" world0 HQ Hfail)).
Defined.

Lemma deepResearch_drops_accumulators_witness :
  let svc := scripted no_subqueries in
  res (@generateSerpQueries _ svc "topic" 4 (Some ["old"]) world0) = Ok [] /\
  res (@deepResearch _ svc "topic" 4 2 ["old"] ["http://old"] world0)
  = Ok (mkResearchResult [] [] []).
Proof.
  intros svc.
  assert (H : res (@generateSerpQueries _ svc "topic" 4 (Some ["old"]) world0)
              = Ok []) by reflexivity.
  split; [exact H|].
  rewrite (proj1 (@deepResearch_drops_accumulators _ svc
                    "topic" 4 2 ["old"] ["http://old"] world0) H).
  reflexivity.
Defined.

(** ** Deduplication *)

Lemma existsb_eqb_In (x : string) (acc : list string) :
  existsb (String.eqb x) acc = true <-> In x acc.
Proof.
  rewrite existsb_exists. split.
  - intros (y & Hy & Heq). apply String.eqb_eq in Heq. subst. exact Hy.
  - intros H. exists x. split; [exact H | apply String.eqb_refl].
Qed.

Lemma set_insert_NoDup (xs : list string) :
  forall acc, NoDup acc -> NoDup (set_insert acc xs).
Proof.
  induction xs as [|x xs IH]; intros acc Hacc; simpl; [exact Hacc|].
  destruct (existsb (String.eqb x) acc) eqn:E.
  - apply IH. exact Hacc.
  - apply IH. apply NoDup_app; [exact Hacc | repeat constructor; intros [] |].
    intros y Hy [Hx|[]]. subst y.
    apply existsb_eqb_In in Hy. congruence.
Qed.

Lemma set_insert_In (x : string) (xs : list string) :
  forall acc, In x (set_insert acc xs) <-> In x acc \/ In x xs.
Proof.
  induction xs as [|y xs IH]; intros acc; simpl.
  - tauto.
  - destruct (existsb (String.eqb y) acc) eqn:E; rewrite IH.
    + apply existsb_eqb_In in E. split; [tauto|].
      intros [H|[H|H]]; subst; tauto.
    + rewrite in_app_iff. simpl. tauto.
Qed.

Lemma spread_set_NoDup (xs : list string) : NoDup (spread_set xs).
Proof. apply set_insert_NoDup. constructor. Qed.

Lemma spread_set_In (x : string) (xs : list string) :
  In x (spread_set xs) <-> In x xs.
Proof. unfold spread_set. rewrite set_insert_In. simpl. tauto. Qed.

Lemma spread_set_once (x : string) (xs : list string) :
  In x xs -> count_occ string_dec (spread_set xs) x = 1%nat.
Proof.
  intros H. apply NoDup_count_occ'; [apply spread_set_NoDup|].
  apply spread_set_In. exact H.
Qed.

(** ** The orchestrator settles *)

Section Totality.

Context {W : Type} {svc : Services W}.

Lemma researchBranch_settles (self : Call -> M W ResearchResult)
    (Q : list SerpQuery) (breadth depth : Z) (ls urls : list string)
    (sq : SerpQuery) (w : W) :
  (0 < newDepth depth ->
   forall c w', c_depth c = newDepth depth -> settles (self c w')) ->
  settles (researchBranch self Q breadth depth ls urls sq w).
Proof.
  intros Hself.
  destruct (firecrawlSearchWithRetry_settles (query sq) MAX_RETRIES w)
    as [[result H1]|[e H1]].
  - destruct (processSerpResult_settles (query sq) result 3
                (newBreadth breadth)
                (after (firecrawlSearchWithRetry (query sq) MAX_RETRIES w)))
      as [[d H2]|[e H2]].
    + destruct (Z_lt_le_dec 0 (newDepth depth)) as [Hd|Hd].
      * rewrite (branch_recurses self Q breadth depth ls urls sq w H1 H2 Hd).
        destruct (Hself Hd
                    (mkCall (trim (nextQuery_raw (researchGoal sq)
                                                 (followUpQuestions d)))
                       (newBreadth breadth) (newDepth depth)
                       (ls ++ d_learnings d)
                       (urls ++ compact (map url (data result))))
                    (after (processSerpResult (query sq) result 3
                              (newBreadth breadth)
                              (after (firecrawlSearchWithRetry (query sq)
                                        MAX_RETRIES w))))
                    eq_refl) as [[r Hr]|[e He]].
        -- left. exists r. exact Hr.
        -- right. exists e. exact He.
      * rewrite (branch_stops self Q breadth depth ls urls sq w H1 H2 Hd).
        left. eexists. reflexivity.
    + rewrite (branch_distillation_throws self Q breadth depth ls urls sq w
                 H1 H2).
      left. eexists. reflexivity.
  - rewrite (branch_retrieval_throws self Q breadth depth ls urls sq w H1).
    left. eexists. reflexivity.
Qed.

Lemma deepResearch_level_settles (self : Call -> M W ResearchResult)
    (q : string) (breadth depth : Z) (ls urls : list string) (w : W) :
  (0 < newDepth depth ->
   forall c w', c_depth c = newDepth depth -> settles (self c w')) ->
  settles (deepResearch_level self q breadth depth ls urls w).
Proof.
  intros Hself. unfold deepResearch_level.
  apply bind_settles; [apply generateSerpQueries_settles|]. intros Q w1.
  apply bind_settles.
  - apply all_limit1_settles. intros sq w2.
    apply researchBranch_settles. exact Hself.
  - intros results w2. apply ret_settles.
Qed.

Lemma deepResearch_fuel_settles (fuel : nat) :
  forall (c : Call) (w : W),
    c_depth c <= Z.of_nat fuel + 1 -> settles (deepResearch_fuel fuel c w).
Proof.
  induction fuel as [|fuel IH]; intros c w Hc;
    rewrite deepResearch_fuel_unfold; apply deepResearch_level_settles;
    unfold newDepth; intros Hd c' w' Hc'.
  - lia.
  - apply IH. lia.
Qed.

Lemma deepResearch_settles (q : string) (breadth depth : Z)
    (ls urls : list string) (w : W) :
  settles (deepResearch q breadth depth ls urls w).
Proof.
  unfold deepResearch. apply deepResearch_fuel_settles. cbn [c_depth]. lia.
Qed.

(** C3.  Whatever the query, the budget, the carried-in learnings and URLs
    and the world, [deepResearch] returns or throws (its fuel is enough), and
    a result it returns has no duplicate in [learnings] and none in
    [visitedUrls].  At any level, a URL that two sibling branches both
    contributed occurs exactly once in the level's [visitedUrls]. *)
Theorem deepResearch_no_duplicates
    (q : string) (breadth depth : Z) (ls urls : list string) (w : W) :
  settles (deepResearch q breadth depth ls urls w) /\
  (forall r,
      res (deepResearch q breadth depth ls urls w) = Ok r ->
      NoDup (learnings r) /\ NoDup (visitedUrls r)) /\
  (forall self r,
      res (deepResearch_level self q breadth depth ls urls w) = Ok r ->
      exists Q results,
        res (generateSerpQueries q breadth (Some ls) w) = Ok Q /\
        res (all_limit1 (researchBranch self Q breadth depth ls urls) Q
               (after (generateSerpQueries q breadth (Some ls) w)))
        = Ok results /\
        NoDup (learnings r) /\ NoDup (visitedUrls r) /\
        forall u b1 b2,
          In b1 results -> In b2 results ->
          In u (visitedUrls b1) -> In u (visitedUrls b2) ->
          count_occ string_dec (visitedUrls r) u = 1%nat).
Proof.
  assert (Hlevel : forall self r,
      res (deepResearch_level self q breadth depth ls urls w) = Ok r ->
      exists Q results,
        res (generateSerpQueries q breadth (Some ls) w) = Ok Q /\
        res (all_limit1 (researchBranch self Q breadth depth ls urls) Q
               (after (generateSerpQueries q breadth (Some ls) w)))
        = Ok results /\
        NoDup (learnings r) /\ NoDup (visitedUrls r) /\
        forall u b1 b2,
          In b1 results -> In b2 results ->
          In u (visitedUrls b1) -> In u (visitedUrls b2) ->
          count_occ string_dec (visitedUrls r) u = 1%nat).
  { intros self r Hr.
    destruct (level_returns self q breadth depth ls urls w Hr)
      as (Q & results & HQ & Hres & ->).
    exists Q, results. cbn [learnings visitedUrls].
    repeat split; try assumption; try apply spread_set_NoDup.
    intros u b1 b2 Hb1 _ Hu _. apply spread_set_once.
    apply in_flat_map. exists b1. split; assumption. }
  split; [apply deepResearch_settles|]. split; [|exact Hlevel].
  intros r Hr. unfold deepResearch in Hr.
  rewrite deepResearch_fuel_unfold in Hr.
  destruct (Hlevel _ r Hr) as (Q & results & _ & _ & H1 & H2 & _).
  split; assumption.
Qed.

End Totality.

Lemma deepResearch_no_duplicates_witness :
  let svc := scripted same_page in
  let o := @deepResearch _ svc "topic" 2 1 [] [] world0 in
  res o = Ok (mkResearchResult ["L"] ["http://a"]
                [mkSerpQuery "q1" "g1"; mkSerpQuery "q2" "g2"]) /\
  NoDup ["L"] /\ NoDup ["http://a"] /\
  count_occ string_dec ["http://a"] "http://a" = 1%nat.
Proof.
  intros svc o.
  assert (Hr : res o = Ok (mkResearchResult ["L"] ["http://a"]
                             [mkSerpQuery "q1" "g1"; mkSerpQuery "q2" "g2"]))
    by reflexivity.
  split; [exact Hr|].
  destruct (@deepResearch_no_duplicates _ svc "topic" 2 1 [] [] world0)
    as (_ & Hnodup & _).
  destruct (Hnodup _ Hr) as [H1 H2].
  split; [exact H1|]. split; [exact H2|]. reflexivity.
Defined.

(** ** The budget of the recursion *)

Lemma newBreadth_is_ceiling (breadth : Z) :
  2 * newBreadth breadth - 2 < breadth <= 2 * newBreadth breadth.
Proof.
  unfold newBreadth.
  pose proof (Z.div_mod (- breadth) 2 ltac:(lia)) as Hdm.
  pose proof (Z.mod_pos_bound (- breadth) 2 ltac:(lia)) as Hb.
  lia.
Qed.

(** C4.  [newBreadth] is the ceiling of [breadth / 2] (the least integer
    whose double reaches [breadth]) and [newDepth] is [depth - 1].  A branch
    whose retrieval and distillation returned decides on a recursive call if
    and only if [newDepth > 0]; the call then carries [newBreadth] and
    [newDepth] (and the merged accumulators), and what it returns is what the
    branch returns; otherwise the branch returns its own accumulators and the
    recursive function is not used.  From breadth 4 and depth 2 the next
    level gets breadth 2 and depth 1; that level computes breadth 1 and depth
    0 and does not recurse: in a run from (4, 2) with one sub-query per
    level, the expansions ask for 4 and then 2 sub-queries and only the
    budget (2, 1) is announced. *)
Theorem branch_budget_and_recursion {W : Type} {svc : Services W}
    (serpQueries : list SerpQuery) (breadth depth : Z) (ls urls : list string)
    (serpQuery : SerpQuery) (w : W) :
  let retrieval := firecrawlSearchWithRetry (query serpQuery) MAX_RETRIES w in
  let distillation result :=
    processSerpResult (query serpQuery) result 3 (newBreadth breadth)
      (after retrieval) in
  (2 * newBreadth breadth - 2 < breadth <= 2 * newBreadth breadth) /\
  newDepth depth = depth - 1 /\
  (forall newUrls dist w',
      let decision :=
        branch_decision serpQueries breadth depth ls urls serpQuery
          newUrls dist w' in
      ((exists c, res decision = Ok (inr c)) <-> 0 < newDepth depth) /\
      (forall c, res decision = Ok (inr c) ->
                 c_breadth c = newBreadth breadth /\
                 c_depth c = newDepth depth /\
                 c_learnings c = (ls ++ d_learnings dist)%list /\
                 c_visitedUrls c = (urls ++ newUrls)%list)) /\
  (forall self result dist,
      res retrieval = Ok result ->
      res (distillation result) = Ok dist ->
      (0 < newDepth depth ->
       exists c,
         c_breadth c = newBreadth breadth /\ c_depth c = newDepth depth /\
         res (researchBranch self serpQueries breadth depth ls urls
                serpQuery w)
         = res (self c (after (distillation result)))) /\
      (newDepth depth <= 0 ->
       researchBranch self serpQueries breadth depth ls urls serpQuery w
       = Out (Ok (mkResearchResult (ls ++ d_learnings dist)
                    (urls ++ compact (map url (data result))) serpQueries))
             (after (distillation result))
             (out retrieval ++ out (distillation result)))) /\
  (newBreadth 4 = 2 /\ newDepth 2 = 1 /\ newBreadth 2 = 1 /\ newDepth 1 = 0 /\
   (newDepth 2 >? 0) = true /\ (newDepth 1 >? 0) = false) /\
  (let o := @deepResearch _ (scripted one_path) "topic" 4 2 [] [] world0 in
   expansion_breadths (out o) = [4; 2] /\ deeper_budgets (out o) = [(2, 1)]).
Proof.
  intros retrieval distillation.
  split; [apply newBreadth_is_ceiling|]. split; [reflexivity|].
  split; [|split; [|split]].
  - intros newUrls dist w' decision. subst decision.
    rewrite branch_decision_run.
    destruct (newDepth depth >? 0) eqn:E; rewrite Z.gtb_ltb in E.
    + apply Z.ltb_lt in E. split.
      * split; [intros _; exact E | intros _; eexists; reflexivity].
      * intros c Hc. cbn in Hc. injection Hc as <-. cbn. auto.
    + apply Z.ltb_ge in E. split.
      * split; [intros [c Hc]; discriminate | lia].
      * intros c Hc. discriminate.
  - intros self result dist H1 H2. split.
    + intros Hd. eexists. split; [|split].
      3: { unfold retrieval, distillation in *.
           rewrite (branch_recurses self serpQueries breadth depth ls urls
                      serpQuery w H1 H2 Hd).
           reflexivity. }
      all: reflexivity.
    + intros Hd. unfold retrieval, distillation in *.
      apply (branch_stops self serpQueries breadth depth ls urls
               serpQuery w H1 H2 Hd).
  - repeat split.
  - split; reflexivity.
Qed.

Lemma branch_budget_and_recursion_witness :
  let svc := scripted one_path in
  let sq := mkSerpQuery "q1" "g1" in
  let retrieval := @firecrawlSearchWithRetry _ svc "q1" MAX_RETRIES world0 in
  let page := mkSearchResponse [mkSearchItem (Some "http://a") (Some "page")] in
  res retrieval = Ok page /\
  res (@processSerpResult _ svc "q1" page 3 1 (after retrieval))
  = Ok (mkDistilled ["L"] ["f"]) /\
  newDepth 1 <= 0 /\
  res (@researchBranch _ svc (fun _ => out_of_fuel) [sq] 2 1 ["old"] [] sq
         world0)
  = Ok (mkResearchResult ["old"; "L"] ["http://a"] [sq]).
Proof.
  intros svc sq retrieval page.
  assert (H1 : res retrieval = Ok page) by reflexivity.
  assert (H2 : res (@processSerpResult _ svc "q1" page 3 (newBreadth 2)
                      (after retrieval))
               = Ok (mkDistilled ["L"] ["f"])) by reflexivity.
  assert (H3 : newDepth 1 <= 0) by (unfold newDepth; lia).
  split; [exact H1|]. split; [exact H2|]. split; [exact H3|].
  destruct (@branch_budget_and_recursion _ svc [sq] 2 1 ["old"] [] sq world0)
    as (_ & _ & _ & Hb & _).
  destruct (Hb (fun _ => out_of_fuel) page (mkDistilled ["L"] ["f"]) H1 H2)
    as [_ Hstop].
  rewrite (Hstop H3). reflexivity.
Defined.

(** ** Generation errors *)

(** C2, as the program has it.  At any level: an error thrown by query
    expansion is thrown by the level, and by [deepResearch], after the
    expansion call alone; an error thrown by the distillation of a branch
    whose retrieval returned is caught by the branch, which prints it and
    returns the empty partial result, as for a retrieval failure; an error
    thrown by the recursive call of a branch is not caught by the branch (the
    call is returned without being awaited inside the [try] block), and the
    error thrown by the first branch of a level is thrown by the level. *)
Theorem generation_errors_at_a_level {W : Type} {svc : Services W}
    (self : Call -> M W ResearchResult) (q : string) (breadth depth : Z)
    (ls urls : list string) (w : W) :
  let expansion := generateSerpQueries q breadth (Some ls) w in
  (forall e,
      res expansion = Throw e ->
      deepResearch_level self q breadth depth ls urls w
      = Out (Throw e) (after expansion) (out expansion) /\
      deepResearch q breadth depth ls urls w
      = Out (Throw e) (after expansion) (out expansion)) /\
  (forall Q sq w1 result e,
      let retrieval := firecrawlSearchWithRetry (query sq) MAX_RETRIES w1 in
      let distillation :=
        processSerpResult (query sq) result 3 (newBreadth breadth)
          (after retrieval) in
      res retrieval = Ok result ->
      res distillation = Throw e ->
      researchBranch self Q breadth depth ls urls sq w1
      = Out (Ok emptyResult) (after distillation)
            ((out retrieval ++ out distillation) ++ [caught sq e])) /\
  (forall Q sq w1 result dist e,
      let retrieval := firecrawlSearchWithRetry (query sq) MAX_RETRIES w1 in
      let distillation :=
        processSerpResult (query sq) result 3 (newBreadth breadth)
          (after retrieval) in
      res retrieval = Ok result ->
      res distillation = Ok dist ->
      0 < newDepth depth ->
      res (self (mkCall (trim (nextQuery_raw (researchGoal sq)
                                             (followUpQuestions dist)))
                   (newBreadth breadth) (newDepth depth)
                   (ls ++ d_learnings dist)
                   (urls ++ compact (map url (data result))))
             (after distillation)) = Throw e ->
      res (researchBranch self Q breadth depth ls urls sq w1) = Throw e) /\
  (forall sq rest e,
      res expansion = Ok (sq :: rest) ->
      res (researchBranch self (sq :: rest) breadth depth ls urls sq
             (after expansion)) = Throw e ->
      res (deepResearch_level self q breadth depth ls urls w) = Throw e).
Proof.
  intros expansion. split; [|split; [|split]].
  - intros e He. split.
    + apply level_expansion_throws. exact He.
    + unfold deepResearch. rewrite deepResearch_fuel_unfold.
      apply level_expansion_throws. exact He.
  - intros Q sq w1 result e retrieval distillation H1 H2.
    apply (branch_distillation_throws self Q breadth depth ls urls sq w1 H1 H2).
  - intros Q sq w1 result dist e retrieval distillation H1 H2 Hd He.
    rewrite (branch_recurses self Q breadth depth ls urls sq w1 H1 H2 Hd).
    exact He.
  - intros sq rest e HQ He.
    rewrite (level_run self q breadth depth ls urls w HQ). cbn [res].
    erewrite all_limit1_cons_throw by exact He. reflexivity.
Qed.

Lemma generation_errors_at_a_level_witness :
  let svc := scripted failing_expansion in
  res (@generateSerpQueries _ svc "topic" 4 (Some []) world0)
  = Throw generation_error /\
  res (@deepResearch _ svc "topic" 4 2 [] [] world0) = Throw generation_error.
Proof.
  intros svc.
  assert (H : res (@generateSerpQueries _ svc "topic" 4 (Some []) world0)
              = Throw generation_error) by reflexivity.
  split; [exact H|].
  destruct (@generation_errors_at_a_level _ svc (fun _ => out_of_fuel)
              "topic" 4 2 [] [] world0) as (Hexp & _).
  rewrite (proj2 (Hexp _ H)). reflexivity.
Defined.

(** C2 as stated fails for distillation: with a search that returns and a
    distillation that throws, [processSerpResult] throws, yet [deepResearch]
    returns normally, with the empty contribution of the branch. *)
Lemma distillation_error_does_not_propagate :
  let svc := scripted failing_distillation in
  let retrieval := @firecrawlSearchWithRetry _ svc "q1" MAX_RETRIES world0 in
  res retrieval = Ok page_a /\
  res (@processSerpResult _ svc "q1" page_a 3 2 (after retrieval))
  = Throw generation_error /\
  res (@deepResearch _ svc "topic" 4 2 [] [] world0)
  = Ok (mkResearchResult [] [] [mkSerpQuery "q1" "g1"]) /\
  res (@deepResearch _ svc "topic" 4 2 [] [] world0) <> Throw generation_error.
Proof.
  intros svc retrieval. repeat split. discriminate.
Qed.

(** ** One pass at every level *)

Section OnePass.

Context {W : Type} {svc : Services W}.

Lemma all_limit1_cons_inv {A B} (f : A -> M W B) (x : A) (xs : list A)
    (w : W) (ys : list B) :
  res (all_limit1 f (x :: xs) w) = Ok ys ->
  exists y ys',
    res (f x w) = Ok y /\
    res (all_limit1 f xs (after (f x w))) = Ok ys' /\
    out (all_limit1 f (x :: xs) w)
    = (out (f x w) ++ out (all_limit1 f xs (after (f x w))))%list.
Proof.
  intros H. destruct (res (f x w)) as [y|e|c|] eqn:Hy.
  - rewrite (all_limit1_cons_ok f x xs w Hy) in *. cbn in H |- *.
    destruct (res (all_limit1 f xs (after (f x w)))) as [ys'| | |] eqn:Hys;
      try discriminate.
    exists y, ys'. auto.
  - rewrite (all_limit1_cons_throw f x xs w Hy) in H. discriminate.
  - cbn [all_limit1] in H. unfold bind in H. rewrite Hy in H. discriminate.
  - cbn [all_limit1] in H. unfold bind in H. rewrite Hy in H. discriminate.
Qed.

Lemma all_limit1_count_at_least {A B} (p : event -> bool) (f : A -> M W B)
    (k : nat) (xs : list A) :
  (forall x w, In x xs -> (k <= count p (out (f x w)))%nat) ->
  forall w ys,
    res (all_limit1 f xs w) = Ok ys ->
    (k * length xs <= count p (out (all_limit1 f xs w)))%nat.
Proof.
  induction xs as [|x xs IH]; intros Hk w ys H; [cbn; lia|].
  destruct (all_limit1_cons_inv f x xs w H) as (y & ys' & Hy & Hys & Hout).
  rewrite Hout, count_app. cbn [length].
  pose proof (Hk x w (or_introl eq_refl)).
  pose proof (IH (fun x' w' Hin => Hk x' w' (or_intror Hin)) _ _ Hys).
  lia.
Qed.

Lemma all_limit1_count_exactly {A B} (p : event -> bool) (f : A -> M W B)
    (k : nat) (xs : list A) :
  (forall x w, In x xs ->
               count p (out (f x w)) = k /\ exists y, res (f x w) = Ok y) ->
  forall w,
    count p (out (all_limit1 f xs w)) = (k * length xs)%nat /\
    exists ys, res (all_limit1 f xs w) = Ok ys.
Proof.
  induction xs as [|x xs IH]; intros Hk w.
  - split; [cbn; lia | eexists; reflexivity].
  - destruct (Hk x w (or_introl eq_refl)) as (Hc & y & Hy).
    rewrite (all_limit1_cons_ok f x xs w Hy). cbn [out res length].
    destruct (IH (fun x' w' Hin => Hk x' w' (or_intror Hin)) (after (f x w)))
      as (Hc' & ys & Hys).
    rewrite count_app, Hc, Hc', Hys. split; [lia | eexists; reflexivity].
Qed.

Lemma retrieval_returns_at_once (q : string) (w : W) :
  search_always_returns q ->
  exists result,
    res (firecrawlSearchWithRetry q MAX_RETRIES w) = Ok result /\
    out (firecrawlSearchWithRetry q MAX_RETRIES w)
    = [Sleep INITIAL_BACKOFF; SearchCall q].
Proof.
  intros H. destruct (H w) as (r & w' & Hs).
  unfold firecrawlSearchWithRetry, MAX_RETRIES.
  erewrite retry_loop_returns by exact Hs. exists r. split; reflexivity.
Qed.

Lemma distillation_returns (q : string) (result : SearchResponse)
    (n1 n2 : Z) (w : W) :
  distillation_always_returns ->
  exists d, res (processSerpResult q result n1 n2 w) = Ok d.
Proof.
  intros H. unfold processSerpResult, bind, perform, console_log, emit, ret.
  cbn. match goal with
       | |- context [generateObject_learnings ?p w] =>
           destruct (H p w) as (d & w' & Hd); rewrite Hd
       end.
  cbn. eexists. reflexivity.
Qed.

Lemma branch_one_pass (self : Call -> M W ResearchResult)
    (Q : list SerpQuery) (breadth depth : Z) (ls urls : list string)
    (sq : SerpQuery) (w : W) :
  search_always_returns (query sq) ->
  distillation_always_returns ->
  let o := researchBranch self Q breadth depth ls urls sq w in
  (1 <= count is_search (out o))%nat /\
  (1 <= count is_distillation (out o))%nat /\
  (newDepth depth <= 0 ->
   count is_search (out o) = 1%nat /\
   count is_distillation (out o) = 1%nat /\
   count is_expansion (out o) = 0%nat /\
   exists r, res o = Ok r) /\
  (0 < newDepth depth ->
   exists c w',
     c_depth c = newDepth depth /\ c_breadth c = newBreadth breadth /\
     (count is_expansion (out (self c w')) <= count is_expansion (out o))%nat).
Proof.
  intros Hs Hd o. subst o.
  destruct (retrieval_returns_at_once w Hs) as (result & H1 & Hout1).
  destruct (distillation_returns (query sq) result 3 (newBreadth breadth)
              (after (firecrawlSearchWithRetry (query sq) MAX_RETRIES w)) Hd)
    as (d & H2).
  destruct (processSerpResult_calls (query sq) result 3 (newBreadth breadth)
              (after (firecrawlSearchWithRetry (query sq) MAX_RETRIES w)))
    as (Hc1 & Hc2 & Hc3).
  destruct (Z_lt_le_dec 0 (newDepth depth)) as [Hlt|Hle].
  - rewrite (branch_recurses self Q breadth depth ls urls sq w H1 H2 Hlt).
    cbn [out]. rewrite !count_app, Hout1, Hc1, Hc2, Hc3.
    split; [cbn; lia|]. split; [cbn; lia|]. split; [lia|].
    intros _.
    exists (mkCall (trim (nextQuery_raw (researchGoal sq)
                                        (followUpQuestions d)))
              (newBreadth breadth) (newDepth depth) (ls ++ d_learnings d)
              (urls ++ compact (map url (data result)))).
    exists (after (processSerpResult (query sq) result 3 (newBreadth breadth)
                     (after (firecrawlSearchWithRetry (query sq)
                               MAX_RETRIES w)))).
    split; [reflexivity|]. split; [reflexivity|]. lia.
  - rewrite (branch_stops self Q breadth depth ls urls sq w H1 H2 Hle).
    cbn [out res]. rewrite !count_app, Hout1, Hc1, Hc2, Hc3.
    split; [cbn; lia|]. split; [cbn; lia|]. split; [|lia].
    intros _. repeat split. eexists. reflexivity.
Qed.

Lemma expansion_is_first (q : string) (n : Z) (ls : list string) (w : W) :
  exists rest,
    out (generateSerpQueries q n (Some ls) w)
    = Generate (SerpQueriesPrompt q n (Some (join "
" ls))) :: rest /\
    count is_expansion (out (generateSerpQueries q n (Some ls) w)) = 1%nat /\
    count is_search (out (generateSerpQueries q n (Some ls) w)) = 0%nat /\
    count is_distillation (out (generateSerpQueries q n (Some ls) w)) = 0%nat.
Proof.
  rewrite generateSerpQueries_run. cbn [option_map].
  destruct (generateObject_queries _ w) as [[e|qs] w']; eexists;
    repeat split.
Qed.

Lemma level_starts_with_expansion (self : Call -> M W ResearchResult)
    (q : string) (breadth depth : Z) (ls urls : list string) (w : W) :
  exists rest,
    out (deepResearch_level self q breadth depth ls urls w)
    = Generate (SerpQueriesPrompt q breadth (Some (join "
" ls))) :: rest.
Proof.
  destruct (expansion_is_first q breadth ls w) as (rest & Hout & _).
  destruct (generateSerpQueries_settles q breadth (Some ls) w)
    as [[Q HQ]|[e He]].
  - rewrite (level_run self q breadth depth ls urls w HQ). cbn [out].
    rewrite Hout. eexists. reflexivity.
  - rewrite (level_expansion_throws self q breadth depth ls urls w He).
    cbn [out]. rewrite Hout. eexists. reflexivity.
Qed.

End OnePass.

Section SinglePass.

Context {W : Type} {svc : Services W}.

Lemma all_limit1_cons_out {A B} (f : A -> M W B) (x : A) (xs : list A) (w : W) :
  exists rest, out (all_limit1 f (x :: xs) w) = (out (f x w) ++ rest)%list.
Proof.
  cbn [all_limit1]. unfold bind at 1.
  destruct (res (f x w)); cbn [out].
  - eexists. reflexivity.
  - exists []. rewrite app_nil_r. reflexivity.
  - exists []. rewrite app_nil_r. reflexivity.
  - exists []. rewrite app_nil_r. reflexivity.
Qed.

Lemma count_le_app (p : event -> bool) (t1 t2 : list event) :
  (count p t1 <= count p (t1 ++ t2))%nat.
Proof. rewrite count_app. lia. Qed.

(** C8.  Whatever the depth (zero and negative included), [deepResearch]
    starts with the query-expansion call.  When the expansion returns the
    sub-queries [Q] and the searches and distillations return: a run that
    returns made at least one expansion, and at least one search and one
    distillation per sub-query; with [depth - 1 <= 0] the run returns after
    exactly one expansion, one search and one distillation per sub-query (the
    single pass, without recursion); with [depth - 1 > 0] and a sub-query to
    follow, a second expansion is made (the recursion). *)
Theorem deepResearch_always_one_pass
    (q : string) (breadth depth : Z) (ls urls : list string) (w : W) :
  let o := deepResearch q breadth depth ls urls w in
  let expansion := generateSerpQueries q breadth (Some ls) w in
  (exists rest,
      out o = Generate (SerpQueriesPrompt q breadth (Some (join "
" ls))) :: rest) /\
  (forall Q,
      res expansion = Ok Q ->
      (forall sq, In sq Q -> search_always_returns (query sq)) ->
      distillation_always_returns ->
      (forall r, res o = Ok r ->
                 queries r = Q /\
                 (1 <= count is_expansion (out o))%nat /\
                 (length Q <= count is_search (out o))%nat /\
                 (length Q <= count is_distillation (out o))%nat) /\
      (depth - 1 <= 0 ->
       (exists r, res o = Ok r /\ queries r = Q) /\
       count is_expansion (out o) = 1%nat /\
       count is_search (out o) = length Q /\
       count is_distillation (out o) = length Q) /\
      (0 < depth - 1 -> Q <> [] -> (2 <= count is_expansion (out o))%nat)).
Proof.
  intros o expansion. subst o. unfold deepResearch.
  rewrite deepResearch_fuel_unfold.
  cbn [c_query c_breadth c_depth c_learnings c_visitedUrls].
  set (self := match Z.to_nat depth with
               | O => fun _ : Call => out_of_fuel
               | S fuel' => deepResearch_fuel fuel'
               end).
  split; [apply level_starts_with_expansion|].
  intros Q HQ Hsearch Hdist.
  destruct (expansion_is_first q breadth ls w) as (rest & _ & He1 & He2 & He3).
  rewrite (level_run self q breadth depth ls urls w HQ). cbn [res out].
  fold expansion in He1, He2, He3 |- *.
  set (branch := researchBranch self Q breadth depth ls urls).
  assert (Hbranch : forall sq w', In sq Q ->
            (1 <= count is_search (out (branch sq w')))%nat /\
            (1 <= count is_distillation (out (branch sq w')))%nat).
  { intros sq w' Hin.
    destruct (branch_one_pass self Q breadth depth ls urls sq w'
                (Hsearch sq Hin) Hdist) as (H1 & H2 & _).
    split; assumption. }
  split; [|split].
  - intros r Hr.
    destruct (res (all_limit1 branch Q (after expansion)))
      as [results| | |] eqn:Hres; try discriminate.
    cbn in Hr. injection Hr as <-. cbn [queries].
    rewrite !count_app, He1, He2, He3.
    pose proof (@all_limit1_count_at_least _ _ _ is_search branch 1%nat Q
                  (fun sq w' Hin => proj1 (Hbranch sq w' Hin)) _ _ Hres).
    pose proof (@all_limit1_count_at_least _ _ _ is_distillation branch 1%nat Q
                  (fun sq w' Hin => proj2 (Hbranch sq w' Hin)) _ _ Hres).
    repeat split; lia.
  - intros Hd.
    assert (Hstop : forall sq w', In sq Q ->
              count is_search (out (branch sq w')) = 1%nat /\
              count is_distillation (out (branch sq w')) = 1%nat /\
              count is_expansion (out (branch sq w')) = 0%nat /\
              exists r, res (branch sq w') = Ok r).
    { intros sq w' Hin.
      destruct (branch_one_pass self Q breadth depth ls urls sq w'
                  (Hsearch sq Hin) Hdist) as (_ & _ & H & _).
      apply H. unfold newDepth. lia. }
    destruct (@all_limit1_count_exactly _ _ _ is_search branch 1%nat Q
                (fun sq w' Hin =>
                   conj (proj1 (Hstop sq w' Hin))
                        (proj2 (proj2 (proj2 (Hstop sq w' Hin)))))
                (after expansion)) as (Hc1 & results & Hres).
    destruct (@all_limit1_count_exactly _ _ _ is_distillation branch 1%nat Q
                (fun sq w' Hin =>
                   conj (proj1 (proj2 (Hstop sq w' Hin)))
                        (proj2 (proj2 (proj2 (Hstop sq w' Hin)))))
                (after expansion)) as (Hc2 & _).
    destruct (@all_limit1_count_exactly _ _ _ is_expansion branch 0%nat Q
                (fun sq w' Hin =>
                   conj (proj1 (proj2 (proj2 (Hstop sq w' Hin))))
                        (proj2 (proj2 (proj2 (Hstop sq w' Hin)))))
                (after expansion)) as (Hc3 & _).
    rewrite Hres. cbn [result_map].
    rewrite !count_app, He1, He2, He3, Hc1, Hc2, Hc3.
    split; [eexists; split; reflexivity|]. repeat split; lia.
  - intros Hd Hne. destruct Q as [|sq rest']; [congruence|].
    destruct (all_limit1_cons_out branch sq rest' (after expansion))
      as (tail & Hout).
    rewrite Hout, !count_app, He1.
    destruct (branch_one_pass self (sq :: rest') breadth depth ls urls sq
                (after expansion) (Hsearch sq (or_introl eq_refl)) Hdist)
      as (_ & _ & _ & Hrec).
    destruct (Hrec ltac:(unfold newDepth; lia)) as (c & w' & _ & _ & Hle).
    fold branch in Hle.
    assert (Hself : (1 <= count is_expansion (out (self c w')))%nat).
    { subst self. destruct (Z.to_nat depth) as [|fuel'] eqn:Hfuel; [lia|].
      rewrite deepResearch_fuel_unfold.
      destruct (level_starts_with_expansion
                  (match fuel' with
                   | O => fun _ : Call => out_of_fuel
                   | S f => deepResearch_fuel f
                   end)
                  (c_query c) (c_breadth c) (c_depth c) (c_learnings c)
                  (c_visitedUrls c) w') as (tl & ->).
      cbn. lia. }
    lia.
Qed.

End SinglePass.

Lemma same_page_searches_return (q : string) :
  @search_always_returns _ (scripted same_page) q.
Proof. intros w. eexists. eexists. reflexivity. Defined.

Lemma same_page_distillations_return :
  @distillation_always_returns _ (scripted same_page).
Proof. intros p w. eexists. eexists. reflexivity. Defined.

Lemma deepResearch_always_one_pass_witness :
  let svc := scripted same_page in
  let Q := [mkSerpQuery "q1" "g1"; mkSerpQuery "q2" "g2"] in
  let o := @deepResearch _ svc "topic" 2 0 [] [] world0 in
  res (@generateSerpQueries _ svc "topic" 2 (Some []) world0) = Ok Q /\
  (forall sq, In sq Q -> @search_always_returns _ svc (query sq)) /\
  @distillation_always_returns _ svc /\
  0 - 1 <= 0 /\
  (exists r, res o = Ok r /\ queries r = Q) /\
  (count is_expansion (out o) = 1%nat /\
   count is_search (out o) = 2%nat /\
   count is_distillation (out o) = 2%nat) /\
  0 < 2 - 1 /\ Q <> [] /\
  (2 <= count is_expansion
          (out (@deepResearch _ svc "topic" 2 2 [] [] world0)))%nat.
Proof.
  intros svc Q o.
  assert (HQ : res (@generateSerpQueries _ svc "topic" 2 (Some []) world0)
               = Ok Q) by reflexivity.
  assert (Hs : forall sq, In sq Q -> @search_always_returns _ svc (query sq))
    by (intros sq _; apply same_page_searches_return).
  assert (Hd : 0 - 1 <= 0) by lia.
  assert (Hd2 : 0 < 2 - 1) by lia.
  assert (Hne : Q <> []) by discriminate.
  split; [exact HQ|]. split; [exact Hs|].
  split; [exact same_page_distillations_return|]. split; [exact Hd|].
  destruct (@deepResearch_always_one_pass _ svc "topic" 2 0 [] [] world0)
    as (_ & H).
  destruct (H Q HQ Hs same_page_distillations_return) as (_ & Hone & _).
  destruct (Hone Hd) as (Hr & Hcounts).
  split; [exact Hr|]. split; [exact Hcounts|].
  split; [exact Hd2|]. split; [exact Hne|].
  destruct (@deepResearch_always_one_pass _ svc "topic" 2 2 [] [] world0)
    as (_ & H2).
  destruct (H2 Q HQ Hs same_page_distillations_return) as (_ & _ & Hrec).
  exact (Hrec Hd2 Hne).
Defined.

(** ** The final report and the refinement step *)

Section ReportProperties.

Context {W : Type} {svc : Services W}.

Lemma bind_ok_inv {A B} (m : M W A) (f : A -> M W B) (w : W) (b : B) :
  res (bind m f w) = Ok b ->
  exists a, res (m w) = Ok a /\ res (f a (after (m w))) = Ok b.
Proof.
  unfold bind. destruct (res (m w)) as [a| | |] eqn:E; cbn; try discriminate.
  intros H. exists a. split; [reflexivity | exact H].
Qed.

Lemma refine_revise_run (report : string) (ls urls : list string) (w : W) :
  let p := RevisionPrompt report (join "
" ls) in
  refine_revise report ls urls w
  = match generateObject_text p w with
    | (inr revised, w') =>
        Out (Ok revised) w'
            [ConsoleLog (LogNewLearnings (join "
" ls));
             ConsoleLog (LogNewVisitedUrls (length urls) (join "
" urls));
             Generate p; ConsoleLog (LogRevised revised)]
    | (inl e, w') =>
        Out (Throw e) w'
            [ConsoleLog (LogNewLearnings (join "
" ls));
             ConsoleLog (LogNewVisitedUrls (length urls) (join "
" urls));
             Generate p]
    end.
Proof.
  intros p. unfold refine_revise, bind, perform, console_log, emit, ret.
  fold p. cbn. destruct (generateObject_text p w) as [[e|revised] w'];
    reflexivity.
Qed.

Lemma refine_prepare_run (report initialQuery : string) (breadth : Z)
    (w w1 w2 : W) (criticism : string) (qs : list string) :
  generateObject_text (CriticismPrompt report) w = (inr criticism, w1) ->
  generateObject_questions (QuestionsPrompt breadth criticism) w1
  = (inr qs, w2) ->
  refine_prepare report initialQuery breadth w
  = Out (Ok (refine_query initialQuery criticism (slice0 breadth qs))) w2
        [ConsoleLog LogRefining; Generate (CriticismPrompt report);
         ConsoleLog (LogCriticism criticism);
         Generate (QuestionsPrompt breadth criticism);
         ConsoleLog (LogFollowUps (join "
" (slice0 breadth qs)))].
Proof.
  intros H1 H2.
  unfold refine_prepare, bind, perform, console_log, emit, ret. cbn.
  rewrite H1. cbn. rewrite H2. reflexivity.
Qed.

Lemma writeFinalReport_zero (prompt : string) (ls urls : list string)
    (w w' : W) (draft : string) :
  let p := ReportPrompt prompt
             (trimPrompt
                (join "
" (map (fun l => "<learning>
" ++ l ++ "
</learning>") ls)) 150000) in
  generateObject_text p w = (inr draft, w') ->
  writeFinalReport prompt ls urls 0 w
  = Out (Ok (draft ++ urlsSection urls)) w' [Generate p].
Proof.
  intros p H. unfold writeFinalReport, bind, perform, ret. fold p.
  rewrite H. reflexivity.
Qed.

End ReportProperties.

(** C5, on the program as it is.  With [refinementIterates = 0],
    [writeFinalReport] returns the draft followed by the Sources section, after
    the drafting call alone.  Whatever the number of iterations, what it
    returns is one string: it has no property [steps] or [report], so the
    constants [run] destructures from it are both undefined, and [run] throws
    a [TypeError] at [steps.map] as soon as [writeFinalReport] has returned,
    before anything is saved.  With two iterations the string holds the
    second revision only. *)
Theorem writeFinalReport_keeps_no_step_trail {W : Type} {svc : Services W} :
  (forall prompt ls urls (w w' : W) draft,
      generateObject_text
        (ReportPrompt prompt
           (trimPrompt
              (join "
" (map (fun l => "<learning>
" ++ l ++ "
</learning>") ls)) 150000)) w = (inr draft, w') ->
      res (writeFinalReport prompt ls urls 0 w)
      = Ok (draft ++ urlsSection urls)) /\
  (forall (p : Plan) (r : ResearchResult) (w : W) (v : string),
      let report :=
        writeFinalReport (combinedQuery p) (learnings r) (visitedUrls r)
          (refinement p) w in
      res report = Ok v ->
      get_property (JsString v) "steps" = JsUndefined /\
      get_property (JsString v) "report" = JsUndefined /\
      res (run_finish p r w)
      = Throw (mkExn (Some "Cannot read properties of undefined (reading 'map')")) /\
      out (run_finish p r w)
      = ConsoleLog (LogText "Writing final report...") :: out report) /\
  res (@writeFinalReport _ (scripted (reporting "http://a"))
         "topic" [] ["u1"] 2 world0)
  = Ok "draft (revised) (revised)

## Sources

- u1".
Proof.
  split; [|split].
  - intros prompt ls urls w w' draft H.
    erewrite writeFinalReport_zero by exact H. reflexivity.
  - intros p r w v report Hv.
    split; [reflexivity|]. split; [reflexivity|].
    unfold run_finish.
    erewrite bind_ok by reflexivity. cbn [res out after console_log emit].
    erewrite bind_ok by exact Hv. cbn [res out after].
    split; [reflexivity|].
    cbn. rewrite app_nil_r. reflexivity.
  - reflexivity.
Qed.

Lemma writeFinalReport_keeps_no_step_trail_witness :
  let svc := scripted (reporting "http://a") in
  let r := mkResearchResult ["L"] ["http://a"] [mkSerpQuery "q1" "g1"] in
  res (@writeFinalReport _ svc (combinedQuery plan0) (learnings r)
         (visitedUrls r) (refinement plan0) world0)
  = Ok "draft (revised) (revised)

## Sources

- http://a" /\
  res (@run_finish _ svc plan0 r world0)
  = Throw (mkExn (Some "Cannot read properties of undefined (reading 'map')")) /\
  count is_file_write (out (@run_finish _ svc plan0 r world0)) = 0%nat.
Proof.
  intros svc r.
  assert (Hv : res (@writeFinalReport _ svc (combinedQuery plan0) (learnings r)
                      (visitedUrls r) (refinement plan0) world0)
               = Ok "draft (revised) (revised)

## Sources

- http://a") by reflexivity.
  split; [exact Hv|].
  destruct (@writeFinalReport_keeps_no_step_trail _ svc) as (_ & H & _).
  destruct (H plan0 r world0 _ Hv) as (_ & _ & Hthrow & Hout).
  split; [exact Hthrow|]. rewrite Hout. reflexivity.
Defined.

(** C7, as the program has it.  Once the criticism and the questions have
    been returned, a refinement step runs [deepResearch] on the combined
    query, with the breadth and depth it was given and no carried-in
    learnings or URLs, and then the revision on what that research returned.
    The revision takes the report and the learnings: its request is made of
    those two, its result and the world it leaves do not depend on the URLs,
    which appear in one console line only; the [queries] are not read.  The
    Sources section of the final report lists the URLs given to
    [writeFinalReport], whatever the refinements visited. *)
Theorem refineReport_keeps_learnings_only {W : Type} {svc : Services W}
    (report initialQuery : string) (breadth depth : Z) (w : W) :
  (forall criticism qs w1 w2 r,
      generateObject_text (CriticismPrompt report) w = (inr criticism, w1) ->
      generateObject_questions (QuestionsPrompt breadth criticism) w1
      = (inr qs, w2) ->
      let combined := refine_query initialQuery criticism (slice0 breadth qs) in
      let research := deepResearch combined breadth depth [] [] w2 in
      res research = Ok r ->
      let revision :=
        refine_revise report (learnings r) (visitedUrls r) (after research) in
      refineReport report initialQuery breadth depth w
      = Out (res revision) (after revision)
            (out (refine_prepare report initialQuery breadth w)
             ++ out research ++ out revision)) /\
  (forall ls urls w0,
      let p := RevisionPrompt report (join "
" ls) in
      refine_revise report ls urls w0
      = match generateObject_text p w0 with
        | (inr revised, w') =>
            Out (Ok revised) w'
                [ConsoleLog (LogNewLearnings (join "
" ls));
                 ConsoleLog (LogNewVisitedUrls (length urls) (join "
" urls));
                 Generate p; ConsoleLog (LogRevised revised)]
        | (inl e, w') =>
            Out (Throw e) w'
                [ConsoleLog (LogNewLearnings (join "
" ls));
                 ConsoleLog (LogNewVisitedUrls (length urls) (join "
" urls));
                 Generate p]
        end) /\
  (forall ls urls1 urls2 w0,
      res (refine_revise report ls urls1 w0)
      = res (refine_revise report ls urls2 w0) /\
      after (refine_revise report ls urls1 w0)
      = after (refine_revise report ls urls2 w0) /\
      filter is_generate (out (refine_revise report ls urls1 w0))
      = filter is_generate (out (refine_revise report ls urls2 w0))) /\
  (forall prompt ls urls k v,
      res (writeFinalReport prompt ls urls k w) = Ok v ->
      exists refined, v = refined ++ urlsSection urls).
Proof.
  split; [|split; [|split]].
  - intros criticism qs w1 w2 r H1 H2 combined research Hr revision.
    pose proof (refine_prepare_run report initialQuery breadth w H1 H2) as Hp.
    unfold refineReport.
    erewrite bind_ok by (rewrite Hp; reflexivity).
    rewrite !Hp. cbn [res after out].
    fold combined. fold research.
    erewrite bind_ok by exact Hr. cbn [res after out].
    reflexivity.
  - intros ls urls w0. apply refine_revise_run.
  - intros ls urls1 urls2 w0. rewrite !refine_revise_run.
    destruct (generateObject_text _ w0) as [[e|revised] w'];
      repeat split.
  - intros prompt ls urls k v Hv. unfold writeFinalReport in Hv.
    apply bind_ok_inv in Hv. destruct Hv as (draft & _ & Hv).
    apply bind_ok_inv in Hv. destruct Hv as (refined & _ & Hv).
    cbn in Hv. injection Hv as <-. exists refined. reflexivity.
Qed.

Lemma refineReport_keeps_learnings_only_witness :
  let svc := scripted (reporting "http://a") in
  let combined := refine_query "topic" "criticism" ["x"] in
  res (@deepResearch _ svc combined 3 2 [] [] world0)
  = Ok (mkResearchResult ["L"] ["http://a"] [mkSerpQuery "q1" "g1"]) /\
  res (@refineReport _ svc "draft" "topic" 3 2 world0) = Ok "draft (revised)".
Proof.
  intros svc combined.
  assert (Hr : res (@deepResearch _ svc combined 3 2 [] [] world0)
               = Ok (mkResearchResult ["L"] ["http://a"]
                       [mkSerpQuery "q1" "g1"])) by reflexivity.
  split; [exact Hr|].
  destruct (@refineReport_keeps_learnings_only _ svc "draft" "topic" 3 2 world0)
    as (H & _).
  rewrite (H "criticism" ["x"] world0 world0 _ eq_refl eq_refl Hr).
  reflexivity.
Defined.

(** C7 as stated fails: in two worlds that differ only in the address of
    the page every search returns, the research of a refinement step visits
    different URLs, yet the step sends the same requests to the inference
    service and returns the same revised report; and the Sources section of
    the final report is empty although the refinement visited a URL. *)
Lemma refinement_discards_visitedUrls :
  let svcA := scripted (reporting "http://a") in
  let svcB := scripted (reporting "http://b") in
  let combined := refine_query "topic" "criticism" ["x"] in
  let stepA := @refineReport _ svcA "draft" "topic" 3 2 world0 in
  let stepB := @refineReport _ svcB "draft" "topic" 3 2 world0 in
  res (@deepResearch _ svcA combined 3 2 [] [] world0)
  = Ok (mkResearchResult ["L"] ["http://a"] [mkSerpQuery "q1" "g1"]) /\
  res (@deepResearch _ svcB combined 3 2 [] [] world0)
  = Ok (mkResearchResult ["L"] ["http://b"] [mkSerpQuery "q1" "g1"]) /\
  res stepA = Ok "draft (revised)" /\ res stepB = Ok "draft (revised)" /\
  filter is_generate (out stepA) = filter is_generate (out stepB) /\
  filter is_visited_line (out stepA)
  = [ConsoleLog (LogNewVisitedUrls 1 "http://a")] /\
  res (@writeFinalReport _ svcA "topic" ["L0"] [] 1 world0)
  = Ok "draft (revised)

## Sources

".
Proof.
  intros svcA svcB combined stepA stepB. repeat split.
Qed.

(** ** Saving the report *)

Section SaveProperties.

Context {W : Type} {svc : Services W}.

Variables (originalFileName text : string) (w : W).

Let taken (k : nat) : bool :=
  existsSync (output_path (candidate originalFileName k)) w.

Lemma save_loop_free (fuel i : nat) :
  taken i = false ->
  save_loop fuel originalFileName (candidate originalFileName i) (S i) text w
  = Out (Ok (candidate originalFileName i)) w (checks originalFileName i 1).
Proof.
  intros H. unfold taken in H.
  destruct fuel; cbn [save_loop]; unfold bind, fs_exists; cbn [res after out];
    rewrite H; reflexivity.
Qed.

Lemma save_loop_next (fuel i : nat) :
  taken i = true -> (S i < 100)%nat ->
  save_loop (S fuel) originalFileName (candidate originalFileName i) (S i)
    text w
  = let o := save_loop fuel originalFileName
               (candidate originalFileName (S i)) (S (S i)) text w in
    Out (res o) (after o) (checks originalFileName i 1 ++ out o).
Proof.
  intros H Hi. unfold taken in H.
  cbn [save_loop]. unfold bind at 1, fs_exists. cbn [res after out].
  rewrite H.
  replace (100 <? S (S i))%nat with false
    by (symmetry; apply Nat.ltb_ge; lia).
  reflexivity.
Qed.

Lemma save_loop_cap (fuel : nat) :
  taken 99 = true ->
  save_loop fuel originalFileName (candidate originalFileName 99) 100 text w
  = Out (Exited 1) w
        (checks originalFileName 99 1
         ++ [ConsoleLog (LogText text);
             ConsoleError
               (LogText "Error: Could not save report. Please try again.");
             Exit 1]).
Proof.
  intros H. unfold taken in H.
  destruct fuel; cbn [save_loop]; unfold bind at 1, fs_exists;
    cbn [res after out]; rewrite H; reflexivity.
Qed.

Lemma checks_succ (from n : nat) :
  checks originalFileName from (S n)
  = (checks originalFileName from 1 ++ checks originalFileName (S from) n)%list.
Proof. reflexivity. Qed.

Lemma save_loop_finds (k : nat) :
  forall fuel i,
    (i + k < 100)%nat -> (k <= fuel)%nat ->
    (forall j, (i <= j < i + k)%nat -> taken j = true) ->
    taken (i + k) = false ->
    save_loop fuel originalFileName (candidate originalFileName i) (S i) text w
    = Out (Ok (candidate originalFileName (i + k))) w
          (checks originalFileName i (S k)).
Proof.
  induction k as [|k IH]; intros fuel i Hi Hfuel Htaken Hfree.
  - rewrite Nat.add_0_r in *. apply save_loop_free. exact Hfree.
  - destruct fuel as [|fuel]; [lia|].
    rewrite save_loop_next by (try apply Htaken; lia).
    rewrite (IH fuel (S i)).
    + cbn [res after out]. rewrite <- checks_succ.
      replace (S i + k)%nat with (i + S k)%nat by lia. reflexivity.
    + lia.
    + lia.
    + intros j Hj. apply Htaken. lia.
    + replace (S i + k)%nat with (i + S k)%nat by lia. exact Hfree.
Qed.

Lemma save_loop_gives_up (n : nat) :
  forall fuel i,
    (i + n = 99)%nat -> (n <= fuel)%nat ->
    (forall j, (i <= j < 100)%nat -> taken j = true) ->
    save_loop fuel originalFileName (candidate originalFileName i) (S i) text w
    = Out (Exited 1) w
          (checks originalFileName i (S n)
           ++ [ConsoleLog (LogText text);
               ConsoleError
                 (LogText "Error: Could not save report. Please try again.");
               Exit 1]).
Proof.
  induction n as [|n IH]; intros fuel i Hi Hfuel Htaken.
  - rewrite Nat.add_0_r in Hi. subst i. apply save_loop_cap.
    apply Htaken. lia.
  - destruct fuel as [|fuel]; [lia|].
    rewrite save_loop_next by (try apply Htaken; lia).
    rewrite (IH fuel (S i)).
    + cbn [res after out]. rewrite app_assoc, <- checks_succ. reflexivity.
    + lia.
    + lia.
    + intros j Hj. apply Htaken. lia.
Qed.

End SaveProperties.

Lemma checks_write_nothing (originalFileName : string) (from n : nat) :
  count is_file_write (checks originalFileName from n) = 0%nat.
Proof.
  unfold count, checks. revert from.
  induction n as [|n IH]; intros from; [reflexivity|]. cbn. apply IH.
Qed.

(** C9.  The save loop checks the generated name and then the names with
    the suffixes [-1], [-2], ... in turn.  If the first free candidate is the
    [k]-th, [k < 100] (so after [k] collisions), the loop has made [k + 1]
    existence checks and the report with its metadata is written under that
    name.  If the first hundred candidates (the name and the suffixes [-1] to
    [-99]) all exist, the program has made a hundred checks, prints the
    report with its metadata to standard output, prints the error line and
    leaves the process with exit code 1, without writing a file. *)
Theorem saveReport_collision_cap {W : Type} {svc : Services W}
    (fileName report metadata : string) (w : W) :
  let taken k := existsSync (output_path (candidate fileName k)) w in
  let text := report ++ metadata in
  (forall k,
      (k < 100)%nat ->
      (forall j, (j < k)%nat -> taken j = true) ->
      taken k = false ->
      save_loop 100 fileName fileName 1 text w
      = Out (Ok (candidate fileName k)) w (checks fileName 0 (S k)) /\
      exists rest,
        out (saveReport fileName report metadata w)
        = (checks fileName 0 (S k)
           ++ FileWrite (output_path (candidate fileName k)) text :: rest)%list) /\
  ((forall j, (j < 100)%nat -> taken j = true) ->
   saveReport fileName report metadata w
   = Out (Exited 1) w
         (checks fileName 0 100
          ++ [ConsoleLog (LogText text);
              ConsoleError
                (LogText "Error: Could not save report. Please try again.");
              Exit 1]) /\
   count is_file_write (out (saveReport fileName report metadata w)) = 0%nat).
Proof.
  intros taken text. split.
  - intros k Hk Htaken Hfree.
    assert (Hloop : save_loop 100 fileName fileName 1 text w
                    = Out (Ok (candidate fileName k)) w
                        (checks fileName 0 (S k))).
    { apply (@save_loop_finds _ _ fileName text w k 100%nat 0%nat); try lia.
      - intros j Hj. apply Htaken. lia.
      - exact Hfree. }
    split; [exact Hloop|].
    unfold saveReport. fold text.
    erewrite bind_ok by (rewrite Hloop; reflexivity).
    rewrite !Hloop. cbn [res after out].
    unfold bind at 1, perform.
    destruct (fs_writeFile (output_path (candidate fileName k)) text w)
      as [[e|[]] w']; cbn; eexists; reflexivity.
  - intros Htaken.
    assert (Hloop : save_loop 100 fileName fileName 1 text w
                    = Out (Exited 1) w
                        (checks fileName 0 100
                         ++ [ConsoleLog (LogText text);
                             ConsoleError
                               (LogText "Error: Could not save report. Please try again.");
                             Exit 1])).
    { apply (@save_loop_gives_up _ _ fileName text w 99%nat 100%nat 0%nat); try lia.
      intros j Hj. apply Htaken. lia. }
    assert (Hsave : saveReport fileName report metadata w
                    = Out (Exited 1) w
                        (checks fileName 0 100
                         ++ [ConsoleLog (LogText text);
                             ConsoleError
                               (LogText "Error: Could not save report. Please try again.");
                             Exit 1])).
    { unfold saveReport. fold text. unfold bind at 1. rewrite Hloop.
      reflexivity. }
    split; [exact Hsave|].
    rewrite Hsave. cbn [out]. rewrite count_app, checks_write_nothing.
    reflexivity.
Qed.

Lemma crowded_taken (n j : nat) :
  (j < n)%nat ->
  @existsSync _ (scripted (reporting "http://a"))
    (output_path (candidate "report" j)) (crowded n) = true.
Proof.
  intros Hj. cbn [existsSync scripted]. apply existsb_eqb_In.
  unfold crowded. cbn [files].
  apply in_map with (f := fun k => output_path (candidate "report" k)).
  apply in_seq. lia.
Defined.

Lemma saveReport_collision_cap_witness :
  let svc := scripted (reporting "http://a") in
  (forall j, (j < 2)%nat ->
     @existsSync _ svc (output_path (candidate "report" j)) (crowded 2) = true) /\
  @existsSync _ svc (output_path (candidate "report" 2)) (crowded 2) = false /\
  res (@save_loop _ svc 100 "report" "report" 1 "R M" (crowded 2))
  = Ok "report-2" /\
  (forall j, (j < 100)%nat ->
     @existsSync _ svc (output_path (candidate "report" j)) (crowded 100)
     = true) /\
  res (@saveReport _ svc "report" "R" " M" (crowded 100)) = Exited 1.
Proof.
  intros svc.
  assert (H2 : forall j, (j < 2)%nat ->
             @existsSync _ svc (output_path (candidate "report" j)) (crowded 2)
             = true) by (intros j Hj; apply crowded_taken; exact Hj).
  assert (Hfree : @existsSync _ svc (output_path (candidate "report" 2))
                    (crowded 2) = false) by reflexivity.
  assert (H100 : forall j, (j < 100)%nat ->
             @existsSync _ svc (output_path (candidate "report" j))
               (crowded 100) = true)
    by (intros j Hj; apply crowded_taken; exact Hj).
  split; [exact H2|]. split; [exact Hfree|].
  destruct (@saveReport_collision_cap _ svc "report" "R" " M" (crowded 2))
    as (Hfind & _).
  destruct (Hfind 2%nat ltac:(lia) H2 Hfree) as (Hloop & _).
  split; [exact (f_equal res Hloop)|].
  split; [exact H100|].
  destruct (@saveReport_collision_cap _ svc "report" "R" " M" (crowded 100))
    as (_ & Hcap).
  destruct (Hcap H100) as (Hsave & _).
  rewrite Hsave. reflexivity.
Defined.

(** * Further properties *)

(** ** Invariants of traces *)

Section TraceLemmas.

Context {W : Type}.

Variable P : event -> Prop.

Lemma bind_trace {A B} (m : M W A) (f : A -> M W B) (w : W) :
  Forall P (out (m w)) ->
  (forall a, res (m w) = Ok a -> Forall P (out (f a (after (m w))))) ->
  Forall P (out (bind m f w)).
Proof.
  intros Hm Hf. unfold bind.
  destruct (res (m w)) as [a| | |] eqn:E; cbn [out]; try exact Hm.
  apply Forall_app. split; [exact Hm | apply Hf; reflexivity].
Qed.

Lemma all_limit1_trace {A B} (f : A -> M W B) (xs : list A) :
  (forall x w, In x xs -> Forall P (out (f x w))) ->
  forall w, Forall P (out (all_limit1 f xs w)).
Proof.
  induction xs as [|x xs IH]; intros Hf w; [constructor|].
  cbn [all_limit1]. apply bind_trace.
  - apply Hf. left. reflexivity.
  - intros y _. apply bind_trace.
    + apply IH. intros x' w' Hin. apply Hf. right. exact Hin.
    + intros ys _. constructor.
Qed.

End TraceLemmas.

Section TraceInvariant.

Context {W : Type} {svc : Services W}.

(** A family of predicates on events, indexed by the budget of the level
    that produces them, which every event of a level satisfies and which
    passes from a nested level to the level above it. *)
Variable P : Z -> Z -> event -> Prop.

Hypothesis P_sleep : forall b d ms, P b d (Sleep ms).
Hypothesis P_search : forall b d q, P b d (SearchCall q).
Hypothesis P_error : forall b d l, P b d (ConsoleError l).
Hypothesis P_retrying : forall b d q ms, P b d (ConsoleLog (LogRetrying q ms)).
Hypothesis P_created : forall b d n qs, P b d (ConsoleLog (LogCreatedQueries n qs)).
Hypothesis P_ran : forall b d q n, P b d (ConsoleLog (LogRan q n)).
Hypothesis P_learnt : forall b d n ls, P b d (ConsoleLog (LogCreatedLearnings n ls)).
Hypothesis P_distil :
  forall b d q n1 c n2, P b d (Generate (LearningsPrompt q n1 c n2)).
Hypothesis P_expand :
  forall b d q ls, P b d (Generate (SerpQueriesPrompt q b ls)).
Hypothesis P_deeper :
  forall b d, 0 < d - 1 ->
    P b d (ConsoleLog (LogResearchingDeeper (newBreadth b) (d - 1))).
Hypothesis P_up :
  forall b d ev, 0 < d - 1 -> P (newBreadth b) (d - 1) ev -> P b d ev.

Lemma retry_loop_invariant (b d : Z) (q : string) (n : nat) :
  forall (backoff : Z) (w : W), Forall (P b d) (out (retry_loop n q backoff w)).
Proof.
  induction n as [|n IH]; intros backoff w; [constructor|].
  destruct (firecrawl_search q w) as [[e|r] w1] eqn:Hs.
  - destruct n as [|n].
    + erewrite retry_loop_gives_up by exact Hs. cbn [out].
      repeat constructor; auto.
    + erewrite retry_loop_retries by exact Hs. cbn [out].
      apply Forall_app. split; [repeat constructor; auto | apply IH].
  - erewrite retry_loop_returns by exact Hs. cbn [out].
    repeat constructor; auto.
Qed.

Lemma generateSerpQueries_invariant (b d : Z) (q : string)
    (ls : option (list string)) (w : W) :
  Forall (P b d) (out (generateSerpQueries q b ls w)).
Proof.
  rewrite generateSerpQueries_run.
  destruct (generateObject_queries _ w) as [[e|qs] w']; cbn [out];
    repeat constructor; auto.
Qed.

Lemma processSerpResult_invariant (b d : Z) (q : string) (r : SearchResponse)
    (n1 n2 : Z) (w : W) :
  Forall (P b d) (out (processSerpResult q r n1 n2 w)).
Proof.
  unfold processSerpResult, bind, perform, console_log, emit, ret. cbn.
  destruct (generateObject_learnings _ w) as [[e|o] w']; cbn;
    repeat constructor; auto.
Qed.

Lemma researchBranch_invariant (self : Call -> M W ResearchResult)
    (Q : list SerpQuery) (b d : Z) (ls urls : list string) (sq : SerpQuery)
    (w : W) :
  (0 < d - 1 ->
   forall c w', c_breadth c = newBreadth b -> c_depth c = d - 1 ->
                Forall (P (newBreadth b) (d - 1)) (out (self c w'))) ->
  Forall (P b d) (out (researchBranch self Q b d ls urls sq w)).
Proof.
  intros Hself.
  pose proof (retry_loop_invariant b d (query sq) MAX_RETRIES
                INITIAL_BACKOFF w) as Hr.
  fold (firecrawlSearchWithRetry (query sq) MAX_RETRIES) in Hr.
  destruct (firecrawlSearchWithRetry_settles (query sq) MAX_RETRIES w)
    as [[result H1]|[e H1]].
  - pose proof (processSerpResult_invariant b d (query sq) result 3
                  (newBreadth b)
                  (after (firecrawlSearchWithRetry (query sq) MAX_RETRIES w)))
      as Hd.
    destruct (processSerpResult_settles (query sq) result 3 (newBreadth b)
                (after (firecrawlSearchWithRetry (query sq) MAX_RETRIES w)))
      as [[dist H2]|[e H2]].
    + destruct (Z_lt_le_dec 0 (newDepth d)) as [Hlt|Hle].
      * rewrite (branch_recurses self Q b d ls urls sq w H1 H2 Hlt).
        cbn [out]. unfold newDepth in *.
        apply Forall_app. split; [apply Forall_app; split;
          [exact Hr | apply Forall_app; split; [exact Hd|]]|].
        -- constructor; [apply P_deeper; exact Hlt | constructor].
        -- eapply Forall_impl; [exact (fun ev => @P_up b d ev Hlt)|].
           apply Hself; [exact Hlt | reflexivity | reflexivity].
      * rewrite (branch_stops self Q b d ls urls sq w H1 H2 Hle).
        cbn [out]. apply Forall_app. split; assumption.
    + rewrite (branch_distillation_throws self Q b d ls urls sq w H1 H2).
      cbn [out]. apply Forall_app. split; [apply Forall_app; split;
        [exact Hr | exact Hd]|].
      constructor; [apply P_error | constructor].
  - rewrite (branch_retrieval_throws self Q b d ls urls sq w H1).
    cbn [out]. apply Forall_app. split; [exact Hr|].
    constructor; [apply P_error | constructor].
Qed.

Lemma deepResearch_level_invariant (self : Call -> M W ResearchResult)
    (q : string) (b d : Z) (ls urls : list string) (w : W) :
  (0 < d - 1 ->
   forall c w', c_breadth c = newBreadth b -> c_depth c = d - 1 ->
                Forall (P (newBreadth b) (d - 1)) (out (self c w'))) ->
  Forall (P b d) (out (deepResearch_level self q b d ls urls w)).
Proof.
  intros Hself. unfold deepResearch_level. apply bind_trace.
  - apply generateSerpQueries_invariant.
  - intros Q _. apply bind_trace.
    + apply all_limit1_trace. intros sq w' _.
      apply researchBranch_invariant. exact Hself.
    + intros results _. constructor.
Qed.

Lemma deepResearch_fuel_invariant (fuel : nat) :
  forall (c : Call) (w : W),
    Forall (P (c_breadth c) (c_depth c)) (out (deepResearch_fuel fuel c w)).
Proof.
  induction fuel as [|fuel IH]; intros c w;
    rewrite deepResearch_fuel_unfold; apply deepResearch_level_invariant;
    intros Hd c' w' Hb Hc.
  - constructor.
  - rewrite <- Hb, <- Hc. apply IH.
Qed.

Lemma deepResearch_invariant (q : string) (b d : Z) (ls urls : list string)
    (w : W) :
  Forall (P b d) (out (deepResearch q b d ls urls w)).
Proof.
  unfold deepResearch.
  apply (deepResearch_fuel_invariant (Z.to_nat d) (mkCall q b d ls urls) w).
Qed.

End TraceInvariant.

(** ** What a research run does and asks for *)

Lemma newBreadth_bounds (b : Z) : 1 <= b -> 1 <= newBreadth b <= b.
Proof. intros H. pose proof (newBreadth_is_ceiling b). lia. Qed.

Lemma halved_bounds (k : nat) (b : Z) : 1 <= b -> 1 <= halved k b <= b.
Proof.
  intros H. induction k as [|k IH]; [cbn; lia|].
  change (halved (S k) b) with (newBreadth (halved k b)).
  pose proof (newBreadth_bounds (proj1 IH)). lia.
Qed.

Lemma halved_shift (k : nat) (b : Z) :
  halved k (newBreadth b) = halved (S k) b.
Proof. unfold halved. rewrite Nat.iter_succ_r. reflexivity. Qed.

Lemma within_budget_up (b d : Z) (ev : event) :
  0 < d - 1 -> within_budget (newBreadth b) (d - 1) ev -> within_budget b d ev.
Proof.
  intros Hd. destruct ev as [| |p|l| | | | | |]; try exact (fun H => H).
  - destruct p; try exact (fun H => H). cbn.
    intros (k & Hk & ->). exists (S k). rewrite halved_shift. split; [lia|].
    reflexivity.
  - destruct l; try exact (fun H => H). cbn.
    intros (k & Hk & -> & -> & Hpos). exists (S k). rewrite halved_shift.
    repeat split; lia.
Qed.

Section Budget.

Context {W : Type} {svc : Services W}.

Lemma deepResearch_within_budget (q : string) (b d : Z) (ls urls : list string)
    (w : W) :
  Forall (within_budget b d) (out (deepResearch q b d ls urls w)).
Proof.
  apply (deepResearch_invariant within_budget); try (intros; exact I).
  - intros b0 d0 q0 ls0. exists 0%nat. split; [lia | reflexivity].
  - intros b0 d0 Hd. exists 1%nat. repeat split; lia.
  - exact within_budget_up.
Qed.

Lemma deepResearch_research_events (q : string) (b d : Z)
    (ls urls : list string) (w : W) :
  Forall research_event (out (deepResearch q b d ls urls w)).
Proof.
  apply (deepResearch_invariant (fun _ _ => research_event));
    intros; try exact I; assumption.
Qed.

End Budget.

Lemma expansion_breadths_Forall (R : Z -> Prop) (tr : list event) :
  Forall (fun ev => match ev with
                    | Generate (SerpQueriesPrompt _ n _) => R n
                    | _ => True
                    end) tr ->
  Forall R (expansion_breadths tr).
Proof.
  induction 1 as [|ev tr Hev _ IH]; [constructor|].
  destruct ev as [| |p| | | | | | |]; cbn; try exact IH.
  destruct p; cbn; try exact IH. constructor; assumption.
Qed.

Lemma deeper_budgets_Forall (R : Z * Z -> Prop) (tr : list event) :
  Forall (fun ev => match ev with
                    | ConsoleLog (LogResearchingDeeper b d) => R (b, d)
                    | _ => True
                    end) tr ->
  Forall R (deeper_budgets tr).
Proof.
  induction 1 as [|ev tr Hev _ IH]; [constructor|].
  destruct ev as [| | |l| | | | | |]; cbn; try exact IH.
  destruct l; cbn; try exact IH. constructor; assumption.
Qed.

Lemma count_zero_of_Forall (p : event -> bool) (R : event -> Prop)
    (tr : list event) :
  (forall ev, R ev -> p ev = false) -> Forall R tr -> count p tr = 0%nat.
Proof.
  intros Hp. unfold count. induction 1 as [|ev tr Hev _ IH]; [reflexivity|].
  cbn. rewrite (Hp ev Hev). exact IH.
Qed.

(** X1.  A research run, whatever its inputs and the world, produces only
    waits, searches, expansion and distillation requests and console lines:
    it makes no file operation, asks for no report, criticism, question or
    revision, and does not leave the process; it returns or throws. *)
Theorem deepResearch_only_researches {W : Type} {svc : Services W}
    (q : string) (b d : Z) (ls urls : list string) (w : W) :
  let o := deepResearch q b d ls urls w in
  Forall research_event (out o) /\
  count is_file_write (out o) = 0%nat /\
  count is_report (out o) = 0%nat /\
  count is_criticism (out o) = 0%nat /\
  count is_revision (out o) = 0%nat /\
  (forall code, res o <> Exited code) /\
  res o <> OutOfFuel.
Proof.
  intros o. pose proof (deepResearch_research_events q b d ls urls w) as H.
  fold o in H. split; [exact H|].
  assert (Hc : forall p, (forall ev, research_event ev -> p ev = false) ->
                         count p (out o) = 0%nat).
  { intros p Hp. exact (count_zero_of_Forall p Hp H). }
  repeat split.
  - apply Hc. intros [| |[]| | | | | | |]; cbn; tauto.
  - apply Hc. intros [| |[]| | | | | | |]; cbn; tauto.
  - apply Hc. intros [| |[]| | | | | | |]; cbn; tauto.
  - apply Hc. intros [| |[]| | | | | | |]; cbn; tauto.
  - intros code Hx. destruct (deepResearch_settles q b d ls urls w)
      as [[r Hr]|[e He]]; fold o in Hr || fold o in He; congruence.
  - intros Hx. destruct (deepResearch_settles q b d ls urls w)
      as [[r Hr]|[e He]]; fold o in Hr || fold o in He; congruence.
Qed.

(** X2.  In a run started with the budget [(breadth, depth)], every
    expansion asks for [breadth] halved (rounding up) [k] times for some
    nesting [k] below [max 1 depth], and every announced budget is the one
    of a nesting [k >= 1] with a positive depth left.  So with
    [breadth >= 1] every expansion asks for between 1 and [breadth]
    sub-queries and every announced depth is between 1 and [depth - 1];
    with [depth <= 1] nothing is announced and every expansion asks for
    [breadth] itself. *)
Theorem deepResearch_stays_within_budget {W : Type} {svc : Services W}
    (q : string) (breadth depth : Z) (ls urls : list string) (w : W) :
  let o := deepResearch q breadth depth ls urls w in
  Forall (within_budget breadth depth) (out o) /\
  (1 <= breadth ->
   Forall (fun n => 1 <= n <= breadth) (expansion_breadths (out o)) /\
   Forall (fun bd => 1 <= fst bd <= breadth /\ 1 <= snd bd < depth)
          (deeper_budgets (out o))) /\
  (depth <= 1 ->
   Forall (fun n => n = breadth) (expansion_breadths (out o)) /\
   deeper_budgets (out o) = []).
Proof.
  intros o. pose proof (deepResearch_within_budget q breadth depth ls urls w)
    as H. fold o in H.
  split; [exact H|]. split.
  - intros Hb. split.
    + apply expansion_breadths_Forall. eapply Forall_impl; [|exact H].
      intros [| |[]| | | | | | |]; cbn; auto.
      intros (k & _ & ->). apply halved_bounds. exact Hb.
    + apply deeper_budgets_Forall. eapply Forall_impl; [|exact H].
      intros [| | |[]| | | | | |]; cbn; auto.
      intros (k & Hk & -> & -> & Hpos).
      pose proof (halved_bounds k Hb). lia.
  - intros Hd. split.
    + apply expansion_breadths_Forall. eapply Forall_impl; [|exact H].
      intros [| |[]| | | | | | |]; cbn; auto.
      intros (k & Hk & ->). replace k with 0%nat by lia. reflexivity.
    + assert (Hnone : Forall (fun _ : Z * Z => False) (deeper_budgets (out o))).
      { apply deeper_budgets_Forall. eapply Forall_impl; [|exact H].
        intros [| | |[]| | | | | |]; cbn; auto.
        intros (k & Hk & _ & -> & Hpos). lia. }
      destruct (deeper_budgets (out o)) as [|bd rest]; [reflexivity|].
      inversion Hnone; contradiction.
Qed.

Lemma deepResearch_stays_within_budget_witness :
  let o := @deepResearch _ (scripted same_page) "topic" 5 3 [] [] world0 in
  1 <= 5 /\
  expansion_breadths (out o) = [5; 3; 2; 2; 3; 2; 2] /\
  deeper_budgets (out o) = [(3, 2); (2, 1); (2, 1); (3, 2); (2, 1); (2, 1)] /\
  Forall (fun n => 1 <= n <= 5) (expansion_breadths (out o)) /\
  Forall (fun bd => 1 <= fst bd <= 5 /\ 1 <= snd bd < 3) (deeper_budgets (out o)).
Proof.
  intros o. assert (H5 : 1 <= 5) by lia.
  split; [exact H5|]. split; [reflexivity|]. split; [reflexivity|].
  destruct (@deepResearch_stays_within_budget _ (scripted same_page)
              "topic" 5 3 [] [] world0) as (_ & H & _).
  exact (H H5).
Defined.

(** ** Where the results of a run come from *)


Section Returns.

Context {W : Type} {svc : Services W}.



Lemma branch_returns (self : Call -> M W ResearchResult)
    (Q : list SerpQuery) (b d : Z) (ls urls : list string) (sq : SerpQuery)
    (w : W) (r : ResearchResult) :
  res (researchBranch self Q b d ls urls sq w) = Ok r ->
  r = emptyResult \/
  exists result dist,
    let retrieval := firecrawlSearchWithRetry (query sq) MAX_RETRIES w in
    let distillation :=
      processSerpResult (query sq) result 3 (newBreadth b) (after retrieval) in
    res retrieval = Ok result /\
    res distillation = Ok dist /\
    ((newDepth d <= 0 /\
      r = mkResearchResult (ls ++ d_learnings dist)
            (urls ++ compact (map url (data result))) Q) \/
     (0 < newDepth d /\
      res (self (mkCall (trim (nextQuery_raw (researchGoal sq)
                                             (followUpQuestions dist)))
                   (newBreadth b) (newDepth d) (ls ++ d_learnings dist)
                   (urls ++ compact (map url (data result))))
             (after distillation)) = Ok r)).
Proof.
  intros H.
  destruct (firecrawlSearchWithRetry_settles (query sq) MAX_RETRIES w)
    as [[result H1]|[e H1]].
  - destruct (processSerpResult_settles (query sq) result 3 (newBreadth b)
                (after (firecrawlSearchWithRetry (query sq) MAX_RETRIES w)))
      as [[dist H2]|[e H2]].
    + right. exists result, dist. cbv zeta.
      split; [exact H1|]. split; [exact H2|].
      destruct (Z_lt_le_dec 0 (newDepth d)) as [Hlt|Hle].
      * right. split; [exact Hlt|].
        rewrite (branch_recurses self Q b d ls urls sq w H1 H2 Hlt) in H.
        exact H.
      * left. split; [exact Hle|].
        rewrite (branch_stops self Q b d ls urls sq w H1 H2 Hle) in H.
        cbn in H. congruence.
    + left.
      rewrite (branch_distillation_throws self Q b d ls urls sq w H1 H2) in H.
      cbn in H. congruence.
  - left. rewrite (branch_retrieval_throws self Q b d ls urls sq w H1) in H.
    cbn in H. congruence.
Qed.

Lemma all_limit1_results {A B} (f : A -> M W B) (xs : list A) :
  forall (w : W) (ys : list B),
    res (all_limit1 f xs w) = Ok ys ->
    forall y, In y ys -> exists x w', In x xs /\ res (f x w') = Ok y.
Proof.
  induction xs as [|x xs IH]; intros w ys H y Hy.
  - cbn in H. injection H as <-. contradiction.
  - destruct (all_limit1_cons_inv f x xs w H) as (y0 & ys' & Hy0 & Hys & _).
    rewrite (all_limit1_cons_ok f x xs w Hy0) in H. cbn in H.
    rewrite Hys in H. cbn in H. injection H as <-.
    destruct Hy as [<-|Hy].
    + exists x, w. split; [left; reflexivity | exact Hy0].
    + destruct (IH _ _ Hys y Hy) as (x' & w' & Hin & Hres).
      exists x', w'. split; [right; exact Hin | exact Hres].
Qed.

(** What a level returns is drawn from what its branches returned. *)
Lemma level_result_from_branches (self : Call -> M W ResearchResult)
    (q : string) (b d : Z) (ls urls : list string) (w : W)
    (r : ResearchResult) :
  res (deepResearch_level self q b d ls urls w) = Ok r ->
  exists Q results,
    queries r = Q /\
    res (generateSerpQueries q b (Some ls) w) = Ok Q /\
    learnings r = spread_set (flat_map learnings results) /\
    visitedUrls r = spread_set (flat_map visitedUrls results) /\
    forall br, In br results ->
      exists sq w', In sq Q /\
        res (researchBranch self Q b d ls urls sq w') = Ok br.
Proof.
  intros H. destruct (level_returns self q b d ls urls w H)
    as (Q & results & HQ & Hres & ->).
  exists Q, results. repeat split; try assumption.
  intros br Hbr. exact (all_limit1_results _ _ _ Hres br Hbr).
Qed.

End Returns.

Lemma flat_map_nonempty {A B} (f : A -> list B) (xs : list A) :
  flat_map f xs <> [] -> exists x, In x xs /\ f x <> [].
Proof.
  induction xs as [|x xs IH]; cbn; [congruence|].
  destruct (f x) as [|y ys] eqn:E.
  - cbn. intros H. destruct (IH H) as (x' & Hin & Hne).
    exists x'. split; [right; exact Hin | exact Hne].
  - intros _. exists x. split; [left; reflexivity | congruence].
Qed.

Lemma spread_set_nonempty (xs : list string) : spread_set xs <> [] -> xs <> [].
Proof. intros H Hxs. subst xs. apply H. reflexivity. Qed.

Lemma slice0_nonneg {A} (n : Z) (xs : list A) :
  0 <= n -> slice0 n xs = firstn (Z.to_nat n) xs.
Proof.
  intros H. unfold slice0.
  replace (n <? 0) with false by (symmetry; apply Z.ltb_ge; lia). reflexivity.
Qed.

Section ResultProperties.

Context {W : Type} {svc : Services W}.




Lemma kept_branch (self : Call -> M W ResearchResult)
    (Q : list SerpQuery) (b d : Z) (ls urls : list string) (sq : SerpQuery)
    (w : W) (br : ResearchResult) :
  (forall c w' r, res (self c w') = Ok r ->
                  kept (c_learnings c) (c_visitedUrls c) r) ->
  res (researchBranch self Q b d ls urls sq w) = Ok br ->
  kept ls urls br.
Proof.
  intros Hself Hres.
  destruct (branch_returns _ _ _ _ _ _ _ _ Hres)
    as [->|(result & dist & _ & _ & [[_ ->]|[_ Hrec]])].
  - split; intros H; contradiction H; reflexivity.
  - split; intros _; cbn [learnings visitedUrls]; apply incl_appl, incl_refl.
  - destruct (Hself _ _ _ Hrec) as [Hl Hu].
    cbn [c_learnings c_visitedUrls] in Hl, Hu.
    split; intros Hne x Hx; [apply (Hl Hne) | apply (Hu Hne)];
      apply in_or_app; left; exact Hx.
Qed.

Lemma kept_level (self : Call -> M W ResearchResult)
    (q : string) (b d : Z) (ls urls : list string) (w : W)
    (r : ResearchResult) :
  (forall c w' r', res (self c w') = Ok r' ->
                   kept (c_learnings c) (c_visitedUrls c) r') ->
  res (deepResearch_level self q b d ls urls w) = Ok r ->
  kept ls urls r.
Proof.
  intros Hself H.
  destruct (level_result_from_branches _ _ _ _ _ _ _ H)
    as (Q & results & _ & _ & Hl & Hu & Hbr).
  split; intros Hne x Hx; [rewrite Hl in * | rewrite Hu in *];
    apply spread_set_nonempty, flat_map_nonempty in Hne;
    destruct Hne as (br & Hin & Hbne);
    destruct (Hbr br Hin) as (sq & w' & _ & Hres);
    destruct (kept_branch _ _ _ _ _ _ _ _ Hself Hres) as [Kl Ku];
    apply spread_set_In, in_flat_map; exists br; (split; [exact Hin|]);
    first [apply (Kl Hbne) | apply (Ku Hbne)]; exact Hx.
Qed.

Lemma kept_fuel (fuel : nat) :
  forall (c : Call) (w : W) (r : ResearchResult),
    res (deepResearch_fuel fuel c w) = Ok r ->
    kept (c_learnings c) (c_visitedUrls c) r.
Proof.
  induction fuel as [|fuel IH]; intros c w r H;
    rewrite deepResearch_fuel_unfold in H;
    eapply kept_level; try exact H.
  - intros c' w' r' Hr. discriminate Hr.
  - exact IH.
Qed.


(** X4.  The carried-in accumulators come back all or not at all: if a
    run returns any learning, it returns every carried-in learning, and if it
    returns any URL, it returns every carried-in URL. *)
Theorem deepResearch_keeps_all_or_nothing
    (q : string) (b d : Z) (ls urls : list string) (w : W)
    (r : ResearchResult) :
  res (deepResearch q b d ls urls w) = Ok r ->
  (learnings r <> [] -> incl ls (learnings r)) /\
  (visitedUrls r <> [] -> incl urls (visitedUrls r)).
Proof.
  intros H. exact (kept_fuel _ _ _ H).
Qed.

(** X5.  The [queries] a run returns are those of its first level only:
    the answer of the first expansion request, cut by [slice(0, breadth)].
    With [breadth >= 0] they are the first [breadth] of that answer at most;
    with [breadth = 0] there is none and the result is empty; with a negative
    [breadth] they are the answer without its last [-breadth] entries. *)
Theorem deepResearch_queries_are_first_level
    (q : string) (b d : Z) (ls urls : list string) (w : W)
    (r : ResearchResult) :
  res (deepResearch q b d ls urls w) = Ok r ->
  exists qs w',
    generateObject_queries
      (SerpQueriesPrompt q b (Some (join "
" ls))) w = (inr qs, w') /\
    queries r = slice0 b qs /\
    (0 <= b ->
     queries r = firstn (Z.to_nat b) qs /\
     (length (queries r) <= Z.to_nat b)%nat) /\
    (b = 0 -> r = emptyResult) /\
    (b < 0 ->
     queries r = firstn (length qs - Z.to_nat (- b)) qs).
Proof.
  intros H. unfold deepResearch in H. rewrite deepResearch_fuel_unfold in H.
  cbn [c_query c_breadth c_depth c_learnings c_visitedUrls] in H.
  destruct (level_returns _ _ _ _ _ _ _ H) as (Q & results & HQ & Hres & ->).
  rewrite generateSerpQueries_run in HQ. cbn [option_map] in HQ.
  destruct (generateObject_queries _ w) as [[e|qs] w'] eqn:Hg;
    [discriminate|].
  cbn in HQ. injection HQ as <-. exists qs, w'. cbn [queries].
  split; [reflexivity|]. split; [reflexivity|]. split; [|split].
  - intros Hb. rewrite slice0_nonneg by exact Hb.
    split; [reflexivity|]. rewrite length_firstn. lia.
  - intros ->. cbn in Hres. injection Hres as <-. reflexivity.
  - intros Hb. unfold slice0.
    replace (b <? 0) with true by (symmetry; apply Z.ltb_lt; exact Hb).
    f_equal. lia.
Qed.

End ResultProperties.


Lemma deepResearch_keeps_all_or_nothing_witness :
  let svc := scripted same_page in
  let r := mkResearchResult ["old"; "L"] ["http://old"; "http://a"]
             [mkSerpQuery "q1" "g1"; mkSerpQuery "q2" "g2"] in
  res (@deepResearch _ svc "topic" 2 1 ["old"] ["http://old"] world0) = Ok r /\
  incl ["old"] (learnings r) /\ incl ["http://old"] (visitedUrls r).
Proof.
  intros svc r.
  assert (H : res (@deepResearch _ svc "topic" 2 1 ["old"] ["http://old"]
                     world0) = Ok r) by reflexivity.
  split; [exact H|].
  destruct (@deepResearch_keeps_all_or_nothing _ svc _ _ _ _ _ _ _ H)
    as [Hl Hu].
  split; [apply Hl | apply Hu]; discriminate.
Defined.

Lemma deepResearch_queries_are_first_level_witness :
  let svc := scripted same_page in
  let r := mkResearchResult ["L"] ["http://a"] [mkSerpQuery "q1" "g1"] in
  res (@deepResearch _ svc "topic" 1 2 [] [] world0) = Ok r /\
  0 <= 1 /\ (length (queries r) <= Z.to_nat 1)%nat.
Proof.
  intros svc r.
  assert (H : res (@deepResearch _ svc "topic" 1 2 [] [] world0) = Ok r)
    by reflexivity.
  split; [exact H|]. split; [lia|].
  destruct (@deepResearch_queries_are_first_level _ svc _ _ _ _ _ _ _ H)
    as (qs & w' & _ & _ & Hb & _).
  exact (proj2 (Hb ltac:(lia))).
Defined.

(** ** More on retry-wrapped retrieval *)

Lemma total_wait_waits (m : nat) :
  forall b, fold_right Z.add 0 (waits b m)
            = (Z.of_nat m + 1) * INITIAL_BACKOFF + b * (2 ^ Z.of_nat m - 1).
Proof.
  induction m as [|m IH]; intros b.
  - unfold waits. cbn [seq flat_map app fold_right Z.of_nat].
    rewrite Z.pow_0_r. change ([] ++ [INITIAL_BACKOFF])%list
      with [INITIAL_BACKOFF]. cbn [fold_right]. lia.
  - rewrite waits_succ. cbn [fold_right]. rewrite IH.
    rewrite Nat2Z.inj_succ, Z.pow_succ_r by lia. ring.
Qed.

Lemma last_app_nonempty {A} (l1 l2 : list A) (d : A) :
  l2 <> [] -> last (l1 ++ l2) d = last l2 d.
Proof.
  intros H. induction l1 as [|x l1 IH]; [reflexivity|].
  change ((x :: l1) ++ l2)%list with (x :: (l1 ++ l2))%list.
  cbn [last]. destruct (l1 ++ l2)%list eqn:E.
  - apply app_eq_nil in E. destruct E as [_ E]. contradiction.
  - exact IH.
Qed.

Section RetryMore.

Context {W : Type} {svc : Services W}.

Lemma retry_loop_after_failures (q : string) (r : SearchResponse) (w_end : W)
    (k : nat) :
  forall n b w,
    (k <= n)%nat ->
    fails_then_returns k q w r w_end ->
    let o := retry_loop (S n) q b w in
    res o = Ok r /\ after o = w_end /\
    count is_search (out o) = S k /\
    retry_delays (out o) = doubling b k /\
    sleeps (out o) = waits b k.
Proof.
  induction k as [|k IH]; intros n b w Hk H o; subst o.
  - cbn in H. erewrite retry_loop_returns by exact H. repeat split.
  - destruct H as (e & w1 & Hs & H). destruct n as [|n]; [lia|].
    erewrite retry_loop_retries by exact Hs.
    assert (Hkn : (k <= n)%nat) by lia.
    destruct (IH n (b * 2) w1 Hkn H) as (Hr & Ha & Hc & Hd & Hw).
    cbn [res after out].
    split; [exact Hr|]. split; [exact Ha|]. split; [|split].
    + unfold count in *. cbn -[retry_loop]. rewrite Hc. reflexivity.
    + cbn -[retry_loop doubling]. rewrite Hd, doubling_succ. reflexivity.
    + cbn -[retry_loop waits INITIAL_BACKOFF]. rewrite Hw, waits_succ.
      reflexivity.
Qed.

Lemma retry_loop_exhausted (q : string) (e : exn) (w_end : W) (n : nat) :
  forall b w,
    all_fail (S n) q w e w_end ->
    let o := retry_loop (S n) q b w in
    res o = Throw e /\ after o = w_end /\
    count is_search (out o) = S n /\
    retry_delays (out o) = doubling b n /\
    last (out o) (Sleep 0) = ConsoleError (query_error_line q e).
Proof.
  induction n as [|n IH]; intros b w H o; subst o.
  - cbn in H. erewrite retry_loop_gives_up by exact H. repeat split.
  - destruct H as (e1 & w1 & Hs & H).
    erewrite retry_loop_retries by exact Hs.
    destruct (IH (b * 2) w1 H) as (Hr & Ha & Hc & Hd & Hl).
    cbn [res after out].
    split; [exact Hr|]. split; [exact Ha|]. split; [|split].
    + unfold count in *. cbn -[retry_loop]. rewrite Hc. reflexivity.
    + cbn -[retry_loop doubling]. rewrite Hd, doubling_succ. reflexivity.
    + rewrite last_app_nonempty; [exact Hl|].
      intros Hnil. rewrite Hnil in Hl. discriminate Hl.
Qed.

Lemma retry_loop_throws_only_exhausted (q : string) (n : nat) :
  forall b w e,
    res (retry_loop (S n) q b w) = Throw e ->
    all_fail (S n) q w e (after (retry_loop (S n) q b w)).
Proof.
  induction n as [|n IH]; intros b w e H.
  - destruct (firecrawl_search q w) as [[e1|r] w1] eqn:Hs.
    + erewrite retry_loop_gives_up in * by exact Hs. cbn in *.
      injection H as <-. exact Hs.
    + erewrite retry_loop_returns in H by exact Hs. discriminate.
  - destruct (firecrawl_search q w) as [[e1|r] w1] eqn:Hs.
    + erewrite retry_loop_retries in * by exact Hs. cbn [res after] in *.
      exists e1, w1. split; [exact Hs|]. apply IH. exact H.
    + erewrite retry_loop_returns in H by exact Hs. discriminate.
Qed.

(** X6.  If the first [k] searches fail and the next one returns, with
    [k] below the number of allowed attempts, retrieval returns that response
    at once: it has made [k + 1] searches and no more, and has announced and
    waited the [k] delays [INITIAL_BACKOFF * 2^j], [j < k]. *)
Theorem firecrawlSearchWithRetry_returns_first_success
    (q : string) (retries k : nat) (w w_end : W) (r : SearchResponse) :
  (k < retries)%nat ->
  fails_then_returns k q w r w_end ->
  let o := firecrawlSearchWithRetry q retries w in
  res o = Ok r /\ after o = w_end /\
  count is_search (out o) = S k /\
  retry_delays (out o) = doubling INITIAL_BACKOFF k /\
  sleeps (out o) = waits INITIAL_BACKOFF k.
Proof.
  intros Hk H. destruct retries as [|n]; [lia|].
  unfold firecrawlSearchWithRetry.
  apply retry_loop_after_failures; [lia | exact H].
Qed.

(** X7.  Retrieval throws exactly when every one of its [retries >= 1]
    searches failed, and what it throws is the error of the last search,
    which is also the last thing it printed; it has then made [retries]
    searches.  With [retries = 0] it throws [Failed to run query: ...]
    without searching or waiting. *)
Theorem firecrawlSearchWithRetry_throws_last_error
    (q : string) (retries : nat) (w : W) (e : exn) :
  let o := firecrawlSearchWithRetry q retries w in
  ((1 <= retries)%nat ->
   (res o = Throw e <-> all_fail retries q w e (after o)) /\
   (res o = Throw e ->
    count is_search (out o) = retries /\
    last (out o) (Sleep 0) = ConsoleError (query_error_line q e))) /\
  (retries = 0%nat ->
   o = Out (Throw (mkExn (Some ("Failed to run query: " ++ q)))) w []).
Proof.
  intros o. subst o. unfold firecrawlSearchWithRetry. split.
  - intros Hr. destruct retries as [|n]; [lia|].
    assert (Hiff : res (retry_loop (S n) q INITIAL_BACKOFF w) = Throw e ->
                   all_fail (S n) q w e
                     (after (retry_loop (S n) q INITIAL_BACKOFF w))).
    { apply retry_loop_throws_only_exhausted. }
    split.
    + split; [exact Hiff|]. intros H.
      apply (retry_loop_exhausted q e _ n INITIAL_BACKOFF w H).
    + intros H.
      destruct (retry_loop_exhausted q e _ n INITIAL_BACKOFF w (Hiff H))
        as (_ & _ & Hc & _ & Hl).
      split; assumption.
  - intros ->. reflexivity.
Qed.

(** X8.  Whatever the world, a retrieval with [retries >= 1] allowed
    attempts spends at most
    [INITIAL_BACKOFF * (retries - 1 + 2 ^ (retries - 1))] milliseconds
    waiting, and exactly that when it throws: 100 seconds with the
    program's five attempts. *)
Theorem firecrawlSearchWithRetry_total_wait
    (q : string) (retries : nat) (w : W) :
  (1 <= retries)%nat ->
  let o := firecrawlSearchWithRetry q retries w in
  let bound :=
    INITIAL_BACKOFF * (Z.of_nat (retries - 1) + 2 ^ Z.of_nat (retries - 1)) in
  total_wait (out o) <= bound /\
  (forall e, res o = Throw e -> total_wait (out o) = bound) /\
  (retries = MAX_RETRIES -> bound = 100000).
Proof.
  intros Hr o bound. subst o bound. destruct retries as [|n]; [lia|].
  replace (S n - 1)%nat with n by lia.
  unfold firecrawlSearchWithRetry, total_wait.
  destruct (retry_loop_trace q n INITIAL_BACKOFF w)
    as (m & rest & Hm & _ & _ & Hw & _ & Ht & _).
  rewrite Hw, total_wait_waits.
  assert (Hpow : 2 ^ Z.of_nat m <= 2 ^ Z.of_nat n)
    by (apply Z.pow_le_mono_r; lia).
  unfold INITIAL_BACKOFF. repeat split.
  - nia.
  - intros e He. rewrite (Ht e He). ring.
  - unfold MAX_RETRIES. intros H. injection H as ->. reflexivity.
Qed.

End RetryMore.

Lemma flaky_search_recovers :
  @fails_then_returns _ (scripted flaky_search) 2 "q" world0 page_a
    (mkTestWorld 3 []).
Proof.
  cbn. eexists. eexists. split; [reflexivity|].
  eexists. eexists. split; reflexivity.
Defined.

Lemma firecrawlSearchWithRetry_returns_first_success_witness :
  let o := @firecrawlSearchWithRetry _ (scripted flaky_search) "q"
             MAX_RETRIES world0 in
  (2 < MAX_RETRIES)%nat /\
  @fails_then_returns _ (scripted flaky_search) 2 "q" world0 page_a
    (mkTestWorld 3 []) /\
  res o = Ok page_a /\
  count is_search (out o) = 3%nat /\
  retry_delays (out o) = [5000; 10000].
Proof.
  intros o. assert (H2 : (2 < MAX_RETRIES)%nat) by (unfold MAX_RETRIES; lia).
  split; [exact H2|]. split; [exact flaky_search_recovers|].
  destruct (@firecrawlSearchWithRetry_returns_first_success _
              (scripted flaky_search) "q" MAX_RETRIES 2 world0 _ page_a
              H2 flaky_search_recovers) as (Hr & _ & Hc & Hd & _).
  split; [exact Hr|]. split; [exact Hc | exact Hd].
Defined.

Lemma firecrawlSearchWithRetry_throws_last_error_witness :
  let o := @firecrawlSearchWithRetry _ (scripted failing_search) "q"
             MAX_RETRIES world0 in
  (1 <= MAX_RETRIES)%nat /\
  res o = Throw timeout_error /\
  count is_search (out o) = MAX_RETRIES /\
  last (out o) (Sleep 0) = ConsoleError (LogTimeoutError "q" timeout_error).
Proof.
  intros o. assert (H1 : (1 <= MAX_RETRIES)%nat) by (unfold MAX_RETRIES; lia).
  assert (Hr : res o = Throw timeout_error) by reflexivity.
  split; [exact H1|]. split; [exact Hr|].
  destruct (@firecrawlSearchWithRetry_throws_last_error _
              (scripted failing_search) "q" MAX_RETRIES world0 timeout_error)
    as (H & _).
  exact (proj2 (H H1) Hr).
Defined.

Lemma firecrawlSearchWithRetry_total_wait_witness :
  let o := @firecrawlSearchWithRetry _ (scripted failing_search) "q"
             MAX_RETRIES world0 in
  (1 <= MAX_RETRIES)%nat /\
  res o = Throw timeout_error /\
  total_wait (out o) = 100000.
Proof.
  intros o. assert (H1 : (1 <= MAX_RETRIES)%nat) by (unfold MAX_RETRIES; lia).
  assert (Hr : res o = Throw timeout_error) by reflexivity.
  split; [exact H1|]. split; [exact Hr|].
  destruct (@firecrawlSearchWithRetry_total_wait _ (scripted failing_search)
              "q" MAX_RETRIES world0 H1) as (_ & Heq & Hb).
  exact (eq_trans (Heq _ Hr) (Hb eq_refl)).
Defined.

(** ** More on the final report *)

Section TraceSteps.

Context {W : Type}.

Variable P : event -> Prop.

Lemma emit_trace (ev : event) (w : W) : P ev -> Forall P (out (emit ev w)).
Proof. intros H. repeat constructor. exact H. Qed.

Lemma perform_trace {A} (ev : event) (f : W -> (exn + A) * W) (w : W) :
  P ev -> Forall P (out (perform ev f w)).
Proof.
  intros H. unfold perform. destruct (f w) as [[e|a] w'];
    repeat constructor; exact H.
Qed.

Lemma ret_trace {A} (a : A) (w : W) : Forall P (out (ret a w)).
Proof. constructor. Qed.

Lemma bind_ok_out {A B} (m : M W A) (f : A -> M W B) (w : W) (b : B) :
  res (bind m f w) = Ok b ->
  exists a,
    res (m w) = Ok a /\ res (f a (after (m w))) = Ok b /\
    out (bind m f w) = (out (m w) ++ out (f a (after (m w))))%list.
Proof.
  unfold bind. destruct (res (m w)) as [a| | |] eqn:E; cbn; try discriminate.
  intros H. exists a. repeat split. exact H.
Qed.

End TraceSteps.

Section FinalReport.

Context {W : Type} {svc : Services W}.

Lemma refineReport_trace (P : event -> Prop) (report initialQuery : string)
    (b d : Z) (w : W) :
  (forall ev, research_event ev -> within_budget b d ev -> P ev) ->
  (forall p, match p with
             | CriticismPrompt _ | QuestionsPrompt _ _ | RevisionPrompt _ _ =>
                 P (Generate p)
             | _ => True
             end) ->
  (forall l, (forall b' d', l <> LogResearchingDeeper b' d') ->
             P (ConsoleLog l)) ->
  Forall P (out (refineReport report initialQuery b d w)).
Proof.
  intros Hres Hgen Hlog. unfold refineReport. apply bind_trace.
  - unfold refine_prepare.
    apply bind_trace; [apply emit_trace, Hlog; discriminate|]. intros _ _.
    apply bind_trace;
      [apply perform_trace, (Hgen (CriticismPrompt report))|].
    intros c _.
    apply bind_trace; [apply emit_trace, Hlog; discriminate|]. intros _ _.
    apply bind_trace;
      [apply perform_trace, (Hgen (QuestionsPrompt b c))|].
    intros qs _.
    apply bind_trace; [apply emit_trace, Hlog; discriminate|]. intros _ _.
    apply ret_trace.
  - intros cq _. apply bind_trace.
    + pose proof (deepResearch_research_events cq b d [] []
                    (after (refine_prepare report initialQuery b w))) as H1.
      pose proof (deepResearch_within_budget cq b d [] []
                    (after (refine_prepare report initialQuery b w))) as H2.
      rewrite Forall_forall in *. intros ev Hev. apply Hres; auto.
    + intros r _. unfold refine_revise.
      apply bind_trace; [apply emit_trace, Hlog; discriminate|]. intros _ _.
      apply bind_trace; [apply emit_trace, Hlog; discriminate|]. intros _ _.
      apply bind_trace;
        [apply perform_trace,
           (Hgen (RevisionPrompt report (join "
" (learnings r))))|].
      intros v _.
      apply bind_trace; [apply emit_trace, Hlog; discriminate|]. intros _ _.
      apply ret_trace.
Qed.

Lemma writeFinalReport_trace (P : event -> Prop) (prompt : string)
    (ls urls : list string) (K : Z) (w : W) :
  (forall ev, research_event ev -> within_budget 3 2 ev -> P ev) ->
  (forall p, match p with
             | CriticismPrompt _ | QuestionsPrompt _ _ | RevisionPrompt _ _
             | ReportPrompt _ _ => P (Generate p)
             | _ => True
             end) ->
  (forall l, (forall b' d', l <> LogResearchingDeeper b' d') ->
             P (ConsoleLog l)) ->
  Forall P (out (writeFinalReport prompt ls urls K w)).
Proof.
  intros Hres Hgen Hlog. unfold writeFinalReport. apply bind_trace.
  - apply perform_trace. exact (Hgen (ReportPrompt prompt _)).
  - intros draft _. apply bind_trace; [|intros; apply ret_trace].
    generalize (after
      (perform (Generate (ReportPrompt prompt
         (trimPrompt (join "
" (map (fun l => "<learning>
" ++ l ++ "
</learning>") ls)) 150000)))
         (generateObject_text (ReportPrompt prompt
            (trimPrompt (join "
" (map (fun l => "<learning>
" ++ l ++ "
</learning>") ls)) 150000))) w)) as w1.
    generalize draft as report.
    induction (Z.to_nat K) as [|n IH]; intros report w1; [apply ret_trace|].
    cbn [refine_loop]. apply bind_trace.
    + apply refineReport_trace; try assumption.
      intros p. specialize (Hgen p). destruct p; auto.
    + intros refined _. apply IH.
Qed.

(** X9.  In the final report's refinements the research budget is fixed:
    whatever the prompt, the learnings, the URLs, the number of iterations
    and the world, every expansion made under [writeFinalReport] asks for 3
    or 2 sub-queries and the only budget announced is breadth 2, depth 1;
    no file is written and the process is not left. *)
Theorem writeFinalReport_fixed_budget (prompt : string) (ls urls : list string)
    (K : Z) (w : W) :
  let o := writeFinalReport prompt ls urls K w in
  Forall (fun n => n = 3 \/ n = 2) (expansion_breadths (out o)) /\
  Forall (fun bd => bd = (2, 1)) (deeper_budgets (out o)) /\
  count is_file_write (out o) = 0%nat /\
  count (fun ev => match ev with Exit _ => true | _ => false end) (out o)
  = 0%nat.
Proof.
  intros o.
  assert (H : Forall (fun ev => research_event ev /\ within_budget 3 2 ev \/
                                match ev with
                                | Generate (SerpQueriesPrompt _ _ _) => False
                                | Generate _ => True
                                | ConsoleLog (LogResearchingDeeper _ _) => False
                                | ConsoleLog _ => True
                                | _ => False
                                end) (out o)).
  { apply writeFinalReport_trace.
    - intros ev H1 H2. left. split; assumption.
    - intros p. destruct p; auto.
    - intros l Hl. right. destruct l; auto. exact (Hl _ _ eq_refl). }
  repeat split.
  - apply expansion_breadths_Forall. eapply Forall_impl; [|exact H].
    intros [| |[]| | | | | | |]; cbv beta iota delta [within_budget]; auto.
    intros [[_ (k & Hk & ->)]|[]].
    destruct k as [|[|k]]; [left | right | lia]; reflexivity.
  - apply deeper_budgets_Forall. eapply Forall_impl; [|exact H].
    intros [| | |[]| | | | | |]; cbv beta iota delta [within_budget]; auto.
    intros [[_ (k & Hk & -> & -> & Hpos)]|[]].
    destruct k as [|[|k]]; [lia | reflexivity | lia].
  - eapply count_zero_of_Forall; [|exact H].
    intros [| |[]|[]| | | | | |]; cbn; tauto.
  - eapply count_zero_of_Forall; [|exact H].
    intros [| |[]|[]| | | | | |]; cbn; tauto.
Qed.

End FinalReport.

Section Iterations.

Context {W : Type} {svc : Services W}.

Lemma request_counts_app (t1 t2 : list event) :
  request_counts (t1 ++ t2)
  = let '(a1, b1, c1, d1) := request_counts t1 in
    let '(a2, b2, c2, d2) := request_counts t2 in
    (a1 + a2, b1 + b2, c1 + c2, d1 + d2)%nat.
Proof. unfold request_counts. rewrite !count_app. reflexivity. Qed.

Lemma refine_prepare_counts (report initialQuery : string) (b : Z) (w : W)
    (cq : string) :
  res (refine_prepare report initialQuery b w) = Ok cq ->
  request_counts (out (refine_prepare report initialQuery b w))
  = (1, 1, 0, 0)%nat.
Proof.
  unfold refine_prepare, bind, perform, console_log, emit, ret. cbn.
  destruct (generateObject_text (CriticismPrompt report) w) as [[e|c] w1];
    cbn; [discriminate|].
  destruct (generateObject_questions (QuestionsPrompt b c) w1)
    as [[e|qs] w2]; cbn; [discriminate|].
  reflexivity.
Qed.

Lemma refine_revise_counts (report : string) (ls urls : list string) (w : W)
    (v : string) :
  res (refine_revise report ls urls w) = Ok v ->
  request_counts (out (refine_revise report ls urls w)) = (0, 0, 1, 0)%nat.
Proof.
  rewrite refine_revise_run.
  destruct (generateObject_text _ w) as [[e|revised] w']; cbn;
    [discriminate | reflexivity].
Qed.

Lemma deepResearch_counts (q : string) (b d : Z) (ls urls : list string)
    (w : W) :
  request_counts (out (deepResearch q b d ls urls w)) = (0, 0, 0, 0)%nat.
Proof.
  pose proof (deepResearch_research_events q b d ls urls w) as H.
  unfold request_counts.
  rewrite !(count_zero_of_Forall _ (R := research_event)); try exact H;
    try reflexivity.
  all: intros [| |[]| | | | | | |]; cbn; tauto.
Qed.

Lemma refineReport_counts (report initialQuery : string) (b d : Z) (w : W)
    (v : string) :
  res (refineReport report initialQuery b d w) = Ok v ->
  request_counts (out (refineReport report initialQuery b d w))
  = (1, 1, 1, 0)%nat.
Proof.
  intros H. unfold refineReport in *.
  apply bind_ok_out in H. destruct H as (cq & H1 & H & ->).
  apply bind_ok_out in H. destruct H as (r & H2 & H3 & ->).
  rewrite !request_counts_app.
  rewrite (refine_prepare_counts _ _ _ _ H1), deepResearch_counts,
    (refine_revise_counts _ _ _ _ H3).
  reflexivity.
Qed.

Lemma refine_loop_counts (n : nat) :
  forall (prompt report : string) (w : W) (v : string),
    res (refine_loop n prompt report w) = Ok v ->
    request_counts (out (refine_loop n prompt report w)) = (n, n, n, 0)%nat.
Proof.
  induction n as [|n IH]; intros prompt report w v H; [reflexivity|].
  cbn [refine_loop] in *.
  apply bind_ok_out in H. destruct H as (refined & H1 & H2 & ->).
  rewrite request_counts_app, (refineReport_counts _ _ _ _ _ H1),
    (IH _ _ _ _ H2).
  reflexivity.
Qed.

(** X10.  When [writeFinalReport] returns, it has asked for one draft and,
    with [refinementIterates = K], for exactly [max K 0] criticisms, as many
    lists of questions and as many revisions; with [K <= 0] the drafting
    request is all it did.  If the first refinement throws, so does
    [writeFinalReport]: the draft is not returned. *)
Theorem writeFinalReport_runs_K_refinements
    (prompt : string) (ls urls : list string) (K : Z) (w : W) :
  let o := writeFinalReport prompt ls urls K w in
  let p := ReportPrompt prompt
             (trimPrompt
                (join "
" (map (fun l => "<learning>
" ++ l ++ "
</learning>") ls)) 150000) in
  (forall v, res o = Ok v ->
     count is_report (out o) = 1%nat /\
     count is_criticism (out o) = Z.to_nat K /\
     count is_questions (out o) = Z.to_nat K /\
     count is_revision (out o) = Z.to_nat K /\
     (K <= 0 -> out o = [Generate p])) /\
  (forall draft w1 e,
     generateObject_text p w = (inr draft, w1) ->
     1 <= K ->
     res (refineReport draft prompt 3 2 w1) = Throw e ->
     res o = Throw e).
Proof.
  intros o p. subst o. split.
  - intros v H. unfold writeFinalReport in *. fold p in H |- *.
    apply bind_ok_out in H. destruct H as (draft & H1 & H & Hout).
    apply bind_ok_out in H. destruct H as (refined & H2 & _ & Hout2).
    pose proof (refine_loop_counts _ _ _ _ H2) as Hc.
    assert (Hp : request_counts
                   (out (perform (Generate p) (generateObject_text p) w))
                 = (0, 0, 0, 1)%nat).
    { unfold perform. destruct (generateObject_text p w) as [[e|a] w'];
        reflexivity. }
    assert (Hall : request_counts
                     (out (writeFinalReport prompt ls urls K w))
                   = (Z.to_nat K, Z.to_nat K, Z.to_nat K, 1%nat)).
    { unfold writeFinalReport. fold p. rewrite Hout, Hout2.
      rewrite !request_counts_app, Hp, Hc. cbn. rewrite !Nat.add_0_r.
      reflexivity. }
    unfold writeFinalReport in Hall. fold p in Hall.
    unfold request_counts in Hall. injection Hall as Ha Hb Hc' Hd.
    repeat split; try assumption.
    intros HK. rewrite Hout, Hout2.
    replace (Z.to_nat K) with 0%nat by lia. cbn.
    unfold perform. destruct (generateObject_text p w) as [[e|a] w'];
      reflexivity.
  - intros draft w1 e Hd HK He. unfold writeFinalReport. fold p.
    unfold bind at 1, perform. rewrite Hd. cbn [res after out].
    destruct (Z.to_nat K) as [|n] eqn:E; [lia|].
    cbn [refine_loop]. unfold bind at 1 2. rewrite He. reflexivity.
Qed.

End Iterations.

Lemma writeFinalReport_runs_K_refinements_witness :
  let svc := scripted (reporting "http://a") in
  let o := @writeFinalReport _ svc "topic" [] ["u1"] 2 world0 in
  res o = Ok "draft (revised) (revised)

## Sources

- u1" /\
  count is_report (out o) = 1%nat /\
  count is_criticism (out o) = 2%nat /\
  count is_revision (out o) = 2%nat.
Proof.
  intros svc o.
  assert (H : res o = Ok "draft (revised) (revised)

## Sources

- u1") by reflexivity.
  split; [exact H|].
  destruct (@writeFinalReport_runs_K_refinements _ svc "topic" [] ["u1"] 2
              world0) as (Hc & _).
  destruct (Hc _ H) as (H1 & H2 & _ & H4 & _).
  split; [exact H1|]. split; [exact H2 | exact H4].
Defined.

(** ** More on saving *)

Lemma first_free_or_all_taken (taken : nat -> bool) (n : nat) :
  (forall j, (j < n)%nat -> taken j = true) \/
  exists k, (k < n)%nat /\ (forall j, (j < k)%nat -> taken j = true) /\
            taken k = false.
Proof.
  induction n as [|n [IH|(k & Hk & Hbefore & Hfree)]].
  - left. intros j Hj. lia.
  - destruct (taken n) eqn:E.
    + left. intros j Hj. destruct (Nat.eq_dec j n) as [->|Hne];
        [exact E | apply IH; lia].
    + right. exists n. repeat split; [lia | | exact E].
      intros j Hj. apply IH. exact Hj.
  - right. exists k. repeat split; [lia | exact Hbefore | exact Hfree].
Qed.

Lemma checks_In (orig : string) (from n : nat) (ev : event) :
  In ev (checks orig from n) ->
  exists k, ev = ExistsSync (output_path (candidate orig k)).
Proof.
  unfold checks. intros H. apply in_map_iff in H.
  destruct H as (k & <- & _). exists k. reflexivity.
Qed.

Lemma checks_count (orig : string) (from n : nat) :
  count is_exists_check (checks orig from n) = n.
Proof.
  unfold count, checks. revert from.
  induction n as [|n IH]; intros from; [reflexivity|]. cbn. f_equal. apply IH.
Qed.

Lemma checks_then (orig : string) (n : nat) (tail : list event) :
  (forall path content,
      In (FileWrite path content) (checks orig 0 n ++ tail) ->
      In (FileWrite path content) tail) /\
  count is_file_write (checks orig 0 n ++ tail) = count is_file_write tail /\
  count is_exists_check (checks orig 0 n ++ tail)
  = (n + count is_exists_check tail)%nat.
Proof.
  split; [|split].
  - intros path content H. apply in_app_or in H. destruct H as [H|H].
    + apply checks_In in H. destruct H as (j & H). discriminate.
    + exact H.
  - rewrite count_app, checks_write_nothing. reflexivity.
  - rewrite count_app, checks_count. reflexivity.
Qed.

(** X11.  Saving never overwrites: whatever the files that exist, a file
    written by [saveReport] goes to a path that did not exist when the loop
    checked it, and holds the report followed by the metadata; at most one
    file is written, at most a hundred existence checks are made, and the
    loop's fuel is never exhausted. *)
Theorem saveReport_never_overwrites {W : Type} {svc : Services W}
    (fileName report metadata : string) (w : W) :
  let o := saveReport fileName report metadata w in
  (forall path content,
      In (FileWrite path content) (out o) ->
      existsSync path w = false /\ content = report ++ metadata /\
      exists k, (k < 100)%nat /\ path = output_path (candidate fileName k)) /\
  (count is_file_write (out o) <= 1)%nat /\
  (count is_exists_check (out o) <= 100)%nat /\
  res o <> OutOfFuel.
Proof.
  intros o. subst o.
  set (taken := fun k => existsSync (output_path (candidate fileName k)) w).
  destruct (first_free_or_all_taken taken 100)
    as [Hall|(k & Hk & Hbefore & Hfree)].
  - assert (Hloop :
      save_loop 100 fileName fileName 1 (report ++ metadata) w
      = Out (Exited 1) w
          (checks fileName 0 100
           ++ [ConsoleLog (LogText (report ++ metadata));
               ConsoleError
                 (LogText "Error: Could not save report. Please try again.");
               Exit 1])).
    { apply (@save_loop_gives_up _ _ fileName (report ++ metadata) w
               99%nat 100%nat 0%nat); try lia.
      intros j Hj. apply Hall. lia. }
    assert (Hsave :
      saveReport fileName report metadata w
      = Out (Exited 1) w
          (checks fileName 0 100
           ++ [ConsoleLog (LogText (report ++ metadata));
               ConsoleError
                 (LogText "Error: Could not save report. Please try again.");
               Exit 1])).
    { unfold saveReport. unfold bind at 1. rewrite Hloop. reflexivity. }
    rewrite Hsave. cbn [res after out].
    match goal with
    | |- context [(checks fileName 0 100 ++ ?t)%list] =>
        destruct (checks_then fileName 100 t) as (Hin & Hw & Hc)
    end.
    split; [|split; [|split]].
    + intros path content H. apply Hin in H. cbn in H.
      destruct H as [H|[H|[H|[]]]]; discriminate.
    + rewrite Hw. cbn. lia.
    + rewrite Hc. cbn. lia.
    + discriminate.
  - assert (Hloop :
      save_loop 100 fileName fileName 1 (report ++ metadata) w
      = Out (Ok (candidate fileName k)) w (checks fileName 0 (S k))).
    { apply (@save_loop_finds _ _ fileName (report ++ metadata) w
               k 100%nat 0%nat); try lia.
      - intros j Hj. apply Hbefore. lia.
      - exact Hfree. }
    assert (Hbody :
      exists tail r w',
        (tail = [] \/
         tail = [ConsoleLog (LogText ("

Final Report:

" ++ report));
                 ConsoleLog (LogText ("
Report has been saved to " ++ candidate fileName k ++ ".md"));
                 CloseInput]) /\
        saveReport fileName report metadata w
        = Out r w'
            (checks fileName 0 (S k)
             ++ FileWrite (output_path (candidate fileName k))
                  (report ++ metadata) :: tail) /\
        r <> OutOfFuel).
    { unfold saveReport. unfold bind at 1. rewrite Hloop.
      cbn [res after out]. unfold bind, perform, console_log, emit.
      destruct (fs_writeFile (output_path (candidate fileName k))
                  (report ++ metadata) w) as [[e|[]] w'];
        cbn [res after out].
      - exists [], (Throw e), w'. split; [left; reflexivity|].
        split; [reflexivity | discriminate].
      - do 3 eexists. split; [right; reflexivity|].
        split; [reflexivity | discriminate]. }
    destruct Hbody as (tail & r & w' & Htail & Hsave & Hres).
    rewrite Hsave. cbn [res after out].
    match goal with
    | |- context [(checks fileName 0 (S k) ++ ?t)%list] =>
        destruct (checks_then fileName (S k) t) as (Hin & Hw & Hc)
    end.
    split; [|split; [|split]].
    + intros path content H. apply Hin in H.
      assert (Hhere : FileWrite (output_path (candidate fileName k))
                        (report ++ metadata) = FileWrite path content).
      { destruct H as [H|H]; [exact H|].
        destruct Htail as [->| ->]; cbn in H;
          [contradiction | destruct H as [H|[H|[H|[]]]]; discriminate]. }
      injection Hhere as <- <-.
      split; [exact Hfree|]. split; [reflexivity|].
      exists k. split; [exact Hk | reflexivity].
    + rewrite Hw. destruct Htail as [->| ->]; cbn; lia.
    + rewrite Hc. destruct Htail as [->| ->]; cbn; lia.
    + exact Hres.
Qed.

(** ** How much a run costs *)

Section CountBounds.

Context {W : Type}.

Variable p : event -> bool.

Lemma bind_count_le {A B} (m : M W A) (f : A -> M W B) (w : W) (a b : nat) :
  (count p (out (m w)) <= a)%nat ->
  (forall x, res (m w) = Ok x ->
             (count p (out (f x (after (m w)))) <= b)%nat) ->
  (count p (out (bind m f w)) <= a + b)%nat.
Proof.
  intros Hm Hf. unfold bind.
  destruct (res (m w)) as [x| | |] eqn:E; cbn [out]; try lia.
  rewrite count_app. pose proof (Hf x eq_refl). lia.
Qed.

Lemma all_limit1_count_le {A B} (f : A -> M W B) (k : nat) (xs : list A) :
  (forall x w, In x xs -> (count p (out (f x w)) <= k)%nat) ->
  forall w, (count p (out (all_limit1 f xs w)) <= length xs * k)%nat.
Proof.
  induction xs as [|x xs IH]; intros Hf w; [cbn; lia|].
  cbn [all_limit1 length].
  replace (S (length xs) * k)%nat with (k + (length xs * k + 0))%nat by lia.
  apply bind_count_le; [apply Hf; left; reflexivity|].
  intros y _. apply bind_count_le.
  - apply IH. intros x' w' Hin. apply Hf. right. exact Hin.
  - intros ys _. cbn. lia.
Qed.

End CountBounds.

Lemma slice0_length {A} (n : Z) (xs : list A) :
  0 <= n -> (length (slice0 n xs) <= Z.to_nat n)%nat.
Proof.
  intros H. rewrite slice0_nonneg by exact H. rewrite length_firstn. lia.
Qed.

Lemma newBreadth_nonneg (b : Z) : 0 <= b -> 0 <= newBreadth b.
Proof. intros H. pose proof (newBreadth_is_ceiling b). lia. Qed.

Section Cost.

Context {W : Type} {svc : Services W}.

Variable p : event -> bool.
Variables ke kr kd : nat.

Hypothesis p_expansion :
  forall q b ls (w : W),
    (count p (out (generateSerpQueries q b ls w)) <= ke)%nat.
Hypothesis p_retrieval :
  forall q (w : W),
    (count p (out (firecrawlSearchWithRetry q MAX_RETRIES w)) <= kr)%nat.
Hypothesis p_distillation :
  forall q r n1 n2 (w : W),
    (count p (out (processSerpResult q r n1 n2 w)) <= kd)%nat.
Hypothesis p_log : forall l, p (ConsoleLog l) = false.
Hypothesis p_error : forall l, p (ConsoleError l) = false.

Lemma researchBranch_cost (self : Call -> M W ResearchResult)
    (Q : list SerpQuery) (b d : Z) (ls urls : list string) (sq : SerpQuery)
    (w : W) (K : nat) :
  (0 < d - 1 ->
   forall c w', c_breadth c = newBreadth b -> c_depth c = d - 1 ->
                (count p (out (self c w')) <= K)%nat) ->
  (count p (out (researchBranch self Q b d ls urls sq w))
   <= kr + kd + (if (0 <? d - 1)%Z then K else 0))%nat.
Proof.
  intros Hself.
  pose proof (p_retrieval (query sq) w) as Hr.
  destruct (firecrawlSearchWithRetry_settles (query sq) MAX_RETRIES w)
    as [[result H1]|[e H1]].
  - pose proof (p_distillation (query sq) result 3 (newBreadth b)
                  (after (firecrawlSearchWithRetry (query sq) MAX_RETRIES w)))
      as Hd.
    destruct (processSerpResult_settles (query sq) result 3 (newBreadth b)
                (after (firecrawlSearchWithRetry (query sq) MAX_RETRIES w)))
      as [[dist H2]|[e H2]].
    + destruct (Z_lt_le_dec 0 (newDepth d)) as [Hlt|Hle]; unfold newDepth in *.
      * rewrite (branch_recurses self Q b d ls urls sq w H1 H2 Hlt).
        cbn [out]. rewrite !count_app.
        replace (0 <? d - 1) with true by (symmetry; apply Z.ltb_lt; lia).
        match goal with
        | |- context [count p (out (self ?c ?w'))] =>
            pose proof (Hself Hlt c w' eq_refl eq_refl) as Hs
        end.
        unfold count at 3. cbn [filter]. rewrite p_log. cbn [length].
        unfold newDepth in *. lia.
      * rewrite (branch_stops self Q b d ls urls sq w H1 H2 Hle).
        cbn [out]. rewrite count_app. lia.
    + rewrite (branch_distillation_throws self Q b d ls urls sq w H1 H2).
      cbn [out]. rewrite !count_app. unfold caught, count at 3.
      cbn [filter]. rewrite p_error. cbn [length]. lia.
  - rewrite (branch_retrieval_throws self Q b d ls urls sq w H1).
    cbn [out]. rewrite count_app. unfold caught, count at 2.
    cbn [filter]. rewrite p_error. cbn [length]. lia.
Qed.

Lemma deepResearch_level_cost (self : Call -> M W ResearchResult)
    (q : string) (b d : Z) (ls urls : list string) (w : W) (K : nat) :
  0 <= b ->
  (0 < d - 1 ->
   forall c w', c_breadth c = newBreadth b -> c_depth c = d - 1 ->
                (count p (out (self c w')) <= K)%nat) ->
  (count p (out (deepResearch_level self q b d ls urls w))
   <= ke + Z.to_nat b * (kr + kd + (if (0 <? d - 1)%Z then K else 0)))%nat.
Proof.
  intros Hb Hself. unfold deepResearch_level.
  apply bind_count_le; [apply p_expansion|].
  intros Q HQ.
  assert (HlenQ : (length Q <= Z.to_nat b)%nat).
  { rewrite generateSerpQueries_run in HQ.
    destruct (generateObject_queries _ w) as [[e|qs] w']; [discriminate|].
    cbn in HQ. injection HQ as <-. apply slice0_length. exact Hb. }
  set (k := (kr + kd + (if (0 <? d - 1)%Z then K else 0))%nat).
  replace (Z.to_nat b * k)%nat with (Z.to_nat b * k + 0)%nat by lia.
  apply bind_count_le; [|intros; cbn; lia].
  etransitivity.
  - apply all_limit1_count_le with (k := k). intros sq w' _.
    apply researchBranch_cost. exact Hself.
  - apply Nat.mul_le_mono_r. exact HlenQ.
Qed.

Lemma deepResearch_fuel_cost (n : nat) :
  forall (fuel : nat) (c : Call) (w : W),
    0 <= c_breadth c ->
    Z.to_nat (c_depth c - 1) = n ->
    (count p (out (deepResearch_fuel fuel c w))
     <= cost ke kr kd n (c_breadth c))%nat.
Proof.
  induction n as [|n IH]; intros fuel c w Hb Hn;
    rewrite deepResearch_fuel_unfold; cbn [cost].
  - etransitivity.
    + apply deepResearch_level_cost with (K := 0%nat); [exact Hb|].
      intros Hd. lia.
    + replace (0 <? c_depth c - 1) with false
        by (symmetry; apply Z.ltb_ge; lia).
      lia.
  - etransitivity.
    + apply deepResearch_level_cost
        with (K := cost ke kr kd n (newBreadth (c_breadth c))); [exact Hb|].
      intros Hd c' w' Hb' Hc'. destruct fuel as [|fuel]; [cbn; lia|].
      rewrite <- Hb'. apply IH.
      * rewrite Hb'. apply newBreadth_nonneg. exact Hb.
      * rewrite Hc'. lia.
    + replace (0 <? c_depth c - 1) with true
        by (symmetry; apply Z.ltb_lt; lia).
      lia.
Qed.

End Cost.

Section CostBound.

Context {W : Type} {svc : Services W}.

Lemma retrieval_counts (q : string) (w : W) :
  let tr := out (firecrawlSearchWithRetry q MAX_RETRIES w) in
  (count is_search tr <= MAX_RETRIES)%nat /\
  count is_distillation tr = 0%nat /\
  count is_expansion tr = 0%nat.
Proof.
  intros tr. subst tr. unfold firecrawlSearchWithRetry, MAX_RETRIES. split.
  - destruct (retry_loop_trace q 4 INITIAL_BACKOFF w)
      as (m & rest & Hm & _ & _ & _ & Hc & _). rewrite Hc. lia.
  - pose proof (retry_loop_invariant
                  (fun _ _ ev => is_distillation ev = false /\
                                 is_expansion ev = false)
                  (fun _ _ _ => conj eq_refl eq_refl)
                  (fun _ _ _ => conj eq_refl eq_refl)
                  (fun _ _ _ => conj eq_refl eq_refl)
                  (fun _ _ _ _ => conj eq_refl eq_refl)
                  0 0 q 5 INITIAL_BACKOFF w) as H.
    split; eapply count_zero_of_Forall; try exact H; intros ev [H1 H2];
      assumption.
Qed.

Lemma expansion_counts (q : string) (b : Z) (ls : option (list string))
    (w : W) :
  let tr := out (generateSerpQueries q b ls w) in
  count is_expansion tr = 1%nat /\
  count is_search tr = 0%nat /\
  count is_distillation tr = 0%nat.
Proof.
  intros tr. subst tr. rewrite generateSerpQueries_run.
  destruct (generateObject_queries _ w) as [[e|qs] w']; repeat split.
Qed.

(** X12.  What a run can cost.  With [breadth >= 0] and
    [levels = max (depth - 1) 0] further levels, a research run makes at most
    [cost 1 0 0 levels breadth] expansion requests, at most
    [cost 0 MAX_RETRIES 0 levels breadth] searches and at most
    [cost 0 0 1 levels breadth] distillation requests, where a level counts
    for one expansion and at most [breadth] branches, each with one
    retrieval of at most [MAX_RETRIES] searches, one distillation and the
    next level at the halved breadth.  From breadth 4 and depth 2 that is at
    most 5 expansions, 60 searches and 12 distillations. *)
Theorem deepResearch_cost_bound
    (q : string) (breadth depth : Z) (ls urls : list string) (w : W) :
  0 <= breadth ->
  let o := deepResearch q breadth depth ls urls w in
  let levels := Z.to_nat (depth - 1) in
  (count is_expansion (out o) <= cost 1 0 0 levels breadth)%nat /\
  (count is_search (out o) <= cost 0 MAX_RETRIES 0 levels breadth)%nat /\
  (count is_distillation (out o) <= cost 0 0 1 levels breadth)%nat /\
  (cost 1 0 0 (Z.to_nat (2 - 1)) 4 = 5%nat /\
   cost 0 MAX_RETRIES 0 (Z.to_nat (2 - 1)) 4 = 60%nat /\
   cost 0 0 1 (Z.to_nat (2 - 1)) 4 = 12%nat).
Proof.
  intros Hb o levels. subst o levels. unfold deepResearch.
  split; [|split; [|split]].
  - apply (@deepResearch_fuel_cost _ _ is_expansion 1%nat 0%nat 0%nat);
      try (intros; reflexivity); try exact Hb.
    + intros q0 b0 ls0 w0.
      destruct (expansion_counts q0 b0 ls0 w0) as (H & _). rewrite H. lia.
    + intros q0 w0.
      destruct (retrieval_counts q0 w0) as (_ & _ & H). rewrite H. lia.
    + intros q0 r n1 n2 w0.
      destruct (processSerpResult_calls q0 r n1 n2 w0) as (_ & _ & H).
      rewrite H. lia.
  - apply (@deepResearch_fuel_cost _ _ is_search 0%nat MAX_RETRIES 0%nat);
      try (intros; reflexivity); try exact Hb.
    + intros q0 b0 ls0 w0.
      destruct (expansion_counts q0 b0 ls0 w0) as (_ & H & _). rewrite H. lia.
    + intros q0 w0.
      destruct (retrieval_counts q0 w0) as (H & _). exact H.
    + intros q0 r n1 n2 w0.
      destruct (processSerpResult_calls q0 r n1 n2 w0) as (_ & H & _).
      rewrite H. lia.
  - apply (@deepResearch_fuel_cost _ _ is_distillation 0%nat 0%nat 1%nat);
      try (intros; reflexivity); try exact Hb.
    + intros q0 b0 ls0 w0.
      destruct (expansion_counts q0 b0 ls0 w0) as (_ & _ & H). rewrite H. lia.
    + intros q0 w0.
      destruct (retrieval_counts q0 w0) as (_ & H & _). rewrite H. lia.
    + intros q0 r n1 n2 w0.
      destruct (processSerpResult_calls q0 r n1 n2 w0) as (H & _).
      rewrite H. lia.
  - repeat split.
Qed.

End CostBound.

Lemma deepResearch_cost_bound_witness :
  let o := @deepResearch _ (scripted same_page) "topic" 4 2 [] [] world0 in
  0 <= 4 /\
  count is_expansion (out o) = 3%nat /\
  count is_search (out o) = 6%nat /\
  count is_distillation (out o) = 6%nat /\
  (count is_expansion (out o) <= 5)%nat /\
  (count is_search (out o) <= 60)%nat /\
  (count is_distillation (out o) <= 12)%nat.
Proof.
  intros o. assert (H4 : 0 <= 4) by lia.
  split; [exact H4|].
  split; [reflexivity|]. split; [reflexivity|]. split; [reflexivity|].
  destruct (@deepResearch_cost_bound _ (scripted same_page)
              "topic" 4 2 [] [] world0 H4) as (He & Hs & Hd & _).
  split; [exact He|]. split; [exact Hs | exact Hd].
Defined.

(** ** [slugify] *)

Ltac unit_classes :=
  unfold is_slug_unit, is_alnum, is_digit, is_upper, is_lower, is_hyphen,
    is_mark, is_white_space, to_lower, hyphen in *;
  repeat match goal with
         | |- context [(?a <=? ?b)%N] => destruct (N.leb_spec a b)
         | |- context [(?a =? ?b)%N] => destruct (N.eqb_spec a b)
         | H : context [(?a <=? ?b)%N] |- _ => destruct (N.leb_spec a b)
         | H : context [(?a =? ?b)%N] |- _ => destruct (N.eqb_spec a b)
         end;
  cbn in *; try discriminate; try lia.

Lemma alnum_not_hyphen (c : N) : is_alnum c = true -> c <> hyphen.
Proof. intros H. unit_classes. Qed.

Lemma to_lower_alnum (c : N) :
  is_alnum c = true ->
  is_slug_unit (to_lower c) = true /\ to_lower c <> hyphen.
Proof.
  intros H. unfold to_lower. destruct (is_upper c) eqn:E; split; unit_classes.
Qed.

Lemma to_lower_slug_unit (c : N) : is_slug_unit c = true -> to_lower c = c.
Proof.
  intros H. unfold to_lower. destruct (is_upper c) eqn:E; [|reflexivity].
  unit_classes.
Qed.

Lemma slug_unit_ranges (c : N) :
  is_slug_unit c = true ->
  (c = 45 \/ 48 <= c <= 57 \/ 97 <= c <= 122)%N.
Proof. intros H. unit_classes. Qed.

Ltac settle_comparisons :=
  repeat match goal with
         | |- context [(?a <=? ?b)%N] =>
             first [ replace (a <=? b)%N with true
                       by (symmetry; apply N.leb_le; lia)
                   | replace (a <=? b)%N with false
                       by (symmetry; apply N.leb_gt; lia) ]
         | |- context [(?a =? ?b)%N] =>
             first [ replace (a =? b)%N with true
                       by (symmetry; apply N.eqb_eq; lia)
                   | replace (a =? b)%N with false
                       by (symmetry; apply N.eqb_neq; lia) ]
         end.

Lemma slug_unit_plain (c : N) :
  is_slug_unit c = true ->
  is_white_space c = false /\ is_mark c = false /\ (c < 128)%N /\
  (is_alnum c = true \/ c = hyphen).
Proof.
  intros H. apply slug_unit_ranges in H.
  split; [|split; [|split]].
  - unfold is_white_space. destruct H as [H|[H|H]]; settle_comparisons;
      reflexivity.
  - unfold is_mark. destruct H as [H|[H|H]]; settle_comparisons; reflexivity.
  - lia.
  - destruct H as [H|[H|H]]; [right; exact H | left | left];
      unfold is_alnum, is_digit, is_upper, is_lower; settle_comparisons;
      reflexivity.
Qed.

Lemma no_double_cons (c : N) (s : ustring) :
  no_double_hyphen (c :: s)
  <-> ~ (c = hyphen /\ hd 0%N s = hyphen) /\ no_double_hyphen s.
Proof.
  destruct s as [|c' s]; cbn; [|tauto].
  split; [|tauto]. intros _. split; [|exact I]. intros [_ H]. discriminate.
Qed.

Lemma collapse_hyphenated (s : ustring) :
  forall in_run,
    hyphenated (collapse in_run s) /\
    (in_run = true -> hd 0%N (collapse in_run s) <> hyphen).
Proof.
  induction s as [|c s IH]; intros in_run.
  - cbn. repeat split; [constructor | discriminate].
  - cbn [collapse]. destruct (is_alnum c) eqn:E.
    + destruct (IH false) as [[HF HD] _]. split; [split|].
      * constructor; [left; exact E | exact HF].
      * apply no_double_cons. split; [|exact HD].
        intros [Hc _]. exact (alnum_not_hyphen E Hc).
      * intros _. exact (alnum_not_hyphen E).
    + destruct in_run.
      * exact (IH true).
      * destruct (IH true) as [[HF HD] Hhd]. split; [split|].
        -- constructor; [right; reflexivity | exact HF].
        -- apply no_double_cons. split; [|exact HD].
           intros [_ Hh]. exact (Hhd eq_refl Hh).
        -- discriminate.
Qed.

Lemma drop_leading_hyphenated (s : ustring) :
  hyphenated s ->
  hyphenated (drop_leading is_hyphen s) /\
  hd 0%N (drop_leading is_hyphen s) <> hyphen.
Proof.
  induction s as [|c s IH]; intros [HF HD].
  - cbn. repeat split; [constructor | discriminate].
  - cbn [drop_leading]. destruct (is_hyphen c) eqn:E.
    + apply IH. split; [inversion HF; assumption|].
      apply no_double_cons in HD. tauto.
    + split; [split; assumption|]. cbn. intros Hc. subst c. discriminate.
Qed.

Lemma drop_trailing_head (p : N -> bool) (s : ustring) (c : N) (t : ustring) :
  drop_trailing p s = c :: t -> hd 0%N s = c.
Proof.
  destruct s as [|c0 s]; cbn; [discriminate|].
  destruct (drop_trailing p s); [destruct (p c0)|]; congruence.
Qed.

Lemma drop_trailing_hyphenated (s : ustring) :
  hyphenated s ->
  hd 0%N s <> hyphen ->
  hyphenated (drop_trailing is_hyphen s) /\
  hd 0%N (drop_trailing is_hyphen s) <> hyphen /\
  last (drop_trailing is_hyphen s) 0%N <> hyphen.
Proof.
  intros H Hhd. assert (Hgen :
    hyphenated (drop_trailing is_hyphen s) /\
    last (drop_trailing is_hyphen s) 0%N <> hyphen).
  { clear Hhd. induction s as [|c s IH].
    - cbn. repeat split; [constructor | discriminate].
    - destruct H as [HF HD]. apply no_double_cons in HD.
      destruct HD as [Hc HD]. inversion HF as [|? ? Hc0 HF']; subst.
      destruct (IH (conj HF' HD)) as [[IF ID] IL].
      cbn [drop_trailing].
      destruct (drop_trailing is_hyphen s) as [|c' t] eqn:E.
      + destruct (is_hyphen c) eqn:Eh.
        * cbn. repeat split; [constructor | discriminate].
        * split; [split; [constructor; [exact Hc0 | constructor] | exact I]|].
          cbn. intros ->. discriminate.
      + split; [split|].
        * constructor; assumption.
        * apply no_double_cons. split; [|exact ID].
          rewrite (@drop_trailing_head _ _ _ _ E) in Hc. exact Hc.
        * exact IL. }
  destruct Hgen as [Hh Hl]. split; [exact Hh|]. split; [|exact Hl].
  destruct (drop_trailing is_hyphen s) as [|c t] eqn:E; [discriminate|].
  rewrite <- (@drop_trailing_head _ _ _ _ E). exact Hhd.
Qed.

Lemma last_map {A B} (f : A -> B) (s : list A) (d : A) :
  last (map f s) (f d) = f (last s d).
Proof.
  induction s as [|a s IH]; [reflexivity|].
  destruct s as [|b s]; [reflexivity|]. exact IH.
Qed.

Lemma filter_all {A} (p : A -> bool) (s : list A) :
  Forall (fun c => p c = true) s -> filter p s = s.
Proof.
  induction 1 as [|c s Hc _ IH]; [reflexivity|]. cbn. rewrite Hc, IH.
  reflexivity.
Qed.

Lemma lower_hyphenated (s : ustring) :
  hyphenated s -> hd 0%N s <> hyphen -> last s 0%N <> hyphen ->
  is_slug (map to_lower s).
Proof.
  intros [HF HD] Hhd Hl.
  assert (Hkeep : forall c, is_alnum c = true \/ c = hyphen ->
                            (to_lower c = hyphen <-> c = hyphen)).
  { intros c [Hc| ->]; [|split; reflexivity].
    split; intros H; [exfalso; exact (proj2 (to_lower_alnum _ Hc) H)|].
    exfalso. exact (alnum_not_hyphen Hc H). }
  split; [|split; [|split]].
  - apply Forall_map. eapply Forall_impl; [|exact HF].
    intros c [Hc| ->]; [exact (proj1 (to_lower_alnum _ Hc)) | reflexivity].
  - destruct s as [|c s]; [discriminate|]. cbn in *.
    inversion HF as [|? ? Hc _]; subst. rewrite (Hkeep c Hc). exact Hhd.
  - change 0%N with (to_lower 0). rewrite last_map.
    destruct s as [|c s]; [discriminate|].
    assert (Hin : In (last (c :: s) 0%N) (c :: s)).
    { clear. revert c. induction s as [|b s IH]; intros c; [left; reflexivity|].
      right. exact (IH b). }
    rewrite Forall_forall in HF. rewrite (Hkeep _ (HF _ Hin)). exact Hl.
  - clear Hhd Hl. induction s as [|c s IH]; [exact I|].
    apply no_double_cons in HD. destruct HD as [Hc HD].
    inversion HF as [|? ? Hc0 HF']; subst.
    cbn [map]. apply no_double_cons. split; [|exact (IH HF' HD)].
    intros [H1 H2]. apply Hc. split; [exact (proj1 (Hkeep c Hc0) H1)|].
    destruct s as [|c' s]; [discriminate|]. cbn in *.
    inversion HF' as [|? ? Hc' _]; subst. exact (proj1 (Hkeep c' Hc') H2).
Qed.

Lemma slug_before_lowering (normalizeNFD : ustring -> ustring)
    (text : ustring) :
  let s := drop_trailing is_hyphen
             (drop_leading is_hyphen
                (collapse false
                   (filter (fun c => negb (is_mark c))
                           (normalizeNFD (trim_units text))))) in
  hyphenated s /\ hd 0%N s <> hyphen /\ last s 0%N <> hyphen.
Proof.
  intros s. subst s.
  destruct (collapse_hyphenated
              (filter (fun c => negb (is_mark c))
                      (normalizeNFD (trim_units text))) false) as [Hc _].
  destruct (drop_leading_hyphenated Hc) as [Hl Hhd].
  exact (drop_trailing_hyphenated Hl Hhd).
Qed.

(** X13.  With [lower] set, as [generateFileName] calls it, [slugify]
    returns a slug whatever the text and whatever NFD normalisation does:
    only lower-case ASCII letters, digits and hyphens, no hyphen first or
    last, no two hyphens in a row; so no slash and no dot, and the file name
    built from it cannot leave the output directory.  [strict] then changes
    nothing.  Without [lower] and [strict] the result has the same shape
    with upper-case letters allowed; with [strict] alone the upper-case
    letters are deleted after the hyphens were placed, which can leave a
    hyphen at the end. *)
Theorem slugify_gives_slug (normalizeNFD : ustring -> ustring)
    (text : ustring) :
  (forall strict,
      is_slug (slugify_text normalizeNFD true strict text) /\
      Forall (fun c => c <> 47%N /\ c <> 46%N)
             (slugify_text normalizeNFD true strict text)) /\
  slugify_text normalizeNFD true true text
  = slugify_text normalizeNFD true false text /\
  (let s := slugify_text normalizeNFD false false text in
   hyphenated s /\ hd 0%N s <> hyphen /\ last s 0%N <> hyphen) /\
  slugify_text (fun s => s) false true (units_of_string "a B")
  = units_of_string "a-".
Proof.
  destruct (slug_before_lowering normalizeNFD text) as (Hh & Hhd & Hl).
  pose proof (lower_hyphenated Hh Hhd Hl) as Hslug.
  assert (Hstrict : slugify_text normalizeNFD true true text
                    = slugify_text normalizeNFD true false text).
  { unfold slugify_text. apply filter_all. exact (proj1 Hslug). }
  split; [|split; [exact Hstrict|split; [exact (conj Hh (conj Hhd Hl))|]]].
  - intros strict.
    assert (His : is_slug (slugify_text normalizeNFD true strict text)).
    { destruct strict; [rewrite Hstrict|]; exact Hslug. }
    split; [exact His|].
    eapply Forall_impl; [|exact (proj1 His)].
    intros c Hc. split; intros ->; discriminate.
  - reflexivity.
Qed.

Lemma drop_leading_none (p : N -> bool) (s : ustring) :
  Forall (fun c => p c = false) s -> drop_leading p s = s.
Proof. intros H. destruct H as [|c s Hc _]; cbn; [|rewrite Hc]; reflexivity. Qed.

Lemma drop_trailing_none (p : N -> bool) (s : ustring) :
  Forall (fun c => p c = false) s -> drop_trailing p s = s.
Proof.
  induction 1 as [|c s Hc _ IH]; [reflexivity|].
  cbn. rewrite IH, Hc. destruct s; reflexivity.
Qed.

Lemma drop_leading_head (s : ustring) :
  hd 0%N s <> hyphen -> drop_leading is_hyphen s = s.
Proof.
  destruct s as [|c s]; [reflexivity|]. cbn. intros H.
  unfold is_hyphen. destruct (N.eqb_spec c hyphen); [contradiction|reflexivity].
Qed.

Lemma drop_trailing_last (s : ustring) :
  last s 0%N <> hyphen -> drop_trailing is_hyphen s = s.
Proof.
  induction s as [|c s IH]; [reflexivity|]. intros H.
  destruct s as [|c' s].
  - cbn in *. unfold is_hyphen.
    destruct (N.eqb_spec c hyphen); [contradiction|reflexivity].
  - change (last (c :: c' :: s) 0%N) with (last (c' :: s) 0%N) in H.
    cbn [drop_trailing] in *. rewrite (IH H). reflexivity.
Qed.

Lemma collapse_slug (s : ustring) :
  forall in_run,
    Forall (fun c => is_slug_unit c = true) s ->
    no_double_hyphen s ->
    (in_run = true -> hd 0%N s <> hyphen) ->
    collapse in_run s = s.
Proof.
  induction s as [|c s IH]; intros in_run HF HD Hhd; [reflexivity|].
  inversion HF as [|? ? Hc HF']; subst.
  apply no_double_cons in HD. destruct HD as [Hcc HD].
  cbn [collapse].
  destruct (proj2 (proj2 (proj2 (slug_unit_plain _ Hc)))) as [Ha| ->].
  - rewrite Ha. f_equal. apply IH; [exact HF' | exact HD | discriminate].
  - replace (is_alnum hyphen) with false by reflexivity.
    destruct in_run; [exfalso; exact (Hhd eq_refl eq_refl)|].
    f_equal. apply IH; [exact HF' | exact HD|].
    intros _ Hh. apply Hcc. split; [reflexivity | exact Hh].
Qed.

(** X14.  [slugify] is idempotent: given that NFD normalisation leaves
    ASCII text as it is, the slug of a slug is that slug; and every slug is
    its own slug. *)
Theorem slugify_idempotent (normalizeNFD : ustring -> ustring) :
  (forall s, Forall (fun c => (c < 128)%N) s -> normalizeNFD s = s) ->
  (forall s, is_slug s -> slugify_text normalizeNFD true true s = s) /\
  (forall text,
      slugify_text normalizeNFD true true
        (slugify_text normalizeNFD true true text)
      = slugify_text normalizeNFD true true text).
Proof.
  intros Hnfd.
  assert (Hfix : forall s, is_slug s ->
                           slugify_text normalizeNFD true true s = s).
  { intros s (HF & Hhd & Hl & HD). unfold slugify_text, trim_units.
    assert (Hws : Forall (fun c => is_white_space c = false) s).
    { eapply Forall_impl; [|exact HF]. intros c Hc.
      exact (proj1 (slug_unit_plain _ Hc)). }
    rewrite (drop_leading_none _ Hws), (drop_trailing_none _ Hws).
    rewrite Hnfd
      by (eapply Forall_impl; [|exact HF]; intros c Hc;
          exact (proj1 (proj2 (proj2 (slug_unit_plain _ Hc))))).
    rewrite (@filter_all _ (fun c => negb (is_mark c)) s)
      by (eapply Forall_impl; [|exact HF]; intros c Hc;
          rewrite (proj1 (proj2 (slug_unit_plain _ Hc))); reflexivity).
    rewrite (@collapse_slug s false HF HD) by discriminate.
    rewrite (drop_leading_head _ Hhd), (drop_trailing_last _ Hl).
    rewrite filter_all.
    - rewrite <- (map_id s) at 2. apply map_ext_in. intros c Hc.
      rewrite Forall_forall in HF. exact (to_lower_slug_unit _ (HF c Hc)).
    - apply Forall_map. eapply Forall_impl; [|exact HF]. intros c Hc.
      rewrite (to_lower_slug_unit _ Hc). exact Hc. }
  split; [exact Hfix|]. intros text. apply Hfix.
  destruct (slug_before_lowering normalizeNFD text) as (Hh & Hhd & Hl).
  pose proof (lower_hyphenated Hh Hhd Hl) as Hslug.
  unfold slugify_text. rewrite filter_all by exact (proj1 Hslug). exact Hslug.
Qed.

Lemma slugify_idempotent_witness :
  let nfd := fun s : ustring => s in
  let slug := units_of_string "caffeine-sleep" in
  (forall s, Forall (fun c => (c < 128)%N) s -> nfd s = s) /\
  slugify_text nfd true true (units_of_string "  Caffeine & Sleep! ") = slug /\
  slugify_text nfd true true slug = slug.
Proof.
  intros nfd slug.
  assert (H : forall s, Forall (fun c => (c < 128)%N) s -> nfd s = s)
    by (intros s _; reflexivity).
  split; [exact H|].
  assert (Hs : slugify_text nfd true true
                 (units_of_string "  Caffeine & Sleep! ") = slug)
    by reflexivity.
  split; [exact Hs|].
  rewrite <- Hs. exact (proj2 (slugify_idempotent nfd H) _).
Defined.

(** ** [askQuestion] *)

Lemma handleLine_ends (c : ExitCondition) (input line : ustring) :
  handleLine c input line
  = if ends_input c line
    then inl (match c with newline => trim_units line | _ => trim_units input end)
    else inr (input ++ line ++ [10%N])%list.
Proof. destruct c; cbn; try reflexivity; destruct (ustring_eqb _ _); reflexivity. Qed.

Lemma listen_pending (c : ExitCondition) (lines : list ustring) :
  forall input,
    Forall (fun l => ends_input c l = false) lines ->
    listen c input lines = None.
Proof.
  induction lines as [|l lines IH]; intros input H; [reflexivity|].
  inversion H as [|? ? Hl Hrest]; subst. cbn [listen].
  rewrite handleLine_ends, Hl. apply IH. exact Hrest.
Qed.

Lemma listen_resolves (c : ExitCondition) (before : list ustring) :
  forall input last_line after,
    Forall (fun l => ends_input c l = false) before ->
    ends_input c last_line = true ->
    listen c input (before ++ last_line :: after)%list
    = Some (match c with
            | newline => trim_units last_line
            | _ => trim_units
                     (input ++ flat_map (fun l => l ++ [10%N]) before)%list
            end, after).
Proof.
  induction before as [|l before IH]; intros input last_line after Hb He.
  - change ([] ++ last_line :: after)%list with (last_line :: after).
    cbn [listen flat_map]. rewrite handleLine_ends, He, app_nil_r.
    reflexivity.
  - inversion Hb as [|? ? Hl Hrest]; subst.
    change ((l :: before) ++ last_line :: after)%list
      with (l :: (before ++ last_line :: after))%list.
    cbn [listen flat_map]. rewrite handleLine_ends, Hl.
    rewrite (IH (input ++ l ++ [10%N])%list last_line after Hrest He). destruct c; try reflexivity;
      rewrite <- !app_assoc; reflexivity.
Qed.

(** X15.  [askQuestion] reads up to the first line that ends the input: in
    ['newline'] mode any line, in ['blank'] mode a line of white space only,
    in ['control'] mode a line that is [exit] once trimmed.  That line is
    not part of the answer and the lines after it are left alone; the answer
    is the first line trimmed in ['newline'] mode, and otherwise the lines
    before it, each followed by a line feed, trimmed as a whole.  While no
    such line arrives the question stays unanswered.  So [exit] typed at
    once gives the empty query. *)
Theorem askQuestion_reads_to_terminator (c : ExitCondition)
    (before : list ustring) (last_line : ustring) (after : list ustring) :
  Forall (fun l => ends_input c l = false) before ->
  (askQuestion c before = None) /\
  (ends_input c last_line = true ->
   askQuestion c (before ++ last_line :: after)%list
   = Some (match c with
           | newline => trim_units last_line
           | _ => trim_units (flat_map (fun l => l ++ [10%N])%list before)
           end, after)) /\
  (c = newline -> before = []) /\
  askQuestion control (exit_word :: after) = Some ([], after).
Proof.
  intros Hb. split; [|split; [|split]].
  - apply listen_pending. exact Hb.
  - intros He. unfold askQuestion. rewrite (@listen_resolves c before [] last_line after Hb He).
    reflexivity.
  - intros ->. destruct before as [|l before]; [reflexivity|].
    inversion Hb as [|? ? Hl _]. discriminate Hl.
  - reflexivity.
Qed.

Lemma askQuestion_reads_to_terminator_witness :
  let l1 := units_of_string "impact of caffeine" in
  let l2 := units_of_string "  on sleep  " in
  let stop := units_of_string " exit " in
  let next := units_of_string "4" in
  Forall (fun l => ends_input control l = false) [l1; l2] /\
  ends_input control stop = true /\
  askQuestion control [l1; l2; stop; next]
  = Some (units_of_string "impact of caffeine
  on sleep", [next]).
Proof.
  intros l1 l2 stop next.
  assert (Hb : Forall (fun l => ends_input control l = false) [l1; l2])
    by (repeat constructor).
  assert (He : ends_input control stop = true) by reflexivity.
  split; [exact Hb|]. split; [exact He|].
  destruct (@askQuestion_reads_to_terminator control [l1; l2] stop [next] Hb)
    as (_ & H & _).
  exact (H He).
Defined.
